(** * shvar: the shell-variable file store of the ifcfg-rh settings plugin

    A shallow embedding of [src/settings/plugins/ifcfg-rh/shvar.c] and the
    properties of its escape codec, its line records, its document
    operations and its write-back.

    Conventions.
    - A C string is the list of its bytes, each an integer in [1, 255]; the
      terminating NUL is not part of the list.  Reading past the end of the
      list reads the terminator, byte 0.
    - [char] is a byte whose value as an integer depends on the ABI: the
      development is parametric in [char_signed].
    - Buffers are lists; allocation sizes are not part of the model. *)

From Stdlib Require Import ZArith List Bool Lia Ascii String.
Import ListNotations.
Local Open Scope Z_scope.

(** ** Bytes and C strings *)

Definition is_cstr (s : list Z) : Prop := Forall (fun b => 0 < b < 256) s.

Definition is_cstrb (s : list Z) : bool :=
  forallb (fun b => (0 <? b) && (b <? 256)) s.

(** The bytes of a literal, to write examples. *)
Fixpoint bytes (s : string) : list Z :=
  match s with
  | EmptyString => []
  | String a s' => Z.of_N (N_of_ascii a) :: bytes s'
  end.

(** What a [char *] sees of a buffer: the bytes before the first NUL. *)
Fixpoint cstr_of (buf : list Z) : list Z :=
  match buf with
  | [] => []
  | b :: buf' => if b =? 0 then [] else b :: cstr_of buf'
  end.

(** [NM_IN_SET (ch, ...)]: equality with one of the listed values. *)
Definition NM_IN_SET (ch : Z) (set : list Z) : bool := existsb (Z.eqb ch) set.

(** [nm_streq]: equality of the contents of two strings. *)
Fixpoint nm_streq (a b : list Z) : bool :=
  match a, b with
  | [], [] => true
  | x :: a', y :: b' => (x =? y) && nm_streq a' b'
  | _, _ => false
  end.

(** GLib's ASCII classification, on the byte read as [guchar].  In GLib's
    table the white space is the space, the tab, the newline, the form feed
    and the carriage return; the vertical tab (0x0B) is a control byte and
    no white space. *)
Definition g_ascii_isspace (c : Z) : bool :=
  NM_IN_SET c [32; 9; 10; 12; 13].

Definition g_ascii_isdigit (c : Z) : bool := (48 <=? c) && (c <=? 57).

Definition g_ascii_isalpha (c : Z) : bool :=
  ((65 <=? c) && (c <=? 90)) || ((97 <=? c) && (c <=? 122)).

Definition g_ascii_isalnum (c : Z) : bool :=
  g_ascii_isalpha c || g_ascii_isdigit c.

Definition g_ascii_isxdigit (c : Z) : bool :=
  g_ascii_isdigit c || ((65 <=? c) && (c <=? 70)) || ((97 <=? c) && (c <=? 102)).

(** ** The escape codec *)

Definition _char_req_escape (ch : Z) : bool := NM_IN_SET ch [34; 92; 36; 96].

Definition _char_req_escape_old (ch : Z) : bool :=
  NM_IN_SET ch [34; 92; 39; 36; 96; 126].

Definition _char_req_quotes (ch : Z) : bool :=
  NM_IN_SET ch [32; 39; 126; 9; 124; 38; 59; 40; 41; 60; 62].

Section Encoder.

(** Whether plain [char] is signed on the target ABI. *)
Variable char_signed : bool.

(** The value of a byte read through a [const char *] and promoted to
    [int]. *)
Definition char_val (b : Z) : Z :=
  if char_signed && (128 <=? b) then b - 256 else b.

(** One iteration of the byte loop of [_escape_ansic]. *)
Definition _escape_ansic_char (p : Z) : list Z :=
  if p =? 8 then [92; 98]
  else if p =? 12 then [92; 102]
  else if p =? 10 then [92; 110]
  else if p =? 13 then [92; 114]
  else if p =? 9 then [92; 116]
  else if p =? 11 then [92; 118]
  else if NM_IN_SET p [92; 34; 39] then [92; p]
  else if (char_val p <? 32) || (127 <=? char_val p) then
    [92;
     48 + Z.land (Z.shiftr (char_val p) 6) 7;
     48 + Z.land (Z.shiftr (char_val p) 3) 7;
     48 + Z.land (char_val p) 7]
  else [p].

Definition _escape_ansic (source : list Z) : list Z :=
  [36; 39] ++ flat_map _escape_ansic_char source ++ [39].

(** The first loop of [svEscape]: it counts the bytes to escape, notes
    whether quotes are needed, and leaves early for the ANSI-C form. *)
Inductive scan := NeedsAnsic | Scanned (mangle : nat) (requires_quotes : bool).

Fixpoint svEscape_scan (s : list Z) (mangle : nat) (requires_quotes : bool)
  : scan :=
  match s with
  | [] => Scanned mangle requires_quotes
  | c :: s' =>
      if _char_req_escape c then svEscape_scan s' (S mangle) requires_quotes
      else if _char_req_quotes c then svEscape_scan s' mangle true
      else if char_val c <? 32 then NeedsAnsic
      else svEscape_scan s' mangle requires_quotes
  end.

(** The second loop of [svEscape], between the two double quotes. *)
Definition svEscape_char (c : Z) : list Z :=
  if _char_req_escape c then [92; c] else [c].

Definition svEscape (s : list Z) : list Z :=
  match svEscape_scan s 0 false with
  | NeedsAnsic => _escape_ansic s
  | Scanned mangle requires_quotes =>
      if Nat.eqb mangle 0 && negb requires_quotes then s
      else [34] ++ flat_map svEscape_char s ++ [34]
  end.

(** A byte that sends [svEscape] to the ANSI-C form: the third test of
    its first loop. *)
Definition forces_ansic (c : Z) : bool :=
  negb (_char_req_escape c) && negb (_char_req_quotes c)
  && (char_val c <? 32).

End Encoder.

(** The classes of bytes and the ANSI-C form, in the words of the claims: a
    byte below the space as a [char], the tab apart (a control byte other
    than the tab or, where [char] is signed, a byte above 0x7F); a control
    byte other than the tab; a byte of one of the two character sets; a
    text that starts with a dollar and a single quote. *)
Definition ansic_byte (char_signed : bool) (c : Z) : Prop :=
  (c < 32 /\ c <> 9) \/ (char_signed = true /\ 128 <= c).

Definition control_byte (c : Z) : Prop := c < 32 /\ c <> 9.

Definition special_byte (c : Z) : Prop :=
  _char_req_escape c = true \/ _char_req_quotes c = true.

Definition ansic_form (text : list Z) : Prop :=
  exists body, text = 36 :: 39 :: body.

(** ** The decoder *)

Definition _looks_like_old_svescaped_loop :=
  fix loop (l : list Z) : bool :=
    match l with
    | [] => false
    | c :: l1 =>
        if negb (_char_req_escape_old c) then loop l1
        else if c =? 34 then
          match l1 with [] => true | _ => false end
        else if c =? 92 then
          match l1 with
          | [] => false
          | d :: l2 => if _char_req_escape_old d then loop l2 else false
          end
        else false
    end.

Definition _looks_like_old_svescaped (value : list Z) : bool :=
  match value with
  | c :: l => if c =? 34 then _looks_like_old_svescaped_loop l else false
  | [] => false
  end.

Definition _ch_octal_is (ch : Z) : bool := (48 <=? ch) && (ch <? 56).

Definition _ch_octal_get (ch : Z) : Z := ch - 48.

Definition _ch_hex_is (ch : Z) : bool := g_ascii_isxdigit ch.

Definition _ch_hex_get (ch : Z) : Z :=
  if ch <=? 57 then ch - 48 else Z.land ch 79 - 65 + 10.

(** GLib's [g_string_append_unichar]: the UTF-8 form of a [gunichar]
    (a 32-bit value), in one to six bytes. *)
Definition utf8_tail (wc : Z) (k : Z) : Z :=
  Z.lor (Z.land (Z.shiftr wc (6 * k)) 63) 128.

Definition g_unichar_to_utf8 (v : Z) : list Z :=
  let wc := v mod 2 ^ 32 in
  if wc <? 128 then [wc]
  else if wc <? 2048 then
    [Z.lor (Z.shiftr wc 6) 192; utf8_tail wc 0]
  else if wc <? 65536 then
    [Z.lor (Z.shiftr wc 12) 224; utf8_tail wc 1; utf8_tail wc 0]
  else if wc <? 2097152 then
    [Z.lor (Z.shiftr wc 18) 240; utf8_tail wc 2; utf8_tail wc 1; utf8_tail wc 0]
  else if wc <? 67108864 then
    [Z.lor (Z.shiftr wc 24) 248; utf8_tail wc 3; utf8_tail wc 2; utf8_tail wc 1;
     utf8_tail wc 0]
  else
    [(Z.lor (Z.shiftr wc 30) 252) mod 256; utf8_tail wc 4; utf8_tail wc 3;
     utf8_tail wc 2; utf8_tail wc 1; utf8_tail wc 0].

(** The scan after an unquoted space or semicolon: the byte at which the
    [while] over spaces and at most one semicolon stops (0 at the end). *)
Fixpoint svUnescape_trailing (has_semicolon : bool) (l : list Z) : Z :=
  match l with
  | [] => 0
  | c :: l' =>
      if g_ascii_isspace c then svUnescape_trailing has_semicolon l'
      else if negb has_semicolon && (c =? 59) then svUnescape_trailing true l'
      else c
  end.

(** The simple escapes of the ANSI-C form ([switch (value[i])]). *)
Definition ansic_simple (c : Z) : option Z :=
  if c =? 97 then Some 7          (* a *)
  else if c =? 98 then Some 8     (* b *)
  else if c =? 101 then Some 27   (* e *)
  else if c =? 69 then Some 27    (* E *)
  else if c =? 102 then Some 12   (* f *)
  else if c =? 110 then Some 10   (* n *)
  else if c =? 114 then Some 13   (* r *)
  else if c =? 116 then Some 9    (* t *)
  else if c =? 118 then Some 11   (* v *)
  else if c =? 63 then Some 63    (* ? *)
  else if c =? 34 then Some 34
  else if c =? 92 then Some 92
  else if c =? 39 then Some 39
  else None.

(** What the decoder needs of the encoding of one byte in the ANSI-C
    form. *)
Definition ansic_char_decodes (p : Z) (enc : list Z) : bool :=
  match enc with
  | [c] => (c =? p) && negb (c =? 39) && negb (c =? 92)
  | [b; e] =>
      (b =? 92)
      && match ansic_simple e with Some ch => ch =? p | None => false end
  | [b; d1; d2; d3] =>
      (b =? 92)
      && match ansic_simple d1 with Some _ => false | None => true end
      && _ch_octal_is d1 && _ch_octal_is d2 && _ch_octal_is d3
      && (((_ch_octal_get d1 * 8 + _ch_octal_get d2) * 8 + _ch_octal_get d3)
            mod 256 =? p)
  | _ => false
  end.

Section Decoder.

(** The string handed to [svUnescape]; the loops below walk a suffix [l]
    of it, [i] being the index of the head of [l]. *)
Variable value : list Z.

(** [_gstr_init]: the first use of the buffer copies the [i] bytes read so
    far. *)
Definition _gstr_init (str : option (list Z)) (i : nat) : list Z :=
  match str with
  | Some s => s
  | None => firstn i value
  end.

(** The code at label [out_value]; [rest] is what is left at index [i]. *)
Definition out_value (i : nat) (str : option (list Z)) (rest : list Z)
  : option (list Z) :=
  if Nat.eqb i 0 then Some []
  else
    match str with
    | Some s =>
        if Nat.eqb (List.length s) 0 || (nth 0 s 0 =? 0) then Some []
        else Some (cstr_of s)
    | None =>
        match rest with
        | [] => Some value
        | _ :: _ => Some (firstn i value)
        end
    end.

(** The main loop and its three quoted runs.  [None] is the [NULL] of
    [out_error].  The single-quoted run appends byte by byte what the
    code appends at once when it has found the closing quote. *)
Fixpoint svUnescape_loop (l : list Z) (i : nat) (str : option (list Z))
  {struct l} : option (list Z) :=
  match l with
  | [] => out_value i str []
  | c :: l1 =>
      let regular :=
        if NM_IN_SET c [124; 38; 40; 41; 60; 62] then None
        else svUnescape_loop l1 (S i) (option_map (fun s => s ++ [c]) str) in
      if g_ascii_isspace c || (c =? 59) then
        if NM_IN_SET (svUnescape_trailing (c =? 59) l1) [0; 35]
        then out_value i str l
        else None
      else if c =? 92 then
        match l1 with
        | [] => None
        | d :: l2 =>
            svUnescape_loop l2 (S (S i)) (Some (_gstr_init str i ++ [d]))
        end
      else if c =? 39 then loop_squote l1 (S i) (_gstr_init str i)
      else if c =? 34 then loop_dquote l1 (S i) (_gstr_init str i)
      else if c =? 36 then
        match l1 with
        | q :: l2 =>
            if q =? 39 then loop_ansic l2 (S (S i)) (_gstr_init str i)
            else regular
        | [] => regular
        end
      else regular
  end

with loop_squote (l : list Z) (i : nat) (str : list Z) {struct l}
  : option (list Z) :=
  match l with
  | [] => None
  | c :: l1 =>
      if c =? 39 then svUnescape_loop l1 (S i) (Some str)
      else loop_squote l1 (S i) (str ++ [c])
  end

with loop_dquote (l : list Z) (i : nat) (str : list Z) {struct l}
  : option (list Z) :=
  match l with
  | [] => None
  | c :: l1 =>
      if c =? 34 then svUnescape_loop l1 (S i) (Some str)
      else if NM_IN_SET c [96; 36] then None
      else if c =? 92 then
        match l1 with
        | [] => None
        | d :: l2 =>
            let str' :=
              if NM_IN_SET d [36; 96; 34; 92] then str
              else if NM_IN_SET d [39; 126] then
                if _looks_like_old_svescaped value then str else str ++ [92]
              else str ++ [92] in
            loop_dquote l2 (S (S i)) (str' ++ [d])
        end
      else loop_dquote l1 (S i) (str ++ [c])
  end

with loop_ansic (l : list Z) (i : nat) (str : list Z) {struct l}
  : option (list Z) :=
  match l with
  | [] => None
  | c :: l1 =>
      if c =? 39 then svUnescape_loop l1 (S i) (Some str)
      else if c =? 92 then
        match l1 with
        | [] => None
        | e :: l2 =>
            match ansic_simple e with
            | Some ch => loop_ansic l2 (S (S i)) (str ++ [ch])
            | None =>
                if _ch_octal_is e then
                  let v1 := _ch_octal_get e in
                  match l2 with
                  | d2 :: l3 =>
                      if _ch_octal_is d2 then
                        let v2 := v1 * 8 + _ch_octal_get d2 in
                        match l3 with
                        | d3 :: l4 =>
                            if _ch_octal_is d3 then
                              let v3 := v2 * 8 + _ch_octal_get d3 in
                              loop_ansic l4 (4 + i)%nat (str ++ [v3 mod 256])
                            else loop_ansic l3 (3 + i)%nat (str ++ [v2 mod 256])
                        | [] => loop_ansic l3 (3 + i)%nat (str ++ [v2 mod 256])
                        end
                      else loop_ansic l2 (2 + i)%nat (str ++ [v1 mod 256])
                  | [] => loop_ansic l2 (2 + i)%nat (str ++ [v1 mod 256])
                  end
                else if NM_IN_SET e [120; 117; 85] then
                  let max_digits : nat :=
                    if e =? 120 then 2%nat else if e =? 117 then 4%nat
                    else 8%nat in
                  let emit (v : Z) : list Z :=
                    if e =? 120 then [v mod 256] else g_unichar_to_utf8 v in
                  match l2 with
                  | h :: l3 =>
                      if _ch_hex_is h then
                        (fix hex_loop (digits : nat) (v : Z) (l' : list Z)
                             (i' : nat) {struct l'} : option (list Z) :=
                           match digits, l' with
                           | S digits', h' :: l'' =>
                               if _ch_hex_is h' then
                                 hex_loop digits' (v * 16 + _ch_hex_get h')
                                   l'' (S i')
                               else loop_ansic l' i' (str ++ emit v)
                           | _, _ => loop_ansic l' i' (str ++ emit v)
                           end)
                          (Nat.pred max_digits) (_ch_hex_get h) l3 (3 + i)%nat
                      else loop_ansic l2 (2 + i)%nat (str ++ [92; e])
                  | [] => loop_ansic l2 (2 + i)%nat (str ++ [92; e])
                  end
                else loop_ansic l2 (S (S i)) (str ++ [92; e])
            end
        end
      else loop_ansic l1 (S i) (str ++ [c])
  end.

Definition svUnescape : option (list Z) := svUnescape_loop value 0 None.

End Decoder.

(** ** Line records *)

(** [shvarLine].  A line that is no assignment has its text in [line] and
    no key; an assignment has what follows the equal sign in [line], the
    key with its leading blanks in [key_with_prefix] and the key itself in
    [key]; an assignment deleted by [svSetValue] keeps its key and has no
    [line].  In the code [key] points into [key_with_prefix], so the two
    pointers are equal exactly when the two strings are. *)
Record shvarLine := mk_shvarLine {
  line : option (list Z);
  key : option (list Z);
  key_with_prefix : option (list Z)
}.

(** [struct _shvarFile]; [fd] is -1 when no descriptor is kept. *)
Record shvarFile := mk_shvarFile {
  fileName : list Z;
  fd : Z;
  lineList : list shvarLine;
  modified : bool
}.

(** [_shell_is_name (key, -1)]: a letter or underscore, then letters,
    digits and underscores. *)
Definition _shell_is_name (k : list Z) : bool :=
  match k with
  | [] => false
  | c :: k' =>
      (g_ascii_isalpha c || (c =? 95))
      && forallb (fun d => g_ascii_isalnum d || (d =? 95)) k'
  end.

(** The inner [for] of [line_new_parse]: the index of the equal sign that
    ends the name starting before [l], if the name runs up to one. *)
Fixpoint line_new_parse_name (l : list Z) (e : nat) : option nat :=
  match l with
  | [] => None
  | c :: l' =>
      if c =? 61 then Some e
      else if negb (g_ascii_isalnum c) && negb (c =? 95) then None
      else line_new_parse_name l' (S e)
  end.

Definition line_raw (text : list Z) : shvarLine :=
  {| line := Some text; key := None; key_with_prefix := None |}.

(** The outer [for] of [line_new_parse] over the [len] bytes of [value]. *)
Fixpoint line_new_parse_from (value l : list Z) (k : nat) : shvarLine :=
  match l with
  | [] => line_raw value
  | c :: l' =>
      if g_ascii_isspace c then line_new_parse_from value l' (S k)
      else if g_ascii_isalpha c || (c =? 95) then
        match line_new_parse_name l' (S k) with
        | Some e =>
            {| line := Some (skipn (S e) value);
               key := Some (skipn k (firstn e value));
               key_with_prefix := Some (firstn e value) |}
        | None => line_raw value
        end
      else line_raw value
  end.

Definition line_new_parse (value : list Z) : shvarLine :=
  line_new_parse_from value value 0.

Section Document.

Variable char_signed : bool.

Definition line_new_build (k value : list Z) : shvarLine :=
  {| line := Some (svEscape char_signed value);
     key := Some k;
     key_with_prefix := Some k |}.

Definition opt_streq (a b : option (list Z)) : bool :=
  match a, b with
  | Some x, Some y => nm_streq x y
  | None, None => true
  | _, _ => false
  end.

(** [line_set]: the new record and whether it changed.  The key loses
    its leading blanks ([memmove]), which counts as a change. *)
Definition line_set (ln : shvarLine) (value : list Z) : shvarLine * bool :=
  let changed := negb (opt_streq (key ln) (key_with_prefix ln)) in
  let ln1 := {| line := line ln; key := key ln; key_with_prefix := key ln |} in
  let value' := svEscape char_signed value in
  match line ln1 with
  | Some old =>
      if nm_streq value' old then (ln1, changed)
      else ({| line := Some value'; key := key ln1;
               key_with_prefix := key_with_prefix ln1 |}, true)
  | None =>
      ({| line := Some value'; key := key ln1;
          key_with_prefix := key_with_prefix ln1 |}, true)
  end.

End Document.

(** ** Opening a file *)

(** The two loops of [svOpenFileInternal] over the bytes read: one record
    per newline-ended segment, and one for a last segment that is not
    empty.  [cur] holds the bytes of the segment read so far. *)
Fixpoint split_lines (arena cur : list Z) : list (list Z) :=
  match arena with
  | [] => match cur with [] => [] | _ :: _ => [cur] end
  | c :: arena' =>
      if c =? 10 then cur :: split_lines arena' []
      else split_lines arena' (cur ++ [c])
  end.

Definition parse_arena (arena : list Z) : list shvarLine :=
  map line_new_parse (split_lines (cstr_of arena) []).

(** What [open] finds at a path. *)
Inductive access := NoFile | ReadOnly | ReadWrite.

(** The file system as the code sees it: one path, its access rights, its
    bytes, whether reading it succeeds (it fails above 10 MiB), whether
    creating it, [ftruncate], [dup] and [fdopen] succeed, how much of what
    is printed reaches the file ([None]: all of it; [Some n]: the first
    [n] bytes, the stream failing then), and the system calls made so
    far. *)
Inductive syscall :=
| SysOpen (name : list Z)
| SysFtruncate
| SysDup
| SysWrite (data : list Z)
| SysClose.

Record world := mk_world {
  w_access : access;
  w_disk : list Z;
  w_read_ok : bool;
  w_create_ok : bool;
  w_ftruncate_ok : bool;
  w_dup_ok : bool;
  w_fdopen_ok : bool;
  w_write_limit : option nat;
  w_trace : list syscall
}.

Definition world_log (w : world) (calls : list syscall) : world :=
  {| w_access := w_access w; w_disk := w_disk w; w_read_ok := w_read_ok w;
     w_create_ok := w_create_ok w; w_ftruncate_ok := w_ftruncate_ok w;
     w_dup_ok := w_dup_ok w; w_fdopen_ok := w_fdopen_ok w;
     w_write_limit := w_write_limit w;
     w_trace := w_trace w ++ calls |}.

Definition world_store (w : world) (a : access) (data : list Z) : world :=
  {| w_access := a; w_disk := data; w_read_ok := w_read_ok w;
     w_create_ok := w_create_ok w; w_ftruncate_ok := w_ftruncate_ok w;
     w_dup_ok := w_dup_ok w; w_fdopen_ok := w_fdopen_ok w;
     w_write_limit := w_write_limit w;
     w_trace := w_trace w |}.

Definition svFile_new (name : list Z) : shvarFile :=
  {| fileName := name; fd := -1; lineList := []; modified := false |}.

Definition svFileSetModified (s : shvarFile) : shvarFile :=
  {| fileName := fileName s; fd := fd s; lineList := lineList s;
     modified := true |}.

(** [svOpenFileInternal]; [None] is the [NULL] returned with an error.  A
    descriptor kept for writing is modelled as descriptor 3. *)
Definition svOpenFileInternal (name : list Z) (create : bool) (w : world)
  : option shvarFile :=
  let fd1 := if create then
               match w_access w with ReadWrite => 3 | _ => -1 end
             else -1 in
  let '(fd2, closefd) :=
    if fd1 <? 0 then
      match w_access w with
      | NoFile => (-1, false)
      | _ => (3, true)
      end
    else (fd1, false) in
  if fd2 <? 0 then
    if create then Some (svFile_new name) else None
  else if negb (w_read_ok w) then None
  else
    Some {| fileName := name;
            fd := if closefd then -1 else fd2;
            lineList := parse_arena (w_disk w);
            modified := false |}.

Definition svOpenFile (name : list Z) (w : world) : option shvarFile :=
  svOpenFileInternal name false w.

Definition svCreateFile (name : list Z) (w : world) : option shvarFile :=
  svOpenFileInternal name true w.

(** ** Reading and setting values *)

Definition line_has_key (ln : shvarLine) (k : list Z) : bool :=
  match key ln with
  | Some k' => nm_streq k' k
  | None => false
  end.

(** [shlist_find]: the list from the first record of key [k] on; the empty
    list is [NULL]. *)
Fixpoint shlist_find (current : list shvarLine) (k : list Z)
  : list shvarLine :=
  match current with
  | [] => []
  | ln :: next => if line_has_key ln k then current else shlist_find next k
  end.

(** The records that [shlist_find] walks over before it stops. *)
Fixpoint shlist_before (current : list shvarLine) (k : list Z)
  : list shvarLine :=
  match current with
  | [] => []
  | ln :: next =>
      if line_has_key ln k then [] else ln :: shlist_before next k
  end.

(** The [while] of [_svGetValue]: the last record of key [k]. *)
Fixpoint _svGetValue_last (current : list shvarLine) (k : list Z)
    (last : option shvarLine) : option shvarLine :=
  match current with
  | [] => last
  | ln :: next =>
      if line_has_key ln k then _svGetValue_last next k (Some ln)
      else _svGetValue_last next k last
  end.

Definition _svGetValue (s : shvarFile) (k : list Z) : option (list Z) :=
  match _svGetValue_last (lineList s) k None with
  | Some ln =>
      match line ln with
      | Some v => svUnescape v
      | None => None
      end
  | None => None
  end.

Definition svGetValueString (s : shvarFile) (k : list Z) : option (list Z) :=
  match _svGetValue s k with
  | None => None
  | Some [] => None
  | Some (c :: v) => Some (c :: v)
  end.

(** The [while] of [svSetValue].  The list is [pre ++ last ++ mid ++
    current]: [last] is the record of key [k] found last, [mid] the records
    walked since; finding the next one deletes [last] from the list. *)
Fixpoint svSetValue_loop (current : list shvarLine) (k : list Z)
    (pre : list shvarLine) (last : option shvarLine) (mid : list shvarLine)
    (modified : bool)
  : list shvarLine * option shvarLine * list shvarLine * bool :=
  match current with
  | [] => (pre, last, mid, modified)
  | ln :: next =>
      if line_has_key ln k then
        match last with
        | Some _ => svSetValue_loop next k (pre ++ mid) (Some ln) [] true
        | None => svSetValue_loop next k (pre ++ mid) (Some ln) [] modified
        end
      else svSetValue_loop next k pre last (mid ++ [ln]) modified
  end.

Section Setters.

Variable char_signed : bool.

Definition svSetValue (s : shvarFile) (k : list Z) (value : option (list Z))
  : shvarFile :=
  let '(pre, last, mid, modified1) :=
    svSetValue_loop (lineList s) k [] None [] (modified s) in
  match value with
  | None =>
      match last with
      | Some ln =>
          {| fileName := fileName s; fd := fd s;
             lineList :=
               pre ++ {| line := None; key := key ln;
                         key_with_prefix := key_with_prefix ln |} :: mid;
             modified :=
               match line ln with Some _ => true | None => modified1 end |}
      | None =>
          {| fileName := fileName s; fd := fd s;
             lineList := pre ++ mid; modified := modified1 |}
      end
  | Some v =>
      match last with
      | None =>
          {| fileName := fileName s; fd := fd s;
             lineList := (pre ++ mid) ++ [line_new_build char_signed k v];
             modified := true |}
      | Some ln =>
          let '(ln', changed) := line_set char_signed ln v in
          {| fileName := fileName s; fd := fd s;
             lineList := pre ++ ln' :: mid;
             modified := if changed then true else modified1 |}
      end
  end.

Definition svSetValueString (s : shvarFile) (k : list Z)
    (value : option (list Z)) : shvarFile :=
  svSetValue s k
    (match value with
     | Some (c :: v) => Some (c :: v)
     | _ => None
     end).

Definition svSetValueBoolean (s : shvarFile) (k : list Z) (value : bool)
  : shvarFile :=
  svSetValue s k (Some (if value then bytes "yes" else bytes "no")).

Definition svUnsetValue (s : shvarFile) (k : list Z) : shvarFile :=
  svSetValue s k None.

End Setters.

(** ** Write-back *)

(** Modelled from the spec: [nm_str_skip_leading_spaces] is declared in the
    shared utility headers, which are not part of the sources at hand; it
    strips the leading whitespace of a string. *)
Fixpoint nm_str_skip_leading_spaces (str : list Z) : list Z :=
  match str with
  | [] => []
  | c :: str' =>
      if g_ascii_isspace c then nm_str_skip_leading_spaces str' else str
  end.

Definition opt_str (o : option (list Z)) : list Z :=
  match o with Some x => x | None => [] end.

(** The marker that starts a line commented out by the write-back. *)
Definition NM_marker : list Z := bytes "#NM: ".

(** One iteration of the [for] of [svWriteFile]: the bytes printed for a
    record. *)
Definition svWriteFile_line (ln : shvarLine) : list Z :=
  match key ln with
  | None =>
      let str := nm_str_skip_leading_spaces (opt_str (line ln)) in
      if NM_IN_SET (nth 0 str 0) [0; 35] then opt_str (line ln) ++ [10]
      else NM_marker ++ opt_str (line ln) ++ [10]
  | Some k =>
      match line ln with
      | None => []
      | Some v =>
          match svUnescape v with
          | Some _ => opt_str (key_with_prefix ln) ++ [61] ++ v ++ [10]
          | None =>
              (k ++ [61; 10])
              ++ NM_marker ++ opt_str (key_with_prefix ln) ++ [61] ++ v ++ [10]
          end
      end
  end.

Definition svWriteFile_lines (l : list shvarLine) : list Z :=
  flat_map svWriteFile_line l.

(** A text that is empty or blank, or whose first byte that is not a blank
    is the hash sign. *)
Definition blank_or_comment (text : list Z) : Prop :=
  Forall (fun c => g_ascii_isspace c = true) text
  \/ exists ws rest,
       text = ws ++ 35 :: rest
       /\ Forall (fun c => g_ascii_isspace c = true) ws.

(** [open (fileName, O_WRONLY | O_CREAT)]: the descriptor (3, or -1 on
    failure) and the file system afterwards. *)
Definition open_wronly_creat (name : list Z) (w : world) : Z * world :=
  match w_access w with
  | ReadWrite => (3, world_log w [SysOpen name])
  | ReadOnly => (-1, world_log w [SysOpen name])
  | NoFile =>
      if w_create_ok w
      then (3, world_log (world_store w ReadWrite []) [SysOpen name])
      else (-1, world_log w [SysOpen name])
  end.

(** [svWriteFile]: the result, the document (its descriptor may have been
    opened) and the file system afterwards.  [mode] is only passed to
    [open].  The code does not look at what [fdopen], [fprintf] and
    [fclose] return.  When [fdopen] fails, the null stream goes to [fseek]
    and [fprintf]: the behaviour is undefined and there is no result,
    [None] here.  When the stream fails while printing, only the first
    bytes reach the file and the call returns [TRUE] all the same. *)
Definition svWriteFile (s : shvarFile) (mode : Z) (w : world)
  : option (bool * shvarFile * world) :=
  if modified s then
    let '(fd1, w1) :=
      if fd s =? -1 then open_wronly_creat (fileName s) w else (fd s, w) in
    let s1 := {| fileName := fileName s; fd := fd1; lineList := lineList s;
                 modified := modified s |} in
    if fd1 =? -1 then Some (false, s1, w1)
    else if negb (w_ftruncate_ok w1) then
      Some (false, s1, world_log w1 [SysFtruncate])
    else
      let w2 := world_log (world_store w1 (w_access w1) []) [SysFtruncate] in
      if negb (w_dup_ok w2) then Some (false, s1, world_log w2 [SysDup])
      else if negb (w_fdopen_ok w2) then None
      else
        let out := svWriteFile_lines (lineList s) in
        let reached :=
          match w_write_limit w2 with
          | None => out
          | Some n => firstn n out
          end in
        Some (true, s1,
              world_log (world_store w2 (w_access w2) reached)
                [SysDup; SysWrite out; SysClose])
  else Some (true, s, w).

(** What a call returned and what the file holds after it, when the call
    has a result. *)
Definition ok_of (r : option (bool * shvarFile * world)) : option bool :=
  option_map (fun x => fst (fst x)) r.

Definition disk_of (r : option (bool * shvarFile * world))
  : option (list Z) :=
  option_map (fun x => w_disk (snd x)) r.

(** A file system in which the write-back of [s] goes through: a
    descriptor is held or can be opened, [ftruncate], [dup] and [fdopen]
    succeed and the stream does not fail. *)
Definition write_ready (s : shvarFile) (w : world) : Prop :=
  (fd s <> -1 \/ w_access w = ReadWrite
   \/ (w_access w = NoFile /\ w_create_ok w = true))
  /\ w_ftruncate_ok w = true /\ w_dup_ok w = true
  /\ w_fdopen_ok w = true /\ w_write_limit w = None.

(** ** Booleans, integers and the other entry points *)

(** GLib's [g_ascii_tolower] and [g_ascii_strcasecmp]: the comparison
    walks both strings while neither has ended and returns the difference
    of the first two bytes that differ once lowered, or of the two bytes
    at which one string ends. *)
Definition g_ascii_tolower (c : Z) : Z :=
  if (65 <=? c) && (c <=? 90) then c + 32 else c.

Fixpoint g_ascii_strcasecmp (s1 s2 : list Z) : Z :=
  match s1, s2 with
  | c1 :: s1', c2 :: s2' =>
      if g_ascii_tolower c1 =? g_ascii_tolower c2
      then g_ascii_strcasecmp s1' s2'
      else g_ascii_tolower c1 - g_ascii_tolower c2
  | [], [] => 0
  | c1 :: _, [] => c1
  | [], c2 :: _ => - c2
  end.

(** [svParseBoolean]; [None] is the [NULL] string, [TRUE] is 1 and [FALSE]
    is 0. *)
Definition svParseBoolean (value : option (list Z)) (fallback : Z) : Z :=
  match value with
  | None => fallback
  | Some v =>
      if (g_ascii_strcasecmp (bytes "yes") v =? 0)
         || (g_ascii_strcasecmp (bytes "true") v =? 0)
         || (g_ascii_strcasecmp (bytes "t") v =? 0)
         || (g_ascii_strcasecmp (bytes "y") v =? 0)
         || (g_ascii_strcasecmp (bytes "1") v =? 0)
      then 1
      else if (g_ascii_strcasecmp (bytes "no") v =? 0)
              || (g_ascii_strcasecmp (bytes "false") v =? 0)
              || (g_ascii_strcasecmp (bytes "f") v =? 0)
              || (g_ascii_strcasecmp (bytes "n") v =? 0)
              || (g_ascii_strcasecmp (bytes "0") v =? 0)
      then 0
      else fallback
  end.

Definition svGetValue (s : shvarFile) (k : list Z) : option (list Z) :=
  _svGetValue s k.

Definition svGetValueBoolean (s : shvarFile) (k : list Z) (fallback : Z) : Z :=
  svParseBoolean (_svGetValue s k) fallback.

Definition svFileGetName (s : shvarFile) : list Z := fileName s.

Definition svFileSetName (s : shvarFile) (name : list Z) : shvarFile :=
  {| fileName := name; fd := fd s; lineList := lineList s;
     modified := modified s |}.

(** The C library's [strchr], as the bytes before the first [ch]; [None]
    when there is none. *)
Fixpoint strchr_before (s : list Z) (ch : Z) : option (list Z) :=
  match s with
  | [] => None
  | c :: s' =>
      if c =? ch then Some []
      else option_map (cons c) (strchr_before s' ch)
  end.

(** [ASSERT_shvarLine], the checks the code makes on a record when built
    with assertions: a record without key holds a text that does not start
    with a name and an equal sign; a record with a key holds the key with
    its prefix, the key is what follows the leading blanks of it, and is a
    name. *)
Definition ASSERT_shvarLine (ln : shvarLine) : bool :=
  match key ln with
  | None =>
      match line ln, key_with_prefix ln with
      | Some text, None =>
          match strchr_before (nm_str_skip_leading_spaces text) 61 with
          | None => true
          | Some name => negb (_shell_is_name name)
          end
      | _, _ => false
      end
  | Some k =>
      match key_with_prefix ln with
      | Some kp =>
          nm_streq k (nm_str_skip_leading_spaces kp) && _shell_is_name k
      | None => false
      end
  end.

(** Words for the statements below: a blank; a byte of a name; a line of
    a file, which holds neither a newline nor a NUL; a line with the
    newline that ends it. *)
Definition is_blank (c : Z) : Prop := g_ascii_isspace c = true.

Definition is_name_byte (c : Z) : bool := g_ascii_isalnum c || (c =? 95).

Definition is_line (seg : list Z) : Prop := ~ In 10 seg /\ ~ In 0 seg.

Definition with_newline (seg : list Z) : list Z := seg ++ [10].

(** * Properties *)

(** ** Bytes *)

Lemma NM_IN_SET_true (ch : Z) (set : list Z) :
  NM_IN_SET ch set = true <-> In ch set.
Proof.
  unfold NM_IN_SET. rewrite existsb_exists. split.
  - intros [x [Hin Heq]]. apply Z.eqb_eq in Heq. now subst.
  - intros Hin. exists ch. split; [assumption | apply Z.eqb_refl].
Qed.

Lemma NM_IN_SET_false (ch : Z) (set : list Z) :
  NM_IN_SET ch set = false <-> ~ In ch set.
Proof.
  rewrite <- NM_IN_SET_true. destruct (NM_IN_SET ch set); intuition congruence.
Qed.

Lemma nm_streq_eq (a b : list Z) : nm_streq a b = true <-> a = b.
Proof.
  revert b. induction a as [|x a IH]; intros [|y b]; simpl;
    try (split; congruence).
  rewrite andb_true_iff, Z.eqb_eq, IH. split.
  - intros [-> ->]. reflexivity.
  - intros H. injection H. auto.
Qed.

Lemma nm_streq_refl (a : list Z) : nm_streq a a = true.
Proof. now apply nm_streq_eq. Qed.

Lemma is_cstrb_spec (s : list Z) : is_cstrb s = true <-> is_cstr s.
Proof.
  unfold is_cstrb, is_cstr. rewrite forallb_forall, Forall_forall.
  split; intros H x Hx; specialize (H x Hx).
  - apply andb_true_iff in H. lia.
  - apply andb_true_iff. lia.
Qed.

Lemma cstr_of_cstr (s : list Z) : is_cstr s -> cstr_of s = s.
Proof.
  induction 1 as [|b s Hb _ IH]; simpl; [reflexivity|].
  destruct (Z.eqb_spec b 0); [lia|]. now rewrite IH.
Qed.

(** Deciding the byte tests of a goal. *)
Ltac byte_tests :=
  repeat match goal with
  | |- context [Z.eqb ?a ?b] => destruct (Z.eqb_spec a b); try lia
  | |- context [Z.ltb ?a ?b] => destruct (Z.ltb_spec a b); try lia
  | |- context [Z.leb ?a ?b] => destruct (Z.leb_spec a b); try lia
  end.

(** ** The decoder, one step at a time *)

Section DecoderSteps.

Variable value : list Z.

Lemma svUnescape_loop_nil i str :
  svUnescape_loop value [] i str = out_value value i str [].
Proof. reflexivity. Qed.

(** A byte that is no blank, quote, backslash, dollar, semicolon or
    shell metacharacter is consumed as it is. *)
Lemma svUnescape_loop_regular c l1 i str :
  g_ascii_isspace c = false ->
  NM_IN_SET c [59; 92; 39; 34; 36; 124; 38; 40; 41; 60; 62] = false ->
  svUnescape_loop value (c :: l1) i str
  = svUnescape_loop value l1 (S i) (option_map (fun s => s ++ [c]) str).
Proof.
  intros Hsp Hset. apply NM_IN_SET_false in Hset. simpl in Hset.
  cbn [svUnescape_loop]. rewrite Hsp.
  unfold NM_IN_SET; cbn [existsb orb].
  byte_tests; reflexivity.
Qed.

Lemma svUnescape_loop_dquote l1 i str :
  svUnescape_loop value (34 :: l1) i str
  = loop_dquote value l1 (S i) (_gstr_init value str i).
Proof. reflexivity. Qed.

Lemma svUnescape_loop_ansic l2 i str :
  svUnescape_loop value (36 :: 39 :: l2) i str
  = loop_ansic value l2 (S (S i)) (_gstr_init value str i).
Proof. reflexivity. Qed.

Lemma loop_dquote_close l1 i str :
  loop_dquote value (34 :: l1) i str
  = svUnescape_loop value l1 (S i) (Some str).
Proof. reflexivity. Qed.

Lemma loop_dquote_escaped d l2 i str :
  NM_IN_SET d [36; 96; 34; 92] = true ->
  loop_dquote value (92 :: d :: l2) i str
  = loop_dquote value l2 (S (S i)) (str ++ [d]).
Proof. intros H. cbn [loop_dquote]. cbn [Z.eqb Pos.eqb NM_IN_SET existsb orb] in *.
  rewrite H. reflexivity. Qed.

Lemma loop_dquote_plain c l1 i str :
  NM_IN_SET c [34; 96; 36; 92] = false ->
  loop_dquote value (c :: l1) i str
  = loop_dquote value l1 (S i) (str ++ [c]).
Proof.
  intros Hset. apply NM_IN_SET_false in Hset. simpl in Hset.
  cbn [loop_dquote]. unfold NM_IN_SET; cbn [existsb orb].
  byte_tests; reflexivity.
Qed.

Lemma loop_ansic_close l1 i str :
  loop_ansic value (39 :: l1) i str
  = svUnescape_loop value l1 (S i) (Some str).
Proof. reflexivity. Qed.

Lemma loop_ansic_simple e ch l2 i str :
  ansic_simple e = Some ch ->
  loop_ansic value (92 :: e :: l2) i str
  = loop_ansic value l2 (S (S i)) (str ++ [ch]).
Proof. intros H. cbn [loop_ansic]. cbn [Z.eqb Pos.eqb]. rewrite H. reflexivity. Qed.

Lemma loop_ansic_octal3 d1 d2 d3 l4 i str :
  ansic_simple d1 = None ->
  _ch_octal_is d1 = true -> _ch_octal_is d2 = true ->
  _ch_octal_is d3 = true ->
  loop_ansic value (92 :: d1 :: d2 :: d3 :: l4) i str
  = loop_ansic value l4 (4 + i)%nat
      (str ++ [(((_ch_octal_get d1 * 8 + _ch_octal_get d2) * 8
                 + _ch_octal_get d3) mod 256)]).
Proof.
  intros H0 H1 H2 H3. cbn [loop_ansic]. cbn [Z.eqb Pos.eqb].
  rewrite H0, H1, H2, H3. reflexivity.
Qed.

Lemma loop_ansic_plain c l1 i str :
  c <> 39 -> c <> 92 ->
  loop_ansic value (c :: l1) i str
  = loop_ansic value l1 (S i) (str ++ [c]).
Proof.
  intros H1 H2. cbn [loop_ansic]. byte_tests; reflexivity.
Qed.

Lemma out_value_str n s rest :
  is_cstr s -> out_value value (S n) (Some s) rest = Some s.
Proof.
  intros Hs. unfold out_value. cbn [Nat.eqb].
  destruct s as [|b s]; [reflexivity|].
  cbn [List.length Nat.eqb orb nth].
  inversion Hs; subst. destruct (Z.eqb_spec b 0); [lia|].
  now rewrite cstr_of_cstr.
Qed.

End DecoderSteps.

(** ** The encoder *)

Section EncoderFacts.

Variable char_signed : bool.

Lemma svEscape_scan_spec s : forall mangle requires_quotes,
  svEscape_scan char_signed s mangle requires_quotes
  = if existsb (forces_ansic char_signed) s then NeedsAnsic
    else Scanned (mangle + List.length (filter _char_req_escape s))
           (requires_quotes || existsb _char_req_quotes s).
Proof.
  induction s as [|c s IH]; intros mangle rq; cbn [svEscape_scan existsb filter].
  - cbn [List.length]. now rewrite Nat.add_0_r, orb_false_r.
  - unfold forces_ansic at 1.
    destruct (_char_req_escape c) eqn:He; cbn [negb andb orb].
    + rewrite IH. destruct (existsb (forces_ansic char_signed) s); [reflexivity|].
      cbn [List.length]. f_equal; [lia|].
      destruct (_char_req_quotes c) eqn:Hq; [|reflexivity].
      apply NM_IN_SET_true in He, Hq. simpl in He, Hq. lia.
    + destruct (_char_req_quotes c) eqn:Hq; cbn [negb andb orb].
      * rewrite IH. destruct (existsb (forces_ansic char_signed) s); [reflexivity|].
        now rewrite orb_true_r.
      * destruct (char_val char_signed c <? 32); [reflexivity|].
        now rewrite IH.
Qed.

Lemma filter_nil_existsb (f : Z -> bool) s :
  Nat.eqb (List.length (filter f s)) 0 = negb (existsb f s).
Proof.
  induction s as [|c s IH]; simpl; [reflexivity|].
  destruct (f c); simpl; [reflexivity | exact IH].
Qed.

(** [svEscape] by content. *)
Lemma svEscape_spec s :
  svEscape char_signed s
  = if existsb (forces_ansic char_signed) s then _escape_ansic char_signed s
    else if negb (existsb _char_req_escape s)
            && negb (existsb _char_req_quotes s) then s
    else [34] ++ flat_map svEscape_char s ++ [34].
Proof.
  unfold svEscape. rewrite svEscape_scan_spec.
  destruct (existsb (forces_ansic char_signed) s); [reflexivity|].
  cbn [Nat.add orb]. now rewrite filter_nil_existsb.
Qed.

(** For the bytes of a C string, [forces_ansic] in terms of the byte. *)
Lemma forces_ansic_byte c :
  0 < c < 256 ->
  forces_ansic char_signed c = true
  <-> (c < 32 /\ c <> 9) \/ (char_signed = true /\ 128 <= c).
Proof.
  intros Hc. unfold forces_ansic, char_val, _char_req_escape, _char_req_quotes.
  rewrite !andb_true_iff, !negb_true_iff, !NM_IN_SET_false. simpl.
  destruct (Z.leb_spec 128 c); destruct char_signed; cbn [andb];
    byte_tests; intuition (try lia; try congruence).
Qed.

End EncoderFacts.

(** ** Round trip *)

Lemma _escape_ansic_char_all (char_signed : bool) :
  forallb (fun n => ansic_char_decodes (Z.of_nat n)
                      (_escape_ansic_char char_signed (Z.of_nat n)))
    (seq 1 255) = true.
Proof. destruct char_signed; vm_compute; reflexivity. Qed.

Lemma _escape_ansic_char_decodes (char_signed : bool) (p : Z) :
  0 < p < 256 ->
  ansic_char_decodes p (_escape_ansic_char char_signed p) = true.
Proof.
  intros Hp. pose proof (_escape_ansic_char_all char_signed) as H.
  rewrite forallb_forall in H. specialize (H (Z.to_nat p)).
  rewrite Z2Nat.id in H by lia. apply H. apply in_seq. lia.
Qed.

Section RoundTrip.

Variable char_signed : bool.
Variable value : list Z.

Lemma loop_ansic_escaped v : is_cstr v -> forall rest i str,
  exists n,
    loop_ansic value
      (flat_map (_escape_ansic_char char_signed) v ++ 39 :: rest) i str
    = svUnescape_loop value rest (S n) (Some (str ++ v)).
Proof.
  induction 1 as [|p v Hp _ IH]; intros rest i str.
  - exists i. cbn [flat_map app]. rewrite loop_ansic_close.
    now rewrite app_nil_r.
  - cbn [flat_map]. rewrite <- app_assoc.
    pose proof (_escape_ansic_char_decodes char_signed p Hp) as Hd.
    destruct (_escape_ansic_char char_signed p)
      as [|b [|e [|d2 [|d3 [|x enc]]]]]; cbn [ansic_char_decodes] in Hd;
      try discriminate.
    + apply andb_true_iff in Hd. destruct Hd as [Hd H92].
      apply andb_true_iff in Hd. destruct Hd as [Hb H39].
      apply Z.eqb_eq in Hb. subst b.
      apply negb_true_iff, Z.eqb_neq in H39, H92.
      cbn [app]. rewrite loop_ansic_plain by assumption.
      destruct (IH rest (S i) (str ++ [p])) as [n Hn].
      exists n. rewrite Hn. now rewrite <- app_assoc.
    + apply andb_true_iff in Hd. destruct Hd as [Hb He].
      apply Z.eqb_eq in Hb. subst b.
      destruct (ansic_simple e) as [ch|] eqn:Hs; [|discriminate].
      apply Z.eqb_eq in He. subst ch.
      cbn [app]. rewrite (loop_ansic_simple value e p) by assumption.
      destruct (IH rest (S (S i)) (str ++ [p])) as [n Hn].
      exists n. rewrite Hn. now rewrite <- app_assoc.
    + repeat (apply andb_true_iff in Hd; destruct Hd as [Hd ?]).
      apply Z.eqb_eq in Hd. subst b.
      destruct (ansic_simple e) eqn:Hs; [discriminate|].
      match goal with H : (_ =? p) = true |- _ => apply Z.eqb_eq in H end.
      cbn [app]. rewrite loop_ansic_octal3 by assumption.
      match goal with H : _ mod 256 = p |- _ => rewrite H end.
      destruct (IH rest (4 + i)%nat (str ++ [p])) as [n Hn].
      exists n. rewrite Hn. now rewrite <- app_assoc.
Qed.

Lemma loop_dquote_escaped_all v : forall rest i str,
  exists n,
    loop_dquote value (flat_map svEscape_char v ++ 34 :: rest) i str
    = svUnescape_loop value rest (S n) (Some (str ++ v)).
Proof.
  induction v as [|c v IH]; intros rest i str.
  - exists i. cbn [flat_map app]. rewrite loop_dquote_close.
    now rewrite app_nil_r.
  - cbn [flat_map]. rewrite <- app_assoc. unfold svEscape_char at 1.
    destruct (_char_req_escape c) eqn:He; cbn [app].
    + rewrite loop_dquote_escaped.
      * destruct (IH rest (S (S i)) (str ++ [c])) as [n Hn].
        exists n. rewrite Hn. now rewrite <- app_assoc.
      * apply NM_IN_SET_true in He. apply NM_IN_SET_true.
        simpl in *. intuition.
    + rewrite loop_dquote_plain.
      * destruct (IH rest (S i) (str ++ [c])) as [n Hn].
        exists n. rewrite Hn. now rewrite <- app_assoc.
      * apply NM_IN_SET_false in He. apply NM_IN_SET_false.
        simpl in *. intuition.
Qed.

End RoundTrip.

(** A string of bytes that need neither quotes nor escapes decodes to
    itself. *)
Lemma svUnescape_loop_unquoted (char_signed : bool) (value : list Z) l :
  is_cstr l ->
  existsb (forces_ansic char_signed) l = false ->
  existsb _char_req_escape l = false ->
  existsb _char_req_quotes l = false ->
  forall i,
    svUnescape_loop value l i None
    = out_value value (i + List.length l) None [].
Proof.
  induction 1 as [|c l Hc _ IH]; intros Hf He Hq i.
  - rewrite svUnescape_loop_nil. cbn [List.length]. now rewrite Nat.add_0_r.
  - cbn [existsb] in Hf, He, Hq.
    apply orb_false_iff in Hf, He, Hq.
    destruct Hf as [Hf Hf'], He as [He He'], Hq as [Hq Hq'].
    assert (Hlow : 32 <= c).
    { unfold forces_ansic in Hf. rewrite He, Hq in Hf. cbn [negb andb] in Hf.
      unfold char_val in Hf.
      destruct (Z.leb_spec 128 c); [lia|].
      rewrite andb_false_r in Hf. apply Z.ltb_ge in Hf. exact Hf. }
    apply NM_IN_SET_false in He, Hq. simpl in He, Hq.
    rewrite svUnescape_loop_regular.
    + cbn [option_map]. rewrite IH by assumption. cbn [List.length].
      f_equal. lia.
    + apply NM_IN_SET_false. simpl. lia.
    + apply NM_IN_SET_false. simpl. lia.
Qed.

(** Decoding the encoding of a C string gives the string back, newline or
    not. *)
Lemma svUnescape_svEscape (char_signed : bool) (v : list Z) :
  is_cstr v -> svUnescape (svEscape char_signed v) = Some v.
Proof.
  intros Hv. rewrite svEscape_spec.
  destruct (existsb (forces_ansic char_signed) v) eqn:Hf.
  - unfold svUnescape, _escape_ansic. cbn [app].
    rewrite svUnescape_loop_ansic. cbn [_gstr_init firstn].
    destruct (loop_ansic_escaped char_signed
                (36 :: 39 :: flat_map (_escape_ansic_char char_signed) v ++ [39])
                v Hv [] 2%nat []) as [n Hn].
    rewrite Hn. rewrite svUnescape_loop_nil. now apply out_value_str.
  - destruct (negb (existsb _char_req_escape v)
              && negb (existsb _char_req_quotes v)) eqn:Hplain.
    + apply andb_true_iff in Hplain. destruct Hplain as [He Hq].
      apply negb_true_iff in He, Hq.
      unfold svUnescape.
      rewrite (svUnescape_loop_unquoted char_signed) by assumption.
      unfold out_value. cbn [Nat.add].
      destruct v; reflexivity.
    + unfold svUnescape. cbn [app].
      rewrite svUnescape_loop_dquote. cbn [_gstr_init firstn].
      destruct (loop_dquote_escaped_all
                  (34 :: flat_map svEscape_char v ++ [34]) v [] 1%nat [])
        as [n Hn].
      rewrite Hn. rewrite svUnescape_loop_nil. now apply out_value_str.
Qed.

(** ** The loops over the records *)

Section RecordLoops.

Variable k : list Z.

Let has_key (ln : shvarLine) : bool := line_has_key ln k.

Lemma line_has_key_key ln :
  line_has_key ln k = true -> key ln = Some k.
Proof.
  unfold line_has_key. destruct (key ln) as [k'|]; [|discriminate].
  intros H. apply nm_streq_eq in H. now subst.
Qed.

(** Any list of records has no record of key [k], or a last one. *)
Lemma last_key_split (l : list shvarLine) :
  existsb has_key l = false
  \/ exists A ln B, l = A ++ ln :: B /\ has_key ln = true
                    /\ existsb has_key B = false.
Proof.
  induction l as [|x l IH]; [now left|].
  destruct IH as [Hno | (A & ln & B & -> & Hln & HB)].
  - destruct (has_key x) eqn:Hx.
    + right. exists [], x, l. auto.
    + left. cbn [existsb]. now rewrite Hx.
  - right. exists (x :: A), ln, B. auto.
Qed.

(** The loop of [_svGetValue] is the loop over [shlist_find]. *)
Lemma _svGetValue_last_find current last :
  _svGetValue_last current k last
  = match shlist_find current k with
    | [] => last
    | ln :: next => _svGetValue_last next k (Some ln)
    end.
Proof.
  induction current as [|x l IH]; cbn [_svGetValue_last shlist_find];
    [reflexivity|].
  destruct (line_has_key x k); [reflexivity | exact IH].
Qed.

Lemma _svGetValue_last_none l last :
  existsb has_key l = false -> _svGetValue_last l k last = last.
Proof.
  revert last. induction l as [|x l IH]; intros last H; [reflexivity|].
  cbn [existsb] in H. apply orb_false_iff in H. destruct H as [Hx Hl].
  cbn [_svGetValue_last]. unfold has_key in Hx. rewrite Hx. now apply IH.
Qed.

Lemma _svGetValue_last_split A ln B last :
  has_key ln = true -> existsb has_key B = false ->
  _svGetValue_last (A ++ ln :: B) k last = Some ln.
Proof.
  intros Hln HB. revert last.
  induction A as [|x A IH]; intros last; cbn [app _svGetValue_last].
  - unfold has_key in Hln. rewrite Hln. now apply _svGetValue_last_none.
  - destruct (line_has_key x k); apply IH.
Qed.

(** The last record of key [k] is the first one of the reversed list. *)
Lemma _svGetValue_last_rev l :
  _svGetValue_last l k None = find has_key (rev l).
Proof.
  destruct (last_key_split l) as [Hno | (A & ln & B & -> & Hln & HB)].
  - rewrite _svGetValue_last_none by assumption.
    destruct (find has_key (rev l)) as [x|] eqn:E; [|reflexivity].
    apply find_some in E. destruct E as [Hin Hx].
    apply in_rev in Hin.
    assert (existsb has_key l = true) by (apply existsb_exists; eauto).
    congruence.
  - rewrite _svGetValue_last_split by assumption.
    rewrite rev_app_distr. cbn [rev]. rewrite <- app_assoc. cbn [app].
    assert (Hrev : forall X Y, existsb has_key X = false ->
              find has_key (rev X ++ ln :: Y) = Some ln).
    { intros X Y HX. induction X as [|x X IH] using rev_ind.
      - cbn [rev app find]. now rewrite Hln.
      - rewrite existsb_app in HX. apply orb_false_iff in HX.
        destruct HX as [HX Hx]. cbn [existsb] in Hx.
        rewrite orb_false_r in Hx.
        rewrite rev_app_distr. cbn [rev app find]. rewrite Hx.
        now apply IH. }
    now rewrite Hrev.
Qed.

(** The loop of [svSetValue] is the loop over [shlist_find]: the records
    walked over stay, the record found becomes [last] and the former
    [last] is deleted. *)
Lemma svSetValue_loop_find current pre last mid m :
  svSetValue_loop current k pre last mid m
  = match shlist_find current k with
    | [] => (pre, last, mid ++ current, m)
    | ln :: next =>
        svSetValue_loop next k (pre ++ mid ++ shlist_before current k)
          (Some ln) []
          (match last with Some _ => true | None => m end)
    end.
Proof.
  revert mid. induction current as [|x l IH]; intros mid.
  - cbn. now rewrite app_nil_r.
  - cbn [svSetValue_loop shlist_find shlist_before].
    destruct (line_has_key x k).
    + rewrite app_nil_r. now destruct last.
    + rewrite IH. destruct (shlist_find l k).
      * now rewrite <- app_assoc.
      * now rewrite <- !app_assoc.
Qed.

Lemma shlist_find_split current :
  current = shlist_before current k ++ shlist_find current k.
Proof.
  induction current as [|x l IH]; [reflexivity|].
  cbn [shlist_find shlist_before].
  destruct (line_has_key x k); [reflexivity|]. cbn [app]. now f_equal.
Qed.

Lemma svSetValue_loop_none current pre last mid m :
  existsb has_key current = false ->
  svSetValue_loop current k pre last mid m = (pre, last, mid ++ current, m).
Proof.
  revert mid. induction current as [|x l IH]; intros mid H.
  - cbn. now rewrite app_nil_r.
  - cbn [existsb] in H. apply orb_false_iff in H. destruct H as [Hx Hl].
    cbn [svSetValue_loop]. unfold has_key in Hx. rewrite Hx.
    rewrite IH by assumption. now rewrite <- app_assoc.
Qed.

(** With a last record [ln] of key [k], the loop keeps it, drops the
    earlier records of that key and reports whether it dropped any. *)
Lemma svSetValue_loop_split A ln B : forall pre last mid m,
  has_key ln = true -> existsb has_key B = false ->
  svSetValue_loop (A ++ ln :: B) k pre last mid m
  = (pre ++ mid ++ filter (fun x => negb (has_key x)) A, Some ln, B,
     m || (match last with Some _ => true | None => false end)
       || existsb has_key A).
Proof.
  induction A as [|x A IH]; intros pre last mid m Hln HB.
  - cbn [app svSetValue_loop filter existsb]. unfold has_key in Hln.
    rewrite Hln. rewrite app_nil_r, orb_false_r.
    destruct last; rewrite svSetValue_loop_none by assumption;
      cbn [app]; [now rewrite orb_true_r | now rewrite orb_false_r].
  - cbn [app svSetValue_loop filter existsb]. fold (has_key x).
    destruct (has_key x) eqn:Hx; cbn [negb].
    + destruct last; rewrite IH by assumption; cbn [app];
        rewrite <- ?app_assoc, ?orb_true_r, ?orb_true_l; reflexivity.
    + rewrite IH by assumption. rewrite <- !app_assoc. cbn [app orb].
      reflexivity.
Qed.

End RecordLoops.

(** ** Setting a value *)

Section SetValue.

Variable char_signed : bool.

Lemma opt_streq_eq a b : opt_streq a b = true <-> a = b.
Proof.
  destruct a as [x|], b as [y|]; cbn [opt_streq];
    try (split; congruence).
  rewrite nm_streq_eq. split; congruence.
Qed.

(** [line_set] leaves the encoding of the value in the record and the
    key without leading blanks. *)
Lemma line_set_record ln v :
  fst (line_set char_signed ln v)
  = {| line := Some (svEscape char_signed v); key := key ln;
       key_with_prefix := key ln |}.
Proof.
  unfold line_set. cbn [line key key_with_prefix].
  destruct (line ln) as [old|]; [|reflexivity].
  destruct (nm_streq (svEscape char_signed v) old) eqn:E; [|reflexivity].
  apply nm_streq_eq in E. now subst.
Qed.

Lemma line_set_changed ln v :
  snd (line_set char_signed ln v) = true
  <-> line ln <> Some (svEscape char_signed v)
      \/ key_with_prefix ln <> key ln.
Proof.
  unfold line_set. cbn [line key key_with_prefix].
  destruct (line ln) as [old|].
  - destruct (nm_streq (svEscape char_signed v) old) eqn:E; cbn [snd].
    + apply nm_streq_eq in E. subst old.
      rewrite negb_true_iff.
      destruct (opt_streq (key ln) (key_with_prefix ln)) eqn:K.
      * apply opt_streq_eq in K. intuition congruence.
      * split; [intros _; right; intros H | reflexivity].
        rewrite H in K.
        assert (opt_streq (key ln) (key ln) = true) by now apply opt_streq_eq.
        congruence.
    + split; [intros _; left; intros H | reflexivity].
      injection H as ->. rewrite nm_streq_refl in E. discriminate.
  - cbn [snd]. split; [intros _; left; discriminate | reflexivity].
Qed.

Lemma svSetValue_absent s k value :
  existsb (fun ln => line_has_key ln k) (lineList s) = false ->
  svSetValue char_signed s k value
  = match value with
    | None =>
        {| fileName := fileName s; fd := fd s; lineList := lineList s;
           modified := modified s |}
    | Some v =>
        {| fileName := fileName s; fd := fd s;
           lineList := lineList s ++ [line_new_build char_signed k v];
           modified := true |}
    end.
Proof.
  intros H. unfold svSetValue.
  rewrite svSetValue_loop_none by assumption. cbn [app].
  destruct value; reflexivity.
Qed.

Lemma svSetValue_present s k value A ln B :
  lineList s = A ++ ln :: B ->
  line_has_key ln k = true ->
  existsb (fun x => line_has_key x k) B = false ->
  svSetValue char_signed s k value
  = let A' := filter (fun x => negb (line_has_key x k)) A in
    let dropped := modified s || existsb (fun x => line_has_key x k) A in
    match value with
    | None =>
        {| fileName := fileName s; fd := fd s;
           lineList := A' ++ {| line := None; key := key ln;
                                key_with_prefix := key_with_prefix ln |} :: B;
           modified := match line ln with
                       | Some _ => true
                       | None => dropped
                       end |}
    | Some v =>
        {| fileName := fileName s; fd := fd s;
           lineList := A' ++ {| line := Some (svEscape char_signed v);
                                key := key ln;
                                key_with_prefix := key ln |} :: B;
           modified := if snd (line_set char_signed ln v) then true
                       else dropped |}
    end.
Proof.
  intros Hl Hln HB. unfold svSetValue. rewrite Hl.
  rewrite svSetValue_loop_split by assumption.
  cbn [app]. rewrite orb_false_r.
  destruct value as [v|]; [|reflexivity].
  rewrite <- line_set_record.
  destruct (line_set char_signed ln v) as [ln' changed]. reflexivity.
Qed.

Lemma filter_key_none k l :
  existsb (fun x => line_has_key x k) l = false ->
  filter (fun x => line_has_key x k) l = [].
Proof.
  induction l as [|x l IH]; intros H; [reflexivity|].
  cbn [existsb] in H. apply orb_false_iff in H. destruct H as [Hx Hl].
  cbn [filter]. rewrite Hx. now apply IH.
Qed.

Lemma existsb_filter_negb k l :
  existsb (fun x => line_has_key x k)
    (filter (fun x => negb (line_has_key x k)) l) = false.
Proof.
  induction l as [|x l IH]; [reflexivity|]. cbn [filter].
  destruct (line_has_key x k) eqn:E; cbn [negb existsb]; [exact IH|].
  now rewrite E, IH.
Qed.

(** After [svSetValue] at most one record has the key: the one it set. *)
Lemma svSetValue_records_of_key s k value :
  filter (fun x => line_has_key x k)
    (lineList (svSetValue char_signed s k value))
  = match value with
    | Some v =>
        [{| line := Some (svEscape char_signed v); key := Some k;
            key_with_prefix := Some k |}]
    | None =>
        match find (fun x => line_has_key x k) (rev (lineList s)) with
        | Some ln => [{| line := None; key := Some k;
                         key_with_prefix := key_with_prefix ln |}]
        | None => []
        end
    end.
Proof.
  rewrite <- _svGetValue_last_rev.
  destruct (last_key_split k (lineList s))
    as [Hno | (A & ln & B & Hl & Hln & HB)].
  - rewrite svSetValue_absent by assumption.
    rewrite _svGetValue_last_none by assumption.
    destruct value as [v|]; cbn [lineList].
    + rewrite filter_app, filter_key_none by assumption.
      cbn [app filter line_new_build line_has_key key].
      now rewrite nm_streq_refl.
    + now apply filter_key_none.
  - rewrite (svSetValue_present s k value A ln B) by assumption.
    rewrite Hl, _svGetValue_last_split by assumption.
    pose proof (line_has_key_key k ln Hln) as Hk.
    cbv zeta.
    destruct value as [v|]; cbn [lineList]; rewrite filter_app;
      rewrite (filter_key_none k (filter _ A)) by apply existsb_filter_negb;
      cbn [app filter]; rewrite Hk; unfold line_has_key at 1;
      cbn [key]; rewrite nm_streq_refl;
      now rewrite filter_key_none by assumption.
Qed.

End SetValue.

(** ** Writing a modified document *)

Lemma svSetValue_fd (char_signed : bool) (s : shvarFile) (k : list Z)
    (value : option (list Z)) :
  fd (svSetValue char_signed s k value) = fd s.
Proof.
  destruct (last_key_split k (lineList s))
    as [Hno | (A & ln & B & Hl & Hln & HB)].
  - rewrite svSetValue_absent by assumption. now destruct value.
  - rewrite (svSetValue_present char_signed s k value A ln B) by assumption.
    now destruct value.
Qed.

Lemma write_ready_svSetValue (char_signed : bool) (s : shvarFile)
    (k : list Z) (value : option (list Z)) (w : world) :
  write_ready s w -> write_ready (svSetValue char_signed s k value) w.
Proof. unfold write_ready. now rewrite svSetValue_fd. Qed.

(** A modified document, in a file system where the write goes through:
    the call succeeds and the file holds what the records print. *)
Lemma svWriteFile_ready (s : shvarFile) (mode : Z) (w : world) :
  modified s = true -> write_ready s w ->
  exists s' w',
    svWriteFile s mode w = Some (true, s', w')
    /\ w_disk w' = svWriteFile_lines (lineList s)
    /\ lineList s' = lineList s.
Proof.
  intros Hm (Hfd & Ht & Hd & Hf & Hl). unfold svWriteFile, open_wronly_creat.
  rewrite Hm.
  destruct s as [fn f ll m], w as [a d r c t du fo lim tr].
  cbn [fileName fd lineList modified w_access w_disk w_read_ok w_create_ok
       w_ftruncate_ok w_dup_ok w_fdopen_ok w_write_limit w_trace] in *.
  subst t du fo lim.
  destruct (f =? -1) eqn:Ef.
  - apply Z.eqb_eq in Ef. subst f.
    destruct Hfd as [Hfd | [-> | [-> ->]]]; [contradiction | |];
      cbn; eexists; eexists; repeat split.
  - cbn. rewrite Ef. cbn. eexists; eexists; repeat split.
Qed.

Lemma svWriteFile_lines_app l1 l2 :
  svWriteFile_lines (l1 ++ l2) = svWriteFile_lines l1 ++ svWriteFile_lines l2.
Proof. apply flat_map_app. Qed.

(** The same, with the bytes of one record set apart. *)
Lemma svWriteFile_ready_at (s : shvarFile) (mode : Z) (w : world)
    (A B : list shvarLine) (ln : shvarLine) :
  lineList s = A ++ ln :: B ->
  modified s = true -> write_ready s w ->
  exists s' w',
    svWriteFile s mode w = Some (true, s', w')
    /\ w_disk w'
       = svWriteFile_lines A ++ svWriteFile_line ln ++ svWriteFile_lines B.
Proof.
  intros Hl Hm Hw.
  destruct (svWriteFile_ready s mode w Hm Hw) as (s' & w' & E & Hd & _).
  exists s', w'. split; [exact E|].
  rewrite Hd, Hl, svWriteFile_lines_app. reflexivity.
Qed.

(** * The claims *)

(** ** Escape codec *)

(** C1. Round trip: for every byte string [v] that holds no newline,
    decoding the encoding of [v] succeeds and returns exactly [v]; this
    holds whether [char] is signed or not. *)
Theorem svUnescape_svEscape_roundtrip (char_signed : bool) (v : list Z) :
  is_cstr v -> ~ In 10 v ->
  svUnescape (svEscape char_signed v) = Some v.
Proof. intros Hv _. now apply svUnescape_svEscape. Qed.

Lemma svUnescape_svEscape_roundtrip_witness :
  let v := bytes "it's a $HOME \ ~" ++ [34; 1; 9; 127; 200] in
  is_cstr v /\ ~ In 10 v
  /\ svUnescape (svEscape true v) = Some v
  /\ svUnescape (svEscape false v) = Some v.
Proof.
  assert (Hc : is_cstr (bytes "it's a $HOME \ ~" ++ [34; 1; 9; 127; 200]))
    by (apply is_cstrb_spec; reflexivity).
  assert (Hn : ~ In 10 (bytes "it's a $HOME \ ~" ++ [34; 1; 9; 127; 200]))
    by (apply NM_IN_SET_false; reflexivity).
  split; [exact Hc|]. split; [exact Hn|]. split.
  - exact (svUnescape_svEscape_roundtrip true _ Hc Hn).
  - exact (svUnescape_svEscape_roundtrip false _ Hc Hn).
Defined.

(** The three forms of [svEscape] by content, for either signedness of
    [char]. *)
Lemma svEscape_forms (char_signed : bool) (v : list Z) :
  is_cstr v ->
  (Exists (ansic_byte char_signed) v ->
   svEscape char_signed v = _escape_ansic char_signed v)
  /\ (~ Exists (ansic_byte char_signed) v -> ~ Exists special_byte v ->
      svEscape char_signed v = v)
  /\ (~ Exists (ansic_byte char_signed) v -> Exists special_byte v ->
      svEscape char_signed v = [34] ++ flat_map svEscape_char v ++ [34])
  /\ (ansic_form (svEscape char_signed v) <-> Exists (ansic_byte char_signed) v).
Proof.
  intros Hv.
  assert (Ha : existsb (forces_ansic char_signed) v = true
               <-> Exists (ansic_byte char_signed) v).
  { rewrite existsb_exists, Exists_exists.
    unfold is_cstr in Hv. rewrite Forall_forall in Hv.
    split; intros [c [Hin Hc]]; exists c; (split; [assumption|]);
      apply (forces_ansic_byte char_signed c (Hv c Hin)); exact Hc. }
  assert (Hs : existsb _char_req_escape v || existsb _char_req_quotes v = true
               <-> Exists special_byte v).
  { rewrite orb_true_iff, !existsb_exists, Exists_exists. unfold special_byte.
    split.
    - intros [[c [Hin Hc]] | [c [Hin Hc]]]; exists c; auto.
    - intros [c [Hin [Hc | Hc]]]; [left | right]; exists c; auto. }
  rewrite svEscape_spec.
  destruct (existsb (forces_ansic char_signed) v) eqn:Hf.
  - assert (He : Exists (ansic_byte char_signed) v) by now apply Ha.
    split; [reflexivity|]. split; [tauto|]. split; [tauto|].
    split; [intros _; exact He|]. intros _.
    exists (flat_map (_escape_ansic_char char_signed) v ++ [39]). reflexivity.
  - assert (He : ~ Exists (ansic_byte char_signed) v).
    { intros H. apply Ha in H. discriminate. }
    rewrite <- negb_orb.
    destruct (existsb _char_req_escape v || existsb _char_req_quotes v) eqn:Hq;
      cbn [negb].
    + assert (Exists special_byte v) by now apply Hs.
      split; [tauto|]. split; [tauto|]. split; [reflexivity|].
      split; [|tauto]. intros [body Hb]. discriminate.
    + assert (Hn : ~ Exists special_byte v).
      { intros H. apply Hs in H. discriminate. }
      split; [tauto|]. split; [reflexivity|]. split; [tauto|].
      split; [|tauto].
      intros [body Hb]. subst v. exfalso. apply Hn.
      apply Exists_cons_hd. left. reflexivity.
Qed.

Lemma ansic_byte_control (char_signed : bool) (v : list Z) :
  char_signed = false \/ Forall (fun c => c < 128) v ->
  Exists (ansic_byte char_signed) v <-> Exists control_byte v.
Proof.
  intros H. rewrite !Exists_exists. unfold ansic_byte, control_byte.
  split; intros (c & Hin & Hc); exists c; (split; [assumption|]).
  - destruct Hc as [Hc | [Hs Hc]]; [exact Hc|].
    destruct H as [H | H]; [congruence|].
    rewrite Forall_forall in H. specialize (H c Hin). lia.
  - now left.
Qed.

(** C2, as amended.  [svEscape] chooses among three forms by content.  For
    a value of bytes below 0x80, and for any value where [char] is unsigned:
    the ANSI-C form is used exactly when the value holds a control byte
    other than the tab (a byte from 0x01 to 0x1F that is not 0x09; the tab
    requires quotes and no more); otherwise the value is returned as it is
    when it holds no escape-requiring and no quote-requiring byte, and is
    wrapped in double quotes, each escape-requiring byte behind a
    backslash, when it holds one.  So bytes from 0x20 to 0x7F never force
    the ANSI-C form, nor do bytes from 0x80 on where [char] is unsigned. *)
Theorem svEscape_three_forms (char_signed : bool) (v : list Z) :
  is_cstr v ->
  char_signed = false \/ Forall (fun c => c < 128) v ->
  (Exists control_byte v ->
   svEscape char_signed v = _escape_ansic char_signed v)
  /\ (~ Exists control_byte v -> ~ Exists special_byte v ->
      svEscape char_signed v = v)
  /\ (~ Exists control_byte v -> Exists special_byte v ->
      svEscape char_signed v = [34] ++ flat_map svEscape_char v ++ [34])
  /\ (ansic_form (svEscape char_signed v) <-> Exists control_byte v).
Proof.
  intros Hv Hb.
  destruct (svEscape_forms char_signed v Hv) as (H1 & H2 & H3 & H4).
  destruct (ansic_byte_control char_signed v Hb) as [E1 E2].
  split; [intros H; apply H1, E2, H|].
  split; [intros H Hn; apply H2; [intros X; apply H, E1, X | exact Hn]|].
  split; [intros H Hs; apply H3; [intros X; apply H, E1, X | exact Hs]|].
  split.
  - intros H. apply E1, H4, H.
  - intros H. apply H4, E2, H.
Qed.

Lemma svEscape_three_forms_witness :
  svEscape true (bytes "a" ++ [1]) = bytes "$'a\001'"
  /\ svEscape true (bytes "abc") = bytes "abc"
  /\ svEscape false (bytes "a b$" ++ [200]) = [34] ++ bytes "a b\$" ++ [200; 34].
Proof.
  split; [|split].
  - apply (svEscape_three_forms true (bytes "a" ++ [1])).
    + apply is_cstrb_spec. reflexivity.
    + right. repeat constructor.
    + apply Exists_cons_tl, Exists_cons_hd. split; lia.
  - apply (svEscape_three_forms true (bytes "abc")).
    + apply is_cstrb_spec. reflexivity.
    + right. repeat constructor.
    + intros H. apply Exists_exists in H. destruct H as [c [Hin Hc]].
      unfold control_byte in Hc. cbn in Hin. lia.
    + intros H. apply Exists_exists in H. destruct H as [c [Hin Hc]].
      cbn in Hin. unfold special_byte, _char_req_escape, _char_req_quotes in Hc.
      rewrite !NM_IN_SET_true in Hc. cbn in Hc. lia.
  - apply (svEscape_three_forms false (bytes "a b$" ++ [200])).
    + apply is_cstrb_spec. reflexivity.
    + left. reflexivity.
    + intros H. apply Exists_exists in H. destruct H as [c [Hin Hc]].
      unfold control_byte in Hc. cbn in Hin. lia.
    + apply Exists_cons_tl, Exists_cons_hd. right. reflexivity.
Defined.

(** C2 as stated fails on the tab: it is a byte below 0x20, yet the value
    is wrapped in double quotes, not put in the ANSI-C form, whatever the
    signedness of [char].  It also fails where [char] is signed on a byte
    above 0x7F, which compares below the space: the value is put in the
    ANSI-C form although it holds no byte below 0x20. *)
Lemma svEscape_tab_counterexample :
  (is_cstr [9] /\ Exists (fun c => c < 32) [9]
   /\ svEscape true [9] = [34; 9; 34]
   /\ svEscape false [9] = [34; 9; 34]
   /\ ~ ansic_form (svEscape true [9])
   /\ ~ ansic_form (svEscape false [9]))
  /\ (is_cstr [99; 195; 169] /\ Forall (fun c => 32 <= c) [99; 195; 169]
      /\ svEscape true [99; 195; 169] = bytes "$'c\703\651'"
      /\ ansic_form (svEscape true [99; 195; 169])).
Proof.
  split.
  - split; [apply is_cstrb_spec; reflexivity|].
    split; [apply Exists_cons_hd; lia|].
    split; [reflexivity|]. split; [reflexivity|].
    split; intros [body H]; discriminate.
  - split; [apply is_cstrb_spec; reflexivity|].
    split; [repeat constructor; lia|].
    split; [reflexivity|].
    exists (bytes "c\703\651'"). reflexivity.
Qed.

(** Where [char] is unsigned the same bytes go through as they are. *)
Example svEscape_high_byte_unsigned :
  svEscape false [99; 195; 169] = [99; 195; 169].
Proof. reflexivity. Qed.

(** ** Reading a value *)

(** C3, as amended.  [svGetValueString] looks at the last record, in
    document order, whose key is exactly [k].  It returns nothing when there
    is none, when that record has no value, when the stored text fails to
    decode, and also when it decodes to the empty string; otherwise it
    returns the decoded value.  So a stored text is returned decoded exactly
    when it decodes to a string that is not empty, and the caller cannot
    tell the other cases apart. *)
Theorem svGetValueString_last_record (s : shvarFile) (k : list Z) :
  svGetValueString s k
  = match find (fun ln => line_has_key ln k) (rev (lineList s)) with
    | None => None
    | Some ln =>
        match line ln with
        | None => None
        | Some text =>
            match svUnescape text with
            | None => None
            | Some [] => None
            | Some (c :: v) => Some (c :: v)
            end
        end
    end.
Proof.
  unfold svGetValueString, _svGetValue. rewrite _svGetValue_last_rev.
  destruct (find _ (rev (lineList s))) as [ln|]; [|reflexivity].
  destruct (line ln) as [text|]; reflexivity.
Qed.

(** C3 as stated fails on a line whose value is a pair of double quotes: the
    stored text is not empty and decodes, to the empty string, and nothing
    is returned. *)
Lemma svGetValueString_empty_decoded_counterexample :
  let text := [34; 34] in
  let s := {| fileName := bytes "ifcfg-eth0"; fd := -1;
              lineList := parse_arena (bytes "FOO=" ++ text ++ [10]);
              modified := false |} in
  lineList s = [{| line := Some text; key := Some (bytes "FOO");
                   key_with_prefix := Some (bytes "FOO") |}]
  /\ text <> []
  /\ svUnescape text = Some []
  /\ svGetValueString s (bytes "FOO") = None.
Proof.
  split; [reflexivity|]. split; [discriminate|].
  split; reflexivity.
Qed.

(** ** Setting and unsetting *)

Lemma filter_negb_key_none k l :
  existsb (fun x => line_has_key x k) l = false ->
  filter (fun x => negb (line_has_key x k)) l = l.
Proof.
  induction l as [|x l IH]; intros H; [reflexivity|].
  cbn [existsb] in H. apply orb_false_iff in H. destruct H as [Hx Hl].
  cbn [filter]. rewrite Hx. cbn [negb]. now rewrite IH.
Qed.

(** What the records print after the key was unset, and after it was set
    to the empty string. *)
Lemma svSetValue_empty_lines
    (char_signed : bool) (s : shvarFile) (k : list Z) :
  let others := filter (fun ln => negb (line_has_key ln k)) (lineList s) in
  svWriteFile_lines (lineList (svUnsetValue char_signed s k))
  = svWriteFile_lines others
  /\ svSetValueString char_signed s k (Some []) = svUnsetValue char_signed s k
  /\ exists before after,
       others = before ++ after
       /\ svWriteFile_lines (lineList (svSetValue char_signed s k (Some [])))
          = svWriteFile_lines before ++ (k ++ [61; 10])
            ++ svWriteFile_lines after.
Proof.
  cbv zeta. split; [|split; [reflexivity|]].
  - unfold svUnsetValue.
    destruct (last_key_split k (lineList s))
      as [Hno | (A & ln & B & Hl & Hln & HB)].
    + rewrite svSetValue_absent by assumption. cbn [lineList].
      now rewrite filter_negb_key_none.
    + rewrite (svSetValue_present char_signed s k None A ln B) by assumption.
      cbv zeta. cbn [lineList]. rewrite Hl.
      rewrite filter_app. cbn [filter]. rewrite Hln. cbn [negb].
      rewrite (filter_negb_key_none k B) by assumption.
      rewrite !svWriteFile_lines_app. f_equal.
      unfold svWriteFile_lines at 1. cbn [flat_map].
      unfold svWriteFile_line at 1. cbn [key line].
      rewrite (line_has_key_key k ln Hln). reflexivity.
  - destruct (last_key_split k (lineList s))
      as [Hno | (A & ln & B & Hl & Hln & HB)].
    + rewrite svSetValue_absent by assumption. cbn [lineList].
      exists (lineList s), []. rewrite app_nil_r.
      split; [now rewrite filter_negb_key_none|].
      rewrite svWriteFile_lines_app. reflexivity.
    + rewrite (svSetValue_present char_signed s k (Some []) A ln B)
        by assumption.
      cbv zeta. cbn [lineList]. rewrite Hl.
      exists (filter (fun x => negb (line_has_key x k)) A), B. split.
      * rewrite filter_app. cbn [filter]. rewrite Hln. cbn [negb].
        now rewrite (filter_negb_key_none k B).
      * rewrite svWriteFile_lines_app. f_equal.
        unfold svWriteFile_lines at 1. cbn [flat_map]. f_equal.
        unfold svWriteFile_line. cbn [key line key_with_prefix].
        rewrite (line_has_key_key k ln Hln). reflexivity.
Qed.

Lemma opt_str_eq_dec (a b : option (list Z)) : a = b \/ a <> b.
Proof.
  destruct (opt_streq a b) eqn:E.
  - left. now apply opt_streq_eq.
  - right. intros H. apply opt_streq_eq in H. congruence.
Qed.

(** A call of [svSetValue] that leaves the document unmarked changed
    nothing. *)
Lemma svSetValue_unflagged (char_signed : bool) (s : shvarFile) (k : list Z)
    (value : option (list Z)) :
  modified (svSetValue char_signed s k value) = false ->
  svSetValue char_signed s k value = s.
Proof.
  destruct (last_key_split k (lineList s))
    as [Hno | (A & ln & B & Hl & Hln & HB)].
  - rewrite svSetValue_absent by assumption.
    destruct value as [v|]; cbn [modified]; try discriminate.
    intros _. now destruct s.
  - rewrite (svSetValue_present char_signed s k value A ln B) by assumption.
    cbv zeta. destruct value as [v|]; cbn [modified].
    + intros H.
      destruct (snd (line_set char_signed ln v)) eqn:E; [discriminate|].
      apply orb_false_iff in H. destruct H as [Hm HA].
      rewrite (filter_negb_key_none k A) by assumption.
      assert (Hl1 : line ln = Some (svEscape char_signed v)).
      { destruct (opt_str_eq_dec (line ln)
                    (Some (svEscape char_signed v))) as [e|n]; [exact e|].
        assert (snd (line_set char_signed ln v) = true)
          by (apply line_set_changed; now left).
        congruence. }
      assert (Hl2 : key_with_prefix ln = key ln).
      { destruct (opt_str_eq_dec (key_with_prefix ln) (key ln))
          as [e|n]; [exact e|].
        assert (snd (line_set char_signed ln v) = true)
          by (apply line_set_changed; now right).
        congruence. }
      destruct s as [fn f ll m], ln as [l0 k0 kp0].
      cbn [line key key_with_prefix lineList fileName fd modified] in *.
      subst ll l0 kp0 m. rewrite ?E, ?HA. reflexivity.
    + intros H. destruct (line ln) as [old|] eqn:Hold; [discriminate|].
      apply orb_false_iff in H. destruct H as [Hm HA].
      rewrite (filter_negb_key_none k A) by assumption.
      destruct s as [fn f ll m], ln as [l0 k0 kp0].
      cbn [line key key_with_prefix lineList fileName fd modified] in *.
      subst ll l0 m. rewrite ?HA. reflexivity.
Qed.

(** C4.  On a document whose last record of the key holds a value,
    [svUnsetValue], which [svSetValueString] with the empty string is,
    marks the document modified, and [svWriteFile] then leaves in the file
    what the records of the other keys print and nothing else: no line for
    the key.  After [svSetValue] with the empty string the records print
    the line made of the key and an equal sign, where the last record of
    the key stood among the lines of the other records; the document is
    marked modified when the stored value was not empty, and whenever it
    is marked [svWriteFile] leaves exactly these bytes in the file.  Only
    when nothing had to change (the stored value was empty already) is the
    document left unmarked, and [svWriteFile] then leaves the file as it
    is.  The file system is one where the write goes through. *)
Theorem svUnsetValue_omits_svSetValue_empty_keeps
    (char_signed : bool) (s : shvarFile) (k : list Z) (mode : Z) (w : world)
    (A B : list shvarLine) (ln : shvarLine) (text : list Z) :
  lineList s = A ++ ln :: B ->
  line_has_key ln k = true ->
  existsb (fun x => line_has_key x k) B = false ->
  line ln = Some text ->
  write_ready s w ->
  let others := filter (fun x => negb (line_has_key x k)) (lineList s) in
  let before := filter (fun x => negb (line_has_key x k)) A in
  let kept := svSetValue char_signed s k (Some []) in
  svSetValueString char_signed s k (Some []) = svUnsetValue char_signed s k
  /\ others = before ++ B
  /\ existsb (fun x => line_has_key x k) others = false
  /\ modified (svUnsetValue char_signed s k) = true
  /\ (exists s' w',
        svWriteFile (svUnsetValue char_signed s k) mode w
        = Some (true, s', w')
        /\ w_disk w' = svWriteFile_lines others)
  /\ svWriteFile_lines (lineList kept)
     = svWriteFile_lines before ++ (k ++ [61; 10]) ++ svWriteFile_lines B
  /\ (text <> [] -> modified kept = true)
  /\ (modified kept = true ->
      exists s' w',
        svWriteFile kept mode w = Some (true, s', w')
        /\ w_disk w'
           = svWriteFile_lines before ++ (k ++ [61; 10])
             ++ svWriteFile_lines B)
  /\ (modified kept = false ->
      text = [] /\ kept = s /\ svWriteFile kept mode w = Some (true, s, w)).
Proof.
  intros Hl Hln HB Hline Hw. cbv zeta.
  assert (Ho : filter (fun x => negb (line_has_key x k)) (lineList s)
               = filter (fun x => negb (line_has_key x k)) A ++ B).
  { rewrite Hl, filter_app. cbn [filter]. rewrite Hln. cbn [negb].
    now rewrite (filter_negb_key_none k B). }
  pose proof (line_has_key_key k ln Hln) as Hk.
  assert (Hmu : modified (svUnsetValue char_signed s k) = true).
  { unfold svUnsetValue.
    rewrite (svSetValue_present char_signed s k None A ln B) by assumption.
    cbv zeta. cbn [modified]. now rewrite Hline. }
  assert (Hout : svWriteFile_lines
                   (lineList (svSetValue char_signed s k (Some [])))
                 = svWriteFile_lines
                     (filter (fun x => negb (line_has_key x k)) A)
                   ++ (k ++ [61; 10]) ++ svWriteFile_lines B).
  { rewrite (svSetValue_present char_signed s k (Some []) A ln B)
      by assumption.
    cbv zeta. cbn [lineList].
    rewrite svWriteFile_lines_app. f_equal.
    unfold svWriteFile_lines at 1. cbn [flat_map]. f_equal.
    unfold svWriteFile_line. cbn [key line key_with_prefix].
    rewrite Hk. reflexivity. }
  assert (Hms : text <> [] ->
                modified (svSetValue char_signed s k (Some [])) = true).
  { intros Hne.
    rewrite (svSetValue_present char_signed s k (Some []) A ln B)
      by assumption.
    cbv zeta. cbn [modified].
    assert (Hc : snd (line_set char_signed ln []) = true).
    { apply line_set_changed. left. rewrite Hline.
      intros H. injection H as H. now apply Hne. }
    now rewrite Hc. }
  split; [reflexivity|]. split; [exact Ho|].
  split; [apply existsb_filter_negb|].
  split; [exact Hmu|].
  split; [|split; [exact Hout|split; [exact Hms|split]]].
  - destruct (svWriteFile_ready (svUnsetValue char_signed s k) mode w Hmu
                (write_ready_svSetValue char_signed s k None w Hw))
      as (s' & w' & E & Hd & _).
    exists s', w'. split; [exact E|]. rewrite Hd, Ho.
    unfold svUnsetValue.
    rewrite (svSetValue_present char_signed s k None A ln B) by assumption.
    cbv zeta. cbn [lineList].
    rewrite !svWriteFile_lines_app. f_equal.
    unfold svWriteFile_lines at 1. cbn [flat_map].
    unfold svWriteFile_line at 1. cbn [key line]. now rewrite Hk.
  - intros Hm.
    destruct (svWriteFile_ready (svSetValue char_signed s k (Some [])) mode w
                Hm (write_ready_svSetValue char_signed s k (Some []) w Hw))
      as (s' & w' & E & Hd & _).
    exists s', w'. split; [exact E|]. now rewrite Hd.
  - intros Hm. split.
    + destruct text as [|c text]; [reflexivity|].
      rewrite Hms in Hm by discriminate. discriminate.
    + pose proof (svSetValue_unflagged char_signed s k (Some []) Hm) as Hs.
      split; [exact Hs|].
      rewrite Hs in Hm |- *. unfold svWriteFile. now rewrite Hm.
Qed.

Lemma svUnsetValue_omits_svSetValue_empty_keeps_witness :
  let w := {| w_access := ReadWrite; w_disk := bytes "A=1" ++ [10]
                                               ++ bytes "FOO=bar" ++ [10];
              w_read_ok := true; w_create_ok := true;
              w_ftruncate_ok := true; w_dup_ok := true; w_fdopen_ok := true;
              w_write_limit := None;
              w_trace := [] |} in
  let s := {| fileName := bytes "ifcfg-eth0"; fd := 3;
              lineList := parse_arena (w_disk w); modified := false |} in
  (exists s' w',
     svWriteFile (svUnsetValue true s (bytes "FOO")) 420 w
     = Some (true, s', w')
     /\ w_disk w' = bytes "A=1" ++ [10])
  /\ (exists s' w',
        svWriteFile (svSetValue true s (bytes "FOO") (Some [])) 420 w
        = Some (true, s', w')
        /\ w_disk w' = bytes "A=1" ++ [10] ++ bytes "FOO=" ++ [10]).
Proof.
  cbv zeta.
  pose (w := {| w_access := ReadWrite; w_disk := bytes "A=1" ++ [10]
                                                 ++ bytes "FOO=bar" ++ [10];
                w_read_ok := true; w_create_ok := true;
                w_ftruncate_ok := true; w_dup_ok := true; w_fdopen_ok := true;
                w_write_limit := None; w_trace := [] |}).
  pose (s := {| fileName := bytes "ifcfg-eth0"; fd := 3;
                lineList := parse_arena (w_disk w); modified := false |}).
  assert (Hw : write_ready s w).
  { split; [left; discriminate|]. repeat split. }
  pose proof (svUnsetValue_omits_svSetValue_empty_keeps true s (bytes "FOO")
                420 w
                [{| line := Some (bytes "1"); key := Some (bytes "A");
                    key_with_prefix := Some (bytes "A") |}] []
                {| line := Some (bytes "bar"); key := Some (bytes "FOO");
                   key_with_prefix := Some (bytes "FOO") |}
                (bytes "bar") eq_refl eq_refl eq_refl eq_refl Hw) as H.
  cbv zeta in H. destruct H as (_ & _ & _ & _ & Hu & _ & Hm & Hs & _).
  assert (Hne : bytes "bar" <> []) by discriminate.
  specialize (Hs (Hm Hne)). fold w s. split.
  - destruct Hu as (s' & w' & E & Hd). exists s', w'. split; [exact E|].
    rewrite Hd. reflexivity.
  - destruct Hs as (s' & w' & E & Hd).
    exists s', w'. split; [exact E|]. rewrite Hd. reflexivity.
Defined.

(** The same on the file of the examples: a file holding the line
    [FOO=bar] is written back empty after the key is unset, and with the
    line [FOO=] after the key is set to the empty string. *)
Example svUnsetValue_file :
  let w := {| w_access := ReadWrite; w_disk := bytes "FOO=bar" ++ [10];
              w_read_ok := true; w_create_ok := true;
              w_ftruncate_ok := true; w_dup_ok := true; w_fdopen_ok := true;
              w_write_limit := None;
              w_trace := [] |} in
  match svCreateFile (bytes "ifcfg-eth0") w with
  | None => False
  | Some s =>
      disk_of (svWriteFile (svUnsetValue true s (bytes "FOO")) 420 w)
      = Some []
      /\ disk_of (svWriteFile (svSetValue true s (bytes "FOO") (Some []))
                    420 w)
         = Some (bytes "FOO=" ++ [10])
  end.
Proof. cbn. split; reflexivity. Qed.

(** Where the file holds the line [FOO=] already, setting the key to the
    empty string changes nothing and the write-back makes no system call:
    the line stays in the file. *)
Example svSetValue_empty_already :
  let w := {| w_access := ReadWrite; w_disk := bytes "FOO=" ++ [10];
              w_read_ok := true; w_create_ok := true;
              w_ftruncate_ok := true; w_dup_ok := true; w_fdopen_ok := true;
              w_write_limit := None; w_trace := [] |} in
  match svCreateFile (bytes "ifcfg-eth0") w with
  | None => False
  | Some s =>
      svSetValue true s (bytes "FOO") (Some []) = s
      /\ svWriteFile (svSetValue true s (bytes "FOO") (Some [])) 420 w
         = Some (true, s, w)
  end.
Proof. cbn. split; reflexivity. Qed.

(** C5, as amended.  In a document with exactly one record [ln] of key [k],
    [svSetValue] with a value [v] leaves in that record the encoding of [v]
    and the key without leading blanks, and touches no other record.  The
    document is marked modified if and only if the encoding differs from
    the stored text or the key of the record had leading blanks; when the
    encoding is the stored text and the key had no leading blanks, the
    document is left as it was. *)
Theorem svSetValue_single_record
    (char_signed : bool) (s : shvarFile) (k v : list Z)
    (A B : list shvarLine) (ln : shvarLine) :
  lineList s = A ++ ln :: B ->
  line_has_key ln k = true ->
  existsb (fun x => line_has_key x k) A = false ->
  existsb (fun x => line_has_key x k) B = false ->
  let s' := svSetValue char_signed s k (Some v) in
  lineList s'
  = A ++ {| line := Some (svEscape char_signed v); key := key ln;
            key_with_prefix := key ln |} :: B
  /\ (modified s' = true
      <-> modified s = true
          \/ line ln <> Some (svEscape char_signed v)
          \/ key_with_prefix ln <> key ln)
  /\ (line ln = Some (svEscape char_signed v) ->
      key_with_prefix ln = key ln -> s' = s).
Proof.
  intros Hl Hln HA HB. cbv zeta.
  rewrite (svSetValue_present char_signed s k (Some v) A ln B) by assumption.
  cbv zeta. cbn [lineList modified].
  rewrite (filter_negb_key_none k A) by assumption. rewrite HA, orb_false_r.
  pose proof (line_set_changed char_signed ln v) as Hc.
  split; [reflexivity|]. split.
  - destruct (snd (line_set char_signed ln v)).
    + split; [intros _; right; now apply Hc | reflexivity].
    + split; [now left|]. intros [H | H]; [exact H|].
      apply Hc in H. discriminate.
  - intros H1 H2.
    destruct (snd (line_set char_signed ln v)).
    + destruct (proj1 Hc eq_refl) as [E | E]; congruence.
    + destruct s as [fn f ll m], ln as [l0 k0 kp0].
      cbn [line key key_with_prefix lineList fileName fd modified] in *.
      subst ll l0 kp0. reflexivity.
Qed.

Lemma svSetValue_single_record_witness :
  let s := {| fileName := bytes "ifcfg-eth0"; fd := -1;
              lineList := parse_arena (bytes "# eth0" ++ [10]
                                       ++ bytes "FOO=bar" ++ [10]
                                       ++ bytes "BAR=1" ++ [10]);
              modified := false |} in
  modified (svSetValue true s (bytes "FOO") (Some (bytes "bar"))) = false
  /\ modified (svSetValue true s (bytes "FOO") (Some (bytes "baz"))) = true.
Proof.
  cbv zeta.
  pose (s := {| fileName := bytes "ifcfg-eth0"; fd := -1;
                lineList := parse_arena (bytes "# eth0" ++ [10]
                                         ++ bytes "FOO=bar" ++ [10]
                                         ++ bytes "BAR=1" ++ [10]);
                modified := false |}).
  pose (A := [line_raw (bytes "# eth0")]).
  pose (ln := {| line := Some (bytes "bar"); key := Some (bytes "FOO");
                 key_with_prefix := Some (bytes "FOO") |}).
  pose (B := [{| line := Some (bytes "1"); key := Some (bytes "BAR");
                 key_with_prefix := Some (bytes "BAR") |}]).
  split.
  - pose proof (svSetValue_single_record true s (bytes "FOO") (bytes "bar")
                  A B ln eq_refl eq_refl eq_refl eq_refl) as H.
    cbv zeta in H. destruct H as (_ & _ & H).
    fold s. rewrite (H eq_refl eq_refl). reflexivity.
  - pose proof (svSetValue_single_record true s (bytes "FOO") (bytes "baz")
                  A B ln eq_refl eq_refl eq_refl eq_refl) as H.
    cbv zeta in H. destruct H as (_ & H & _).
    fold s. apply H. right. left. discriminate.
Defined.

(** C5 as stated fails on a line whose key has leading blanks: the
    encoding of the value is the stored text, yet the record changes (the
    blanks go) and the document is marked modified. *)
Lemma svSetValue_leading_blank_counterexample :
  let s := {| fileName := bytes "ifcfg-eth0"; fd := -1;
              lineList := parse_arena (bytes "  FOO=bar" ++ [10]);
              modified := false |} in
  let s' := svSetValue true s (bytes "FOO") (Some (bytes "bar")) in
  lineList s = [{| line := Some (bytes "bar"); key := Some (bytes "FOO");
                   key_with_prefix := Some (bytes "  FOO") |}]
  /\ svEscape true (bytes "bar") = bytes "bar"
  /\ lineList s' = [{| line := Some (bytes "bar"); key := Some (bytes "FOO");
                       key_with_prefix := Some (bytes "FOO") |}]
  /\ modified s' = true.
Proof. cbv zeta. split; [|split; [|split]]; reflexivity. Qed.

(** C6.  In a document with several records of key [k], [ln] being the last
    one, [svSetValue] deletes every record of that key but the last, which
    receives the encoding of the value, and marks the document modified.
    The write-back then prints one line for the key, the key, an equal sign
    and the encoding, where the last record stood; the records of other keys
    print what they printed before.  So [svWriteFile], in a file system
    where the write goes through, returns [TRUE] and leaves exactly these
    bytes in the file. *)
Theorem svSetValue_collapses_duplicates
    (char_signed : bool) (s : shvarFile) (k v : list Z)
    (A B : list shvarLine) (ln : shvarLine) :
  lineList s = A ++ ln :: B ->
  line_has_key ln k = true ->
  existsb (fun x => line_has_key x k) A = true ->
  existsb (fun x => line_has_key x k) B = false ->
  is_cstr v ->
  let s' := svSetValue char_signed s k (Some v) in
  let others := filter (fun x => negb (line_has_key x k)) A in
  let set := {| line := Some (svEscape char_signed v); key := Some k;
                key_with_prefix := Some k |} in
  lineList s' = others ++ set :: B
  /\ modified s' = true
  /\ filter (fun x => line_has_key x k) (lineList s') = [set]
  /\ svWriteFile_lines (lineList s')
     = svWriteFile_lines others
       ++ (k ++ [61] ++ svEscape char_signed v ++ [10])
       ++ svWriteFile_lines B
  /\ (forall (mode : Z) (w : world),
        write_ready s w ->
        exists s'' w',
          svWriteFile s' mode w = Some (true, s'', w')
          /\ w_disk w'
             = svWriteFile_lines others
               ++ (k ++ [61] ++ svEscape char_signed v ++ [10])
               ++ svWriteFile_lines B).
Proof.
  intros Hl Hln HA HB Hv. cbv zeta.
  assert (Hm : modified (svSetValue char_signed s k (Some v)) = true).
  { rewrite (svSetValue_present char_signed s k (Some v) A ln B)
      by assumption.
    cbv zeta. cbn [modified].
    rewrite HA, orb_true_r. now destruct (snd _). }
  assert (Hout : svWriteFile_lines
                   (lineList (svSetValue char_signed s k (Some v)))
                 = svWriteFile_lines
                     (filter (fun x => negb (line_has_key x k)) A)
                   ++ (k ++ [61] ++ svEscape char_signed v ++ [10])
                   ++ svWriteFile_lines B).
  { rewrite (svSetValue_present char_signed s k (Some v) A ln B)
      by assumption.
    cbv zeta. cbn [lineList].
    rewrite (line_has_key_key k ln Hln).
    rewrite svWriteFile_lines_app. f_equal.
    unfold svWriteFile_lines at 1. cbn [flat_map]. f_equal.
    unfold svWriteFile_line. cbn [key line key_with_prefix opt_str].
    now rewrite svUnescape_svEscape. }
  split; [|split; [exact Hm|split; [|split; [exact Hout|]]]].
  - rewrite (svSetValue_present char_signed s k (Some v) A ln B)
      by assumption.
    cbv zeta. cbn [lineList]. now rewrite (line_has_key_key k ln Hln).
  - now rewrite svSetValue_records_of_key.
  - intros mode w Hw.
    destruct (svWriteFile_ready (svSetValue char_signed s k (Some v)) mode w
                Hm (write_ready_svSetValue char_signed s k (Some v) w Hw))
      as (s'' & w' & E & Hd & _).
    exists s'', w'. split; [exact E|]. now rewrite Hd.
Qed.

Lemma svSetValue_collapses_duplicates_witness :
  let w := {| w_access := ReadWrite;
              w_disk := bytes "FOO=1" ++ [10] ++ bytes "FOO=2" ++ [10]
                        ++ bytes "FOO=3" ++ [10];
              w_read_ok := true; w_create_ok := true;
              w_ftruncate_ok := true; w_dup_ok := true; w_fdopen_ok := true;
              w_write_limit := None; w_trace := [] |} in
  let s := {| fileName := bytes "ifcfg-eth0"; fd := 3;
              lineList := parse_arena (w_disk w); modified := false |} in
  let s' := svSetValue true s (bytes "FOO") (Some (bytes "4")) in
  lineList s' = [{| line := Some (bytes "4"); key := Some (bytes "FOO");
                    key_with_prefix := Some (bytes "FOO") |}]
  /\ modified s' = true
  /\ svWriteFile_lines (lineList s') = bytes "FOO=4" ++ [10]
  /\ exists s'' w',
       svWriteFile s' 420 w = Some (true, s'', w')
       /\ w_disk w' = bytes "FOO=4" ++ [10].
Proof.
  cbv zeta.
  pose (w := {| w_access := ReadWrite;
                w_disk := bytes "FOO=1" ++ [10] ++ bytes "FOO=2" ++ [10]
                          ++ bytes "FOO=3" ++ [10];
                w_read_ok := true; w_create_ok := true;
                w_ftruncate_ok := true; w_dup_ok := true;
                w_fdopen_ok := true; w_write_limit := None;
                w_trace := [] |}).
  pose (s := {| fileName := bytes "ifcfg-eth0"; fd := 3;
                lineList := parse_arena (w_disk w); modified := false |}).
  pose (rec := fun t => {| line := Some (bytes t); key := Some (bytes "FOO");
                           key_with_prefix := Some (bytes "FOO") |}).
  assert (Hv : is_cstr (bytes "4")) by (apply is_cstrb_spec; reflexivity).
  assert (Hw : write_ready s w).
  { split; [left; discriminate|]. repeat split. }
  pose proof (svSetValue_collapses_duplicates true s (bytes "FOO") (bytes "4")
                [rec "1"%string; rec "2"%string] [] (rec "3"%string)
                eq_refl eq_refl eq_refl eq_refl Hv) as H.
  cbv zeta in H. destruct H as (H1 & H2 & _ & H4 & H5).
  fold w s. split; [exact H1|]. split; [exact H2|]. split; [exact H4|].
  destruct (H5 420 w Hw) as (s'' & w' & E & Hd).
  exists s'', w'. split; [exact E | exact Hd].
Defined.

(** The same through the file: the three lines are read, the key is set and
    the file is written back with the single line [FOO=4]. *)
Example svSetValue_collapses_file :
  let w := {| w_access := ReadWrite;
              w_disk := bytes "FOO=1" ++ [10] ++ bytes "FOO=2" ++ [10]
                        ++ bytes "FOO=3" ++ [10];
              w_read_ok := true; w_create_ok := true;
              w_ftruncate_ok := true; w_dup_ok := true; w_fdopen_ok := true;
              w_write_limit := None;
              w_trace := [] |} in
  match svCreateFile (bytes "ifcfg-eth0") w with
  | None => False
  | Some s =>
      match svWriteFile (svSetValue true s (bytes "FOO") (Some (bytes "4")))
              420 w with
      | Some (ok, _, w') => ok = true /\ w_disk w' = bytes "FOO=4" ++ [10]
      | None => False
      end
  end.
Proof. cbn. split; reflexivity. Qed.

(** ** Write-back *)

Lemma nm_str_skip_leading_spaces_blank text :
  Forall (fun c => g_ascii_isspace c = true) text ->
  nm_str_skip_leading_spaces text = [].
Proof.
  induction 1 as [|c text Hc _ IH]; [reflexivity|].
  cbn [nm_str_skip_leading_spaces]. now rewrite Hc.
Qed.

Lemma nm_str_skip_leading_spaces_app ws c rest :
  Forall (fun c => g_ascii_isspace c = true) ws ->
  g_ascii_isspace c = false ->
  nm_str_skip_leading_spaces (ws ++ c :: rest) = c :: rest.
Proof.
  intros Hws Hc. induction Hws as [|x ws Hx _ IH];
    cbn [app nm_str_skip_leading_spaces].
  - now rewrite Hc.
  - now rewrite Hx.
Qed.

Lemma nm_str_skip_leading_spaces_split text :
  exists ws,
    text = ws ++ nm_str_skip_leading_spaces text
    /\ Forall (fun c => g_ascii_isspace c = true) ws.
Proof.
  induction text as [|c text [ws [Heq Hws]]].
  - exists []. auto.
  - cbn [nm_str_skip_leading_spaces].
    destruct (g_ascii_isspace c) eqn:Hc.
    + exists (c :: ws). split; [cbn; now f_equal | now constructor].
    + exists []. auto.
Qed.

(** C7, as amended.  A record that is no assignment is printed as it is,
    followed by a newline, when its text is empty or blank or when its
    first byte that is not a blank is the hash sign; any other such record
    is printed behind the marker [#NM: ].  So [svWriteFile], on a modified
    document that holds the record and in a file system where the write
    goes through, returns [TRUE] and leaves these bytes in the file,
    between what the records before and the records after print. *)
Theorem svWriteFile_line_raw (text : list Z) :
  is_cstr text ->
  (blank_or_comment text ->
   svWriteFile_line (line_raw text) = text ++ [10])
  /\ (~ blank_or_comment text ->
      svWriteFile_line (line_raw text) = bytes "#NM: " ++ text ++ [10])
  /\ (forall (s : shvarFile) (mode : Z) (w : world) (A B : list shvarLine),
        lineList s = A ++ line_raw text :: B ->
        modified s = true -> write_ready s w ->
        exists s' w' piece,
          svWriteFile s mode w = Some (true, s', w')
          /\ w_disk w' = svWriteFile_lines A ++ piece ++ svWriteFile_lines B
          /\ (blank_or_comment text -> piece = text ++ [10])
          /\ (~ blank_or_comment text ->
              piece = bytes "#NM: " ++ text ++ [10])).
Proof.
  intros Ht.
  assert (H1 : blank_or_comment text ->
               svWriteFile_line (line_raw text) = text ++ [10]).
  { unfold svWriteFile_line, line_raw. cbn [key line opt_str].
    intros [Hb | (ws & rest & -> & Hws)].
    - now rewrite nm_str_skip_leading_spaces_blank.
    - now rewrite nm_str_skip_leading_spaces_app. }
  assert (H2 : ~ blank_or_comment text ->
               svWriteFile_line (line_raw text)
               = bytes "#NM: " ++ text ++ [10]).
  { unfold svWriteFile_line, line_raw. cbn [key line opt_str].
    intros Hn.
    destruct (NM_IN_SET (nth 0 (nm_str_skip_leading_spaces text) 0) [0; 35])
      eqn:E; [|reflexivity].
    exfalso. apply Hn. apply NM_IN_SET_true in E.
    destruct (nm_str_skip_leading_spaces_split text) as [ws [Heq Hws]].
    destruct (nm_str_skip_leading_spaces text) as [|c rest].
    - left. rewrite Heq, app_nil_r. exact Hws.
    - cbn in E. destruct E as [E | [E | []]]; subst c.
      + exfalso. unfold is_cstr in Ht. rewrite Forall_forall in Ht.
        assert (0 < 0 < 256); [|lia].
        apply Ht. rewrite Heq. apply in_or_app. right. now left.
      + right. exists ws, rest. auto. }
  split; [exact H1|]. split; [exact H2|].
  intros s mode w A B Hl Hm Hw.
  destruct (svWriteFile_ready_at s mode w A B (line_raw text) Hl Hm Hw)
    as (s' & w' & E & Hd).
  exists s', w', (svWriteFile_line (line_raw text)).
  split; [exact E|]. split; [exact Hd|]. split; [exact H1 | exact H2].
Qed.

Lemma svWriteFile_line_raw_witness :
  let w := {| w_access := ReadWrite;
              w_disk := bytes "export PATH=/bin" ++ [10]
                        ++ bytes "  # a comment" ++ [10];
              w_read_ok := true; w_create_ok := true;
              w_ftruncate_ok := true; w_dup_ok := true; w_fdopen_ok := true;
              w_write_limit := None; w_trace := [] |} in
  let s := {| fileName := bytes "ifcfg-eth0"; fd := 3;
              lineList := parse_arena (w_disk w); modified := true |} in
  svWriteFile_line (line_new_parse (bytes "export PATH=/bin"))
  = bytes "#NM: export PATH=/bin" ++ [10]
  /\ svWriteFile_line (line_new_parse (bytes "  # a comment"))
     = bytes "  # a comment" ++ [10]
  /\ exists s' w',
       svWriteFile s 420 w = Some (true, s', w')
       /\ w_disk w' = bytes "#NM: export PATH=/bin" ++ [10]
                      ++ bytes "  # a comment" ++ [10].
Proof.
  cbv zeta.
  pose (w := {| w_access := ReadWrite;
                w_disk := bytes "export PATH=/bin" ++ [10]
                          ++ bytes "  # a comment" ++ [10];
                w_read_ok := true; w_create_ok := true;
                w_ftruncate_ok := true; w_dup_ok := true;
                w_fdopen_ok := true; w_write_limit := None;
                w_trace := [] |}).
  pose (s := {| fileName := bytes "ifcfg-eth0"; fd := 3;
                lineList := parse_arena (w_disk w); modified := true |}).
  assert (Hc1 : is_cstr (bytes "export PATH=/bin"))
    by (apply is_cstrb_spec; reflexivity).
  assert (Hc2 : is_cstr (bytes "  # a comment"))
    by (apply is_cstrb_spec; reflexivity).
  assert (Hn : ~ blank_or_comment (bytes "export PATH=/bin")).
  { intros [Hb | (ws & rest & Heq & Hws)].
    - inversion Hb. discriminate.
    - destruct ws as [|c ws]; [discriminate|].
      injection Heq as <- _. inversion Hws. discriminate. }
  assert (Hb : blank_or_comment (bytes "  # a comment")).
  { right. exists [32; 32], (bytes " a comment").
    split; [reflexivity|]. repeat constructor. }
  assert (Hw : write_ready s w).
  { split; [left; discriminate|]. repeat split. }
  pose proof (svWriteFile_line_raw (bytes "export PATH=/bin") Hc1) as H.
  pose proof (svWriteFile_line_raw (bytes "  # a comment") Hc2) as H'.
  destruct H as (_ & H2 & H3). destruct H' as (H1' & _).
  fold w s. split; [exact (H2 Hn)|]. split; [exact (H1' Hb)|].
  destruct (H3 s 420 w [] [line_raw (bytes "  # a comment")]
              eq_refl eq_refl Hw) as (s' & w' & piece & E & Hd & _ & Hp).
  exists s', w'. split; [exact E|].
  rewrite Hd, (Hp Hn). reflexivity.
Defined.

(** C7 as stated fails on a line of blanks: the text is not empty and has
    no byte that is not a blank, yet it is printed as it is. *)
Lemma svWriteFile_line_blank_counterexample :
  let text := [32; 32] in
  text <> []
  /\ Forall (fun c => g_ascii_isspace c = true) text
  /\ line_new_parse text = line_raw text
  /\ svWriteFile_line (line_raw text) = text ++ [10]
  /\ svWriteFile_line (line_raw text) <> bytes "#NM: " ++ text ++ [10].
Proof.
  cbv zeta. split; [discriminate|].
  split; [repeat constructor|].
  split; [reflexivity|]. split; [reflexivity | discriminate].
Qed.

(** The vertical tab is no blank for the code: a line with a vertical tab
    before the hash sign is no comment, and is printed behind the
    marker. *)
Example svWriteFile_line_vertical_tab :
  g_ascii_isspace 11 = false
  /\ svWriteFile_line (line_new_parse ([11] ++ bytes "# text"))
     = bytes "#NM: " ++ [11] ++ bytes "# text" ++ [10].
Proof. split; reflexivity. Qed.

(** C8.  An assignment whose stored text fails to decode is printed as the
    key and an equal sign on one line, followed by a line that holds the
    marker [#NM: ], the key with its prefix, an equal sign and the stored
    text; an assignment whose stored text decodes is printed as it is, the
    key with its prefix, an equal sign and the stored text.  So
    [svWriteFile], on a modified document that holds the record and in a
    file system where the write goes through, returns [TRUE] and leaves
    these bytes in the file, between what the records before and the
    records after print. *)
Theorem svWriteFile_line_assignment (k kp text : list Z) :
  let ln := {| line := Some text; key := Some k; key_with_prefix := Some kp |} in
  (svUnescape text = None ->
   svWriteFile_line ln
   = (k ++ [61; 10]) ++ bytes "#NM: " ++ kp ++ [61] ++ text ++ [10])
  /\ (svUnescape text <> None ->
      svWriteFile_line ln = kp ++ [61] ++ text ++ [10])
  /\ (forall (s : shvarFile) (mode : Z) (w : world) (A B : list shvarLine),
        lineList s = A ++ ln :: B ->
        modified s = true -> write_ready s w ->
        exists s' w' piece,
          svWriteFile s mode w = Some (true, s', w')
          /\ w_disk w' = svWriteFile_lines A ++ piece ++ svWriteFile_lines B
          /\ (svUnescape text = None ->
              piece = (k ++ [61; 10])
                      ++ bytes "#NM: " ++ kp ++ [61] ++ text ++ [10])
          /\ (svUnescape text <> None ->
              piece = kp ++ [61] ++ text ++ [10])).
Proof.
  cbv zeta.
  assert (H : (svUnescape text = None ->
               svWriteFile_line
                 {| line := Some text; key := Some k;
                    key_with_prefix := Some kp |}
               = (k ++ [61; 10])
                 ++ bytes "#NM: " ++ kp ++ [61] ++ text ++ [10])
              /\ (svUnescape text <> None ->
                  svWriteFile_line
                    {| line := Some text; key := Some k;
                       key_with_prefix := Some kp |}
                  = kp ++ [61] ++ text ++ [10])).
  { unfold svWriteFile_line. cbn [key line key_with_prefix opt_str].
    destruct (svUnescape text); split; intros H;
      try reflexivity; try discriminate; congruence. }
  destruct H as [H1 H2].
  split; [exact H1|]. split; [exact H2|].
  intros s mode w A B Hl Hm Hw.
  destruct (svWriteFile_ready_at s mode w A B _ Hl Hm Hw)
    as (s' & w' & E & Hd).
  eexists s', w', _.
  split; [exact E|]. split; [exact Hd|]. split; [exact H1 | exact H2].
Qed.

Lemma svWriteFile_line_assignment_witness :
  let w := {| w_access := ReadWrite;
              w_disk := bytes " FOO=" ++ [34] ++ bytes "bad" ++ [10]
                        ++ bytes " FOO='good'" ++ [10];
              w_read_ok := true; w_create_ok := true;
              w_ftruncate_ok := true; w_dup_ok := true; w_fdopen_ok := true;
              w_write_limit := None; w_trace := [] |} in
  let s := {| fileName := bytes "ifcfg-eth0"; fd := 3;
              lineList := parse_arena (w_disk w); modified := true |} in
  svWriteFile_line (line_new_parse (bytes " FOO=" ++ [34] ++ bytes "bad"))
  = bytes "FOO=" ++ [10] ++ bytes "#NM:  FOO=" ++ [34] ++ bytes "bad" ++ [10]
  /\ svWriteFile_line (line_new_parse (bytes " FOO='good'"))
     = bytes " FOO='good'" ++ [10]
  /\ exists s' w',
       svWriteFile s 420 w = Some (true, s', w')
       /\ w_disk w'
          = bytes "FOO=" ++ [10]
            ++ bytes "#NM:  FOO=" ++ [34] ++ bytes "bad" ++ [10]
            ++ bytes " FOO='good'" ++ [10].
Proof.
  cbv zeta.
  pose (w := {| w_access := ReadWrite;
                w_disk := bytes " FOO=" ++ [34] ++ bytes "bad" ++ [10]
                          ++ bytes " FOO='good'" ++ [10];
                w_read_ok := true; w_create_ok := true;
                w_ftruncate_ok := true; w_dup_ok := true;
                w_fdopen_ok := true; w_write_limit := None;
                w_trace := [] |}).
  pose (s := {| fileName := bytes "ifcfg-eth0"; fd := 3;
                lineList := parse_arena (w_disk w); modified := true |}).
  assert (Hw : write_ready s w).
  { split; [left; discriminate|]. repeat split. }
  assert (Hbad : svUnescape ([34] ++ bytes "bad") = None) by reflexivity.
  assert (Hgood : svUnescape (bytes "'good'") <> None) by discriminate.
  pose proof (svWriteFile_line_assignment (bytes "FOO") (bytes " FOO")
                ([34] ++ bytes "bad")) as H.
  pose proof (svWriteFile_line_assignment (bytes "FOO") (bytes " FOO")
                (bytes "'good'")) as H'.
  cbv zeta in H, H'.
  destruct H as (H1 & _ & H3). destruct H' as (_ & H2' & _).
  fold w s. split; [exact (H1 Hbad)|]. split; [exact (H2' Hgood)|].
  destruct (H3 s 420 w []
              [{| line := Some (bytes "'good'"); key := Some (bytes "FOO");
                  key_with_prefix := Some (bytes " FOO") |}]
              eq_refl eq_refl Hw) as (s' & w' & piece & E & Hd & Hp & _).
  exists s', w'. split; [exact E|].
  rewrite Hd, (Hp Hbad). reflexivity.
Defined.

(** The same through the file: the line with the unterminated quote is
    read, the document is marked modified and written back. *)
Example svWriteFile_malformed_file :
  let w := {| w_access := ReadWrite;
              w_disk := bytes "FOO=" ++ [34] ++ bytes "bad" ++ [10]
                        ++ bytes "export PATH=/bin" ++ [10];
              w_read_ok := true; w_create_ok := true;
              w_ftruncate_ok := true; w_dup_ok := true; w_fdopen_ok := true;
              w_write_limit := None;
              w_trace := [] |} in
  match svCreateFile (bytes "ifcfg-eth0") w with
  | None => False
  | Some s =>
      match svWriteFile (svFileSetModified s) 420 w with
      | Some (ok, _, w') =>
          ok = true
          /\ w_disk w'
             = bytes "FOO=" ++ [10]
               ++ bytes "#NM: FOO=" ++ [34] ++ bytes "bad" ++ [10]
               ++ bytes "#NM: export PATH=/bin" ++ [10]
      | None => False
      end
  end.
Proof. cbn. split; reflexivity. Qed.

(** C9.  Writing back a document that is not modified does nothing: no
    system call is made, the bytes of the file stay as they are, the
    document is unchanged and the call succeeds. *)
Theorem svWriteFile_unmodified (s : shvarFile) (mode : Z) (w : world) :
  modified s = false ->
  svWriteFile s mode w = Some (true, s, w).
Proof. intros H. unfold svWriteFile. now rewrite H. Qed.

Lemma svWriteFile_unmodified_witness :
  let w := {| w_access := ReadOnly; w_disk := bytes "FOO=bar" ++ [10];
              w_read_ok := true; w_create_ok := false;
              w_ftruncate_ok := false; w_dup_ok := false; w_fdopen_ok := true;
              w_write_limit := None;
              w_trace := [] |} in
  let s := {| fileName := bytes "ifcfg-eth0"; fd := -1;
              lineList := parse_arena (w_disk w); modified := false |} in
  svWriteFile s 420 w = Some (true, s, w).
Proof.
  cbv zeta. apply svWriteFile_unmodified. reflexivity.
Defined.

(** A modified document does reach the file: on the same read-only file
    the call fails at [open]. *)
Example svWriteFile_modified_read_only :
  let w := {| w_access := ReadOnly; w_disk := bytes "FOO=bar" ++ [10];
              w_read_ok := true; w_create_ok := false;
              w_ftruncate_ok := false; w_dup_ok := false; w_fdopen_ok := true;
              w_write_limit := None;
              w_trace := [] |} in
  let s := {| fileName := bytes "ifcfg-eth0"; fd := -1;
              lineList := parse_arena (w_disk w); modified := true |} in
  ok_of (svWriteFile s 420 w) = Some false
  /\ option_map (fun r => w_trace (snd r)) (svWriteFile s 420 w)
     = Some [SysOpen (bytes "ifcfg-eth0")].
Proof. cbn. split; reflexivity. Qed.

(** ** Reading what was set *)

(** C10.  For every document, every key that is a shell name and every
    value that is not empty and holds no newline, [svGetValueString] after
    [svSetValue] returns the value. *)
Theorem svGetValueString_svSetValue
    (char_signed : bool) (s : shvarFile) (k v : list Z) :
  _shell_is_name k = true ->
  is_cstr v -> v <> [] -> ~ In 10 v ->
  svGetValueString (svSetValue char_signed s k (Some v)) k = Some v.
Proof.
  intros _ Hv Hne _.
  assert (Hlast : exists ln,
            _svGetValue_last (lineList (svSetValue char_signed s k (Some v)))
              k None = Some ln
            /\ line ln = Some (svEscape char_signed v)).
  { destruct (last_key_split k (lineList s))
      as [Hno | (A & ln & B & Hl & Hln & HB)].
    - rewrite svSetValue_absent by assumption. cbn [lineList].
      exists (line_new_build char_signed k v). split; [|reflexivity].
      change (lineList s ++ [line_new_build char_signed k v])
        with (lineList s ++ line_new_build char_signed k v :: []).
      apply _svGetValue_last_split; [|reflexivity].
      unfold line_has_key, line_new_build. cbn [key]. apply nm_streq_refl.
    - rewrite (svSetValue_present char_signed s k (Some v) A ln B)
        by assumption.
      cbv zeta. cbn [lineList].
      exists {| line := Some (svEscape char_signed v); key := key ln;
                key_with_prefix := key ln |}.
      split; [|reflexivity].
      apply _svGetValue_last_split; [|assumption].
      unfold line_has_key in *. cbn [key]. exact Hln. }
  destruct Hlast as (ln & Hlast & Hline).
  unfold svGetValueString, _svGetValue. rewrite Hlast, Hline.
  rewrite svUnescape_svEscape by assumption.
  destruct v; [congruence | reflexivity].
Qed.

Lemma svGetValueString_svSetValue_witness :
  let s := {| fileName := bytes "ifcfg-eth0"; fd := -1;
              lineList := parse_arena (bytes "NAME=old" ++ [10]
                                       ++ bytes "# note" ++ [10]
                                       ++ bytes "NAME='older'" ++ [10]);
              modified := false |} in
  let v := bytes "my $net 'a'" ++ [7; 233] in
  svGetValueString (svSetValue true s (bytes "NAME") (Some v)) (bytes "NAME")
  = Some v.
Proof.
  cbv zeta. apply svGetValueString_svSetValue.
  - reflexivity.
  - apply is_cstrb_spec. reflexivity.
  - discriminate.
  - apply NM_IN_SET_false. reflexivity.
Defined.

(** * Further properties of the code *)

(** ** Parsing a line *)

Lemma firstn_length_app {A} (a b : list A) :
  firstn (List.length a) (a ++ b) = a.
Proof. induction a as [|x a IH]; cbn; [now destruct b | now rewrite IH]. Qed.

Lemma skipn_length_app {A} (a b : list A) :
  skipn (List.length a) (a ++ b) = b.
Proof. induction a as [|x a IH]; cbn; [reflexivity | exact IH]. Qed.

Lemma line_new_parse_name_some name rest e :
  forallb is_name_byte name = true ->
  line_new_parse_name (name ++ 61 :: rest) e = Some (e + List.length name)%nat.
Proof.
  revert e. induction name as [|c name IH]; intros e H.
  - cbn. now rewrite Nat.add_0_r.
  - cbn [forallb] in H. apply andb_true_iff in H. destruct H as [Hc Hn].
    cbn [app line_new_parse_name].
    unfold is_name_byte in Hc.
    destruct (Z.eqb_spec c 61) as [->|_]; [discriminate|].
    rewrite <- negb_orb, Hc. cbn [negb]. rewrite IH by assumption.
    cbn [List.length]. f_equal. lia.
Qed.

Lemma line_new_parse_name_inv l : forall e e',
  line_new_parse_name l e = Some e' ->
  exists name rest,
    l = name ++ 61 :: rest /\ forallb is_name_byte name = true
    /\ e' = (e + List.length name)%nat.
Proof.
  induction l as [|c l IH]; intros e e' H; [discriminate|].
  cbn [line_new_parse_name] in H.
  destruct (Z.eqb_spec c 61) as [->|Hc].
  - injection H as <-. exists [], l. cbn. now rewrite Nat.add_0_r.
  - destruct (negb (g_ascii_isalnum c) && negb (c =? 95)) eqn:Hn;
      [discriminate|].
    destruct (IH _ _ H) as (name & rest & -> & Hname & ->).
    exists (c :: name), rest. cbn [app forallb List.length].
    split; [reflexivity|]. split; [|lia].
    rewrite Hname, andb_true_r. unfold is_name_byte.
    destruct (g_ascii_isalnum c), (c =? 95); cbn in *; congruence.
Qed.

Lemma line_new_parse_name_none l : forall e,
  line_new_parse_name l e = None ->
  match strchr_before l 61 with
  | None => True
  | Some name => forallb is_name_byte name = false
  end.
Proof.
  induction l as [|c l IH]; intros e H; [exact I|].
  cbn [line_new_parse_name] in H. cbn [strchr_before].
  destruct (Z.eqb_spec c 61) as [->|Hc]; [discriminate|].
  destruct (negb (g_ascii_isalnum c) && negb (c =? 95)) eqn:Hn.
  - destruct (strchr_before l 61); cbn [option_map forallb]; [|exact I].
    unfold is_name_byte at 1.
    destruct (g_ascii_isalnum c), (c =? 95); cbn in *; congruence.
  - specialize (IH _ H).
    destruct (strchr_before l 61); cbn [option_map forallb]; [|exact I].
    now rewrite IH, andb_false_r.
Qed.

Lemma nm_str_skip_leading_spaces_blanks ws l :
  Forall is_blank ws ->
  nm_str_skip_leading_spaces (ws ++ l) = nm_str_skip_leading_spaces l.
Proof.
  induction 1 as [|c ws Hc _ IH]; [reflexivity|].
  cbn [app nm_str_skip_leading_spaces]. now rewrite Hc.
Qed.

Lemma _shell_is_name_head c name :
  _shell_is_name (c :: name)
  = (g_ascii_isalpha c || (c =? 95)) && forallb is_name_byte name.
Proof. reflexivity. Qed.

Lemma alpha_not_blank c :
  g_ascii_isalpha c || (c =? 95) = true -> g_ascii_isspace c = false.
Proof.
  unfold g_ascii_isalpha. intros H. apply NM_IN_SET_false. cbn.
  revert H. byte_tests; cbn; intros; try discriminate; lia.
Qed.

(** What [line_new_parse_from] returns at any point of its walk over the
    leading blanks. *)
Lemma line_new_parse_from_spec l : forall pre,
  Forall is_blank pre ->
  let ln := line_new_parse_from (pre ++ l) l (List.length pre) in
  (ln = line_raw (pre ++ l)
   /\ match strchr_before (nm_str_skip_leading_spaces l) 61 with
      | None => True
      | Some name => _shell_is_name name = false
      end)
  \/ (exists ws k v,
        pre ++ l = ws ++ k ++ 61 :: v /\ Forall is_blank ws
        /\ _shell_is_name k = true
        /\ ln = {| line := Some v; key := Some k;
                   key_with_prefix := Some (ws ++ k) |}).
Proof.
  induction l as [|c l IH]; intros pre Hpre; cbv zeta.
  - left. cbn. auto.
  - cbn [line_new_parse_from nm_str_skip_leading_spaces].
    destruct (g_ascii_isspace c) eqn:Hsp.
    + specialize (IH (pre ++ [c])).
      rewrite <- app_assoc, length_app, Nat.add_1_r in IH. cbn [app] in IH.
      apply IH. apply Forall_app. split; [assumption|]. now constructor.
    + destruct (g_ascii_isalpha c || (c =? 95)) eqn:Ha.
      * destruct (line_new_parse_name l (S (List.length pre))) as [e|] eqn:Hn.
        -- right. apply line_new_parse_name_inv in Hn.
           destruct Hn as (name & rest & -> & Hname & ->).
           exists pre, (c :: name), rest.
           split; [reflexivity|]. split; [assumption|].
           split; [rewrite _shell_is_name_head, Ha, Hname; reflexivity|].
           replace (pre ++ c :: name ++ 61 :: rest)
             with ((pre ++ c :: name) ++ 61 :: rest)
             by (rewrite <- app_assoc; reflexivity).
           replace (S (List.length pre) + List.length name)%nat
             with (List.length (pre ++ c :: name))
             by (rewrite length_app; cbn; lia).
           rewrite firstn_length_app.
           f_equal.
           ++ f_equal.
              replace ((pre ++ c :: name) ++ 61 :: rest)
                with (((pre ++ c :: name) ++ [61]) ++ rest)
                by (rewrite <- app_assoc; reflexivity).
              replace (S (List.length (pre ++ c :: name)))
                with (List.length ((pre ++ c :: name) ++ [61]))
                by (rewrite length_app; cbn; lia).
              apply skipn_length_app.
           ++ f_equal. apply skipn_length_app.
        -- left. split; [reflexivity|].
           apply line_new_parse_name_none in Hn. cbn [strchr_before].
           destruct (Z.eqb_spec c 61) as [->|_]; [discriminate|].
           destruct (strchr_before l 61); cbn [option_map]; [|exact I].
           rewrite _shell_is_name_head, Hn. apply andb_false_r.
      * left. split; [reflexivity|]. cbn [strchr_before].
        destruct (c =? 61); [reflexivity|].
        destruct (strchr_before l 61); cbn [option_map]; [|exact I].
        rewrite _shell_is_name_head, Ha. reflexivity.
Qed.

Lemma nm_str_skip_leading_spaces_name k :
  _shell_is_name k = true -> nm_str_skip_leading_spaces k = k.
Proof.
  destruct k as [|c name]; [reflexivity|].
  rewrite _shell_is_name_head. intros H. apply andb_true_iff in H.
  destruct H as [H _]. cbn [nm_str_skip_leading_spaces].
  now rewrite (alpha_not_blank c H).
Qed.

Lemma line_new_parse_blanks_name (ws k v : list Z) :
  Forall is_blank ws -> _shell_is_name k = true ->
  line_new_parse (ws ++ k ++ 61 :: v)
  = {| line := Some v; key := Some k; key_with_prefix := Some (ws ++ k) |}.
Proof.
  intros Hws Hk. unfold line_new_parse.
  assert (G : forall pre,
            line_new_parse_from (pre ++ ws ++ k ++ 61 :: v)
              (ws ++ k ++ 61 :: v) (List.length pre)
            = {| line := Some v; key := Some k;
                 key_with_prefix := Some (pre ++ ws ++ k) |}).
  { induction Hws as [|c ws Hc _ IH]; intros pre.
    - destruct k as [|c name]; [discriminate|].
      rewrite _shell_is_name_head in Hk. apply andb_true_iff in Hk.
      destruct Hk as [Ha Hname].
      cbn [app line_new_parse_from].
      rewrite (alpha_not_blank c Ha), Ha.
      rewrite line_new_parse_name_some by assumption.
      replace (pre ++ c :: name ++ 61 :: v)
        with ((pre ++ c :: name) ++ 61 :: v)
        by (rewrite <- app_assoc; reflexivity).
      replace (S (List.length pre) + List.length name)%nat
        with (List.length (pre ++ c :: name))
        by (rewrite length_app; cbn; lia).
      rewrite firstn_length_app. f_equal.
      + f_equal.
        replace ((pre ++ c :: name) ++ 61 :: v)
          with (((pre ++ c :: name) ++ [61]) ++ v)
          by (rewrite <- app_assoc; reflexivity).
        replace (S (List.length (pre ++ c :: name)))
          with (List.length ((pre ++ c :: name) ++ [61]))
          by (rewrite length_app; cbn; lia).
        apply skipn_length_app.
      + f_equal. apply skipn_length_app.
    - cbn [app line_new_parse_from]. rewrite Hc.
      specialize (IH (pre ++ [c])).
      rewrite <- !app_assoc, length_app, Nat.add_1_r in IH.
      cbn [app] in IH. exact IH. }
  exact (G []).
Qed.

(** X1.  A text made of blanks, a name, an equal sign and anything is
    parsed as the assignment of that name: the key is the name, the prefix
    keeps the blanks and the value is what follows the equal sign, as it
    is. *)
Theorem line_new_parse_assignment (ws k v : list Z) :
  Forall is_blank ws -> _shell_is_name k = true ->
  line_new_parse (ws ++ k ++ 61 :: v)
  = {| line := Some v; key := Some k; key_with_prefix := Some (ws ++ k) |}.
Proof. exact (line_new_parse_blanks_name ws k v). Qed.

Lemma line_new_parse_assignment_witness :
  line_new_parse (bytes "  IPADDR0=10.0.0.1 # lan")
  = {| line := Some (bytes "10.0.0.1 # lan"); key := Some (bytes "IPADDR0");
       key_with_prefix := Some (bytes "  IPADDR0") |}.
Proof.
  apply (line_new_parse_assignment [32; 32] (bytes "IPADDR0")
           (bytes "10.0.0.1 # lan")).
  - repeat constructor.
  - reflexivity.
Defined.

(** X2.  Parsing loses nothing and has only these two outcomes: the record
    either holds the whole text and no key, or holds a key that is a name,
    behind blanks only, and the text is the prefix, an equal sign and the
    value. *)
Theorem line_new_parse_lossless (value : list Z) :
  line_new_parse value = line_raw value
  \/ exists ws k v,
       value = ws ++ k ++ 61 :: v /\ Forall is_blank ws
       /\ _shell_is_name k = true
       /\ line_new_parse value
          = {| line := Some v; key := Some k;
               key_with_prefix := Some (ws ++ k) |}.
Proof.
  destruct (line_new_parse_from_spec value [] (Forall_nil _)) as [[H _] | H].
  - left. exact H.
  - right. exact H.
Qed.

(** X3.  Every record that parsing builds passes the checks of
    [ASSERT_shvarLine]: a record without key does not start with a name
    and an equal sign, and the key of an assignment is a name and is what
    follows the leading blanks of its prefix. *)
Theorem line_new_parse_ASSERT (value : list Z) :
  ASSERT_shvarLine (line_new_parse value) = true.
Proof.
  destruct (line_new_parse_from_spec value [] (Forall_nil _))
    as [[H Hs] | (ws & k & v & Heq & Hws & Hk & H)];
    cbv zeta in *; cbn [app List.length] in *;
    fold (line_new_parse value) in H; rewrite H.
  - unfold ASSERT_shvarLine, line_raw. cbn [key line key_with_prefix].
    destruct (strchr_before (nm_str_skip_leading_spaces value) 61);
      [now rewrite Hs | reflexivity].
  - unfold ASSERT_shvarLine. cbn [key line key_with_prefix].
    rewrite nm_str_skip_leading_spaces_blanks by assumption.
    rewrite nm_str_skip_leading_spaces_name by assumption.
    now rewrite nm_streq_refl, Hk.
Qed.

(** ** Setting a value: what it leaves alone *)

Lemma line_has_key_other ln k k' :
  line_has_key ln k = true -> k <> k' -> line_has_key ln k' = false.
Proof.
  unfold line_has_key. destruct (key ln) as [x|]; [|discriminate].
  intros H Hne. apply nm_streq_eq in H. subst x.
  destruct (nm_streq k k') eqn:E; [|reflexivity].
  apply nm_streq_eq in E. contradiction.
Qed.

Lemma _svGetValue_last_filter l k : forall last,
  _svGetValue_last (filter (fun x => line_has_key x k) l) k last
  = _svGetValue_last l k last.
Proof.
  induction l as [|x l IH]; intros last; [reflexivity|].
  cbn [filter _svGetValue_last].
  destruct (line_has_key x k) eqn:E; [|apply IH].
  cbn [_svGetValue_last]. rewrite E. apply IH.
Qed.

Lemma filter_key_of_others k k' l :
  k <> k' ->
  filter (fun x => line_has_key x k')
    (filter (fun x => negb (line_has_key x k)) l)
  = filter (fun x => line_has_key x k') l.
Proof.
  intros Hne. induction l as [|x l IH]; [reflexivity|]. cbn [filter].
  destruct (line_has_key x k) eqn:E; cbn [negb filter].
  - rewrite (line_has_key_other x k k' E Hne). exact IH.
  - destruct (line_has_key x k'); now rewrite IH.
Qed.

Lemma filter_negb_key_idem k l :
  filter (fun x => negb (line_has_key x k))
    (filter (fun x => negb (line_has_key x k)) l)
  = filter (fun x => negb (line_has_key x k)) l.
Proof.
  induction l as [|x l IH]; [reflexivity|]. cbn [filter].
  destruct (line_has_key x k) eqn:E; cbn [negb filter]; [exact IH|].
  rewrite E. cbn [negb]. now rewrite IH.
Qed.

Lemma filter_negb_key_cons k ln l :
  line_has_key ln k = true ->
  filter (fun x => negb (line_has_key x k)) (ln :: l)
  = filter (fun x => negb (line_has_key x k)) l.
Proof. intros H. cbn [filter]. now rewrite H. Qed.

Lemma svSetValue_others (char_signed : bool) (s : shvarFile) (k : list Z)
    (value : option (list Z)) :
  filter (fun x => negb (line_has_key x k))
    (lineList (svSetValue char_signed s k value))
  = filter (fun x => negb (line_has_key x k)) (lineList s).
Proof.
  destruct (last_key_split k (lineList s))
    as [Hno | (A & ln & B & Hl & Hln & HB)].
  - rewrite svSetValue_absent by assumption.
    destruct value as [v|]; cbn [lineList]; [|reflexivity].
    rewrite filter_app, filter_negb_key_cons, app_nil_r; [reflexivity|].
    unfold line_has_key, line_new_build. cbn [key]. apply nm_streq_refl.
  - rewrite (svSetValue_present char_signed s k value A ln B) by assumption.
    cbv zeta. rewrite Hl.
    pose proof (line_has_key_key k ln Hln) as Hk.
    destruct value as [v|]; cbn [lineList]; rewrite !filter_app;
      rewrite filter_negb_key_idem, !filter_negb_key_cons;
      try reflexivity; try assumption;
      unfold line_has_key; cbn [key]; rewrite Hk; apply nm_streq_refl.
Qed.

(** X4.  [svSetValue] keeps the records of the other keys, and the records
    that are no assignments, as they are and in their order: it only
    deletes, changes or appends records of the key it is given. *)
Theorem svSetValue_keeps_others
    (char_signed : bool) (s : shvarFile) (k : list Z)
    (value : option (list Z)) :
  filter (fun x => negb (line_has_key x k))
    (lineList (svSetValue char_signed s k value))
  = filter (fun x => negb (line_has_key x k)) (lineList s)
  /\ fileName (svSetValue char_signed s k value) = fileName s
  /\ fd (svSetValue char_signed s k value) = fd s.
Proof.
  split; [apply svSetValue_others|].
  destruct (last_key_split k (lineList s))
    as [Hno | (A & ln & B & Hl & Hln & HB)].
  - rewrite svSetValue_absent by assumption. now destruct value.
  - rewrite (svSetValue_present char_signed s k value A ln B) by assumption.
    now destruct value.
Qed.

(** X5.  Setting or unsetting a key does not change what is read for
    another key. *)
Theorem svGetValue_svSetValue_other
    (char_signed : bool) (s : shvarFile) (k k' : list Z)
    (value : option (list Z)) :
  k <> k' ->
  svGetValue (svSetValue char_signed s k value) k' = svGetValue s k'
  /\ svGetValueString (svSetValue char_signed s k value) k'
     = svGetValueString s k'.
Proof.
  intros Hne.
  assert (H : _svGetValue (svSetValue char_signed s k value) k'
              = _svGetValue s k').
  { unfold _svGetValue.
    rewrite <- (_svGetValue_last_filter (lineList (svSetValue _ _ _ _))).
    rewrite <- (_svGetValue_last_filter (lineList s)).
    rewrite <- (filter_key_of_others k k' (lineList (svSetValue _ _ _ _)))
      by assumption.
    rewrite <- (filter_key_of_others k k' (lineList s)) by assumption.
    now rewrite svSetValue_others. }
  split; [exact H|]. unfold svGetValueString. now rewrite H.
Qed.

Lemma svGetValue_svSetValue_other_witness :
  let s := {| fileName := bytes "ifcfg-eth0"; fd := -1;
              lineList := parse_arena (bytes "A=1" ++ [10] ++ bytes "B=2"
                                       ++ [10] ++ bytes "A=3" ++ [10]);
              modified := false |} in
  svGetValueString (svSetValue true s (bytes "A") (Some (bytes "x y")))
    (bytes "B")
  = Some (bytes "2").
Proof.
  cbv zeta.
  refine (eq_trans (proj2 (svGetValue_svSetValue_other true _ (bytes "A")
                             (bytes "B") (Some (bytes "x y")) _)) _).
  - discriminate.
  - reflexivity.
Defined.

Lemma line_set_unchanged (char_signed : bool) ln v :
  line ln = Some (svEscape char_signed v) -> key_with_prefix ln = key ln ->
  snd (line_set char_signed ln v) = false.
Proof.
  intros H1 H2. destruct (snd (line_set char_signed ln v)) eqn:E;
    [|reflexivity].
  apply line_set_changed in E. destruct E; congruence.
Qed.

(** X6.  Setting a key twice to the same value, or unsetting it twice, is
    the same as doing it once: the second call changes no record and does
    not touch the modified flag. *)
Theorem svSetValue_idempotent
    (char_signed : bool) (s : shvarFile) (k : list Z)
    (value : option (list Z)) :
  svSetValue char_signed (svSetValue char_signed s k value) k value
  = svSetValue char_signed s k value.
Proof.
  destruct (last_key_split k (lineList s))
    as [Hno | (A & ln & B & Hl & Hln & HB)].
  - rewrite (svSetValue_absent char_signed s) by assumption.
    destruct value as [v|].
    + rewrite (svSetValue_present char_signed _ k (Some v) (lineList s)
                 (line_new_build char_signed k v) []);
        [| reflexivity
         | unfold line_has_key, line_new_build; cbn [key];
           apply nm_streq_refl
         | reflexivity].
      cbv zeta. cbn [fileName fd lineList modified line_new_build key].
      rewrite filter_negb_key_none by assumption.
      now destruct (snd _).
    + now rewrite svSetValue_absent by assumption.
  - rewrite (svSetValue_present char_signed s k value A ln B) by assumption.
    cbv zeta.
    pose proof (line_has_key_key k ln Hln) as Hk.
    destruct value as [v|].
    + rewrite (svSetValue_present char_signed _ k (Some v)
                 (filter (fun x => negb (line_has_key x k)) A)
                 {| line := Some (svEscape char_signed v); key := key ln;
                    key_with_prefix := key ln |} B);
        [| reflexivity
         | unfold line_has_key; cbn [key]; rewrite Hk; apply nm_streq_refl
         | assumption].
      cbv zeta. cbn [fileName fd lineList modified line key key_with_prefix].
      rewrite filter_negb_key_idem, existsb_filter_negb, orb_false_r.
      rewrite (line_set_unchanged char_signed _ v) by reflexivity.
      reflexivity.
    + rewrite (svSetValue_present char_signed _ k None
                 (filter (fun x => negb (line_has_key x k)) A)
                 {| line := None; key := key ln;
                    key_with_prefix := key_with_prefix ln |} B);
        [| reflexivity
         | unfold line_has_key; cbn [key]; rewrite Hk; apply nm_streq_refl
         | assumption].
      cbv zeta. cbn [fileName fd lineList modified line key key_with_prefix].
      rewrite filter_negb_key_idem, existsb_filter_negb, orb_false_r.
      reflexivity.
Qed.

(** X7.  Every change is flagged: if the document is not marked modified
    after [svSetValue], then the call changed nothing at all; and a
    document that was marked modified stays so. *)
Theorem svSetValue_unmodified_unchanged
    (char_signed : bool) (s : shvarFile) (k : list Z)
    (value : option (list Z)) :
  (modified (svSetValue char_signed s k value) = false ->
   svSetValue char_signed s k value = s)
  /\ (modified s = true ->
      modified (svSetValue char_signed s k value) = true).
Proof.
  destruct (last_key_split k (lineList s))
    as [Hno | (A & ln & B & Hl & Hln & HB)].
  - rewrite svSetValue_absent by assumption.
    destruct value as [v|]; cbn [modified]; split; try discriminate; auto.
    intros _. now destruct s.
  - rewrite (svSetValue_present char_signed s k value A ln B) by assumption.
    cbv zeta. destruct value as [v|]; cbn [modified]; split.
    + intros H.
      destruct (snd (line_set char_signed ln v)) eqn:E; [discriminate|].
      apply orb_false_iff in H. destruct H as [Hm HA].
      rewrite (filter_negb_key_none k A) by assumption.
      assert (Hl1 : line ln = Some (svEscape char_signed v)).
      { destruct (opt_str_eq_dec (line ln)
                    (Some (svEscape char_signed v))) as [e|n]; [exact e|].
        assert (snd (line_set char_signed ln v) = true)
          by (apply line_set_changed; now left).
        congruence. }
      assert (Hl2 : key_with_prefix ln = key ln).
      { destruct (opt_str_eq_dec (key_with_prefix ln) (key ln))
          as [e|n]; [exact e|].
        assert (snd (line_set char_signed ln v) = true)
          by (apply line_set_changed; now right).
        congruence. }
      destruct s as [fn f ll m], ln as [l0 k0 kp0].
      cbn [line key key_with_prefix lineList fileName fd modified] in *.
      subst ll l0 kp0 m. rewrite ?E, ?HA. reflexivity.
    + intros H. rewrite H. now destruct (snd _).
    + intros H. destruct (line ln) as [old|] eqn:Hold; [discriminate|].
      apply orb_false_iff in H. destruct H as [Hm HA].
      rewrite (filter_negb_key_none k A) by assumption.
      destruct s as [fn f ll m], ln as [l0 k0 kp0].
      cbn [line key key_with_prefix lineList fileName fd modified] in *.
      subst ll l0 m. rewrite ?HA. reflexivity.
    + intros H. rewrite H. now destruct (line ln).
Qed.

Lemma svSetValue_unmodified_unchanged_witness :
  let s := {| fileName := bytes "ifcfg-eth0"; fd := -1;
              lineList := parse_arena (bytes "A='1'" ++ [10]);
              modified := true |} in
  modified (svSetValue true s (bytes "B") None) = true.
Proof.
  cbv zeta.
  apply (svSetValue_unmodified_unchanged true _ (bytes "B") None).
  reflexivity.
Defined.

(** X8.  After [svUnsetValue] nothing is read for the key, by either
    reader, whatever the document held. *)
Theorem svGetValue_svUnsetValue
    (char_signed : bool) (s : shvarFile) (k : list Z) :
  svGetValue (svUnsetValue char_signed s k) k = None
  /\ svGetValueString (svUnsetValue char_signed s k) k = None.
Proof.
  assert (H : _svGetValue (svUnsetValue char_signed s k) k = None).
  { unfold svUnsetValue, _svGetValue.
    destruct (last_key_split k (lineList s))
      as [Hno | (A & ln & B & Hl & Hln & HB)].
    - rewrite svSetValue_absent by assumption. cbn [lineList].
      now rewrite _svGetValue_last_none by assumption.
    - rewrite (svSetValue_present char_signed s k None A ln B)
        by assumption.
      cbv zeta. cbn [lineList].
      rewrite _svGetValue_last_split; [reflexivity | | assumption].
      unfold line_has_key in *. cbn [key]. exact Hln. }
  split; [exact H|]. unfold svGetValueString. now rewrite H.
Qed.

(** X9.  [svSetValue] with a key that is a name keeps the invariant that
    [ASSERT_shvarLine] checks: if every record of the document passes it,
    every record passes it afterwards. *)
Theorem svSetValue_ASSERT
    (char_signed : bool) (s : shvarFile) (k : list Z)
    (value : option (list Z)) :
  _shell_is_name k = true ->
  Forall (fun ln => ASSERT_shvarLine ln = true) (lineList s) ->
  Forall (fun ln => ASSERT_shvarLine ln = true)
    (lineList (svSetValue char_signed s k value)).
Proof.
  intros Hk Hs.
  assert (Hself : forall l,
            ASSERT_shvarLine {| line := l; key := Some k;
                                key_with_prefix := Some k |} = true).
  { intros l. unfold ASSERT_shvarLine. cbn [key key_with_prefix].
    rewrite nm_str_skip_leading_spaces_name by assumption.
    now rewrite nm_streq_refl, Hk. }
  assert (Hfilter : forall X,
            Forall (fun ln => ASSERT_shvarLine ln = true) X ->
            Forall (fun ln => ASSERT_shvarLine ln = true)
              (filter (fun x => negb (line_has_key x k)) X)).
  { intros X HX. rewrite Forall_forall in *. intros x Hx.
    apply filter_In in Hx. now apply HX. }
  destruct (last_key_split k (lineList s))
    as [Hno | (A & ln & B & Hl & Hln & HB)].
  - rewrite svSetValue_absent by assumption.
    destruct value as [v|]; cbn [lineList]; [|assumption].
    apply Forall_app. split; [assumption|]. constructor; [|constructor].
    apply Hself.
  - rewrite (svSetValue_present char_signed s k value A ln B) by assumption.
    cbv zeta. rewrite Hl in Hs. apply Forall_app in Hs.
    destruct Hs as [HA Hs]. inversion Hs as [|? ? Hln' HB']; subst.
    pose proof (line_has_key_key k ln Hln) as Hkey.
    destruct value as [v|]; cbn [lineList]; apply Forall_app;
      (split; [now apply Hfilter|]); constructor; try assumption.
    + rewrite Hkey. apply Hself.
    + unfold ASSERT_shvarLine in *. cbn [key key_with_prefix line].
      rewrite Hkey in *. exact Hln'.
Qed.

Lemma svSetValue_ASSERT_witness :
  Forall (fun ln => ASSERT_shvarLine ln = true)
    (lineList
       (svSetValue true
          {| fileName := bytes "ifcfg-eth0"; fd := -1;
             lineList := parse_arena (bytes " A=1" ++ [10] ++ bytes "# c"
                                      ++ [10]);
             modified := false |}
          (bytes "A") (Some (bytes "2")))).
Proof.
  apply svSetValue_ASSERT.
  - reflexivity.
  - repeat constructor.
Defined.

(** ** Booleans *)

Lemma _svGetValue_svSetValue (char_signed : bool) (s : shvarFile)
    (k v : list Z) :
  is_cstr v ->
  _svGetValue (svSetValue char_signed s k (Some v)) k = Some v.
Proof.
  intros Hv.
  assert (Hlast : exists ln,
            _svGetValue_last (lineList (svSetValue char_signed s k (Some v)))
              k None = Some ln
            /\ line ln = Some (svEscape char_signed v)).
  { destruct (last_key_split k (lineList s))
      as [Hno | (A & ln & B & Hl & Hln & HB)].
    - rewrite svSetValue_absent by assumption. cbn [lineList].
      exists (line_new_build char_signed k v). split; [|reflexivity].
      apply _svGetValue_last_split; [|reflexivity].
      unfold line_has_key, line_new_build. cbn [key]. apply nm_streq_refl.
    - rewrite (svSetValue_present char_signed s k (Some v) A ln B)
        by assumption.
      cbv zeta. cbn [lineList].
      exists {| line := Some (svEscape char_signed v); key := key ln;
                key_with_prefix := key ln |}.
      split; [|reflexivity].
      apply _svGetValue_last_split; [|assumption].
      unfold line_has_key in *. cbn [key]. exact Hln. }
  destruct Hlast as (ln & Hlast & Hline).
  unfold _svGetValue. rewrite Hlast, Hline.
  now apply svUnescape_svEscape.
Qed.

(** X10.  A boolean that was set is read back: [svGetValueBoolean] after
    [svSetValueBoolean] returns [TRUE] or [FALSE] as set, never the
    fallback. *)
Theorem svGetValueBoolean_svSetValueBoolean
    (char_signed : bool) (s : shvarFile) (k : list Z) (value : bool)
    (fallback : Z) :
  svGetValueBoolean (svSetValueBoolean char_signed s k value) k fallback
  = if value then 1 else 0.
Proof.
  unfold svGetValueBoolean, svSetValueBoolean.
  rewrite _svGetValue_svSetValue
    by (apply is_cstrb_spec; now destruct value).
  now destruct value.
Qed.

Lemma g_ascii_strcasecmp_zero a : forall b,
  is_cstr a -> is_cstr b ->
  (g_ascii_strcasecmp a b = 0
   <-> map g_ascii_tolower a = map g_ascii_tolower b).
Proof.
  induction a as [|x a IH]; intros [|y b] Ha Hb; cbn [g_ascii_strcasecmp map].
  - tauto.
  - inversion Hb; subst. split; [lia | discriminate].
  - inversion Ha; subst. split; [lia | discriminate].
  - inversion Ha; inversion Hb; subst.
    destruct (Z.eqb_spec (g_ascii_tolower x) (g_ascii_tolower y)) as [E|E].
    + rewrite IH by assumption. rewrite E. split; congruence.
    + split; [lia | congruence].
Qed.

(** X11.  [svParseBoolean] does not look at the case of the letters: two
    strings that are equal once lowered give the same result, with any
    fallback. *)
Theorem svParseBoolean_case (v w : list Z) (fallback : Z) :
  is_cstr v -> is_cstr w ->
  map g_ascii_tolower v = map g_ascii_tolower w ->
  svParseBoolean (Some v) fallback = svParseBoolean (Some w) fallback.
Proof.
  intros Hv Hw E. unfold svParseBoolean.
  assert (H : forall a, is_cstr a ->
            (g_ascii_strcasecmp a v =? 0) = (g_ascii_strcasecmp a w =? 0)).
  { intros a Ha.
    destruct (Z.eqb_spec (g_ascii_strcasecmp a v) 0) as [H1|H1];
      destruct (Z.eqb_spec (g_ascii_strcasecmp a w) 0) as [H2|H2];
      try reflexivity; exfalso.
    - apply H2. apply g_ascii_strcasecmp_zero; try assumption.
      apply g_ascii_strcasecmp_zero in H1; try assumption. congruence.
    - apply H1. apply g_ascii_strcasecmp_zero; try assumption.
      apply g_ascii_strcasecmp_zero in H2; try assumption. congruence. }
  rewrite !H by (apply is_cstrb_spec; reflexivity). reflexivity.
Qed.

Lemma svParseBoolean_case_witness :
  svParseBoolean (Some (bytes "YES")) 0 = 1
  /\ svParseBoolean (Some (bytes "fAlSe")) 1 = 0.
Proof.
  split.
  - refine (eq_trans (svParseBoolean_case (bytes "YES") (bytes "yes") 0
                        _ _ eq_refl) eq_refl);
      apply is_cstrb_spec; reflexivity.
  - refine (eq_trans (svParseBoolean_case (bytes "fAlSe") (bytes "false") 1
                        _ _ eq_refl) eq_refl);
      apply is_cstrb_spec; reflexivity.
Defined.

(** X12.  [svGetValueBoolean] returns the fallback when the document has no
    record of the key, and after the key was unset. *)
Theorem svGetValueBoolean_fallback
    (char_signed : bool) (s : shvarFile) (k : list Z) (fallback : Z) :
  (existsb (fun ln => line_has_key ln k) (lineList s) = false ->
   svGetValueBoolean s k fallback = fallback)
  /\ svGetValueBoolean (svUnsetValue char_signed s k) k fallback = fallback.
Proof.
  split.
  - intros H. unfold svGetValueBoolean, _svGetValue.
    now rewrite _svGetValue_last_none by assumption.
  - unfold svGetValueBoolean, svUnsetValue, _svGetValue.
    destruct (last_key_split k (lineList s))
      as [Hno | (A & ln & B & Hl & Hln & HB)].
    + rewrite svSetValue_absent by assumption. cbn [lineList].
      now rewrite _svGetValue_last_none by assumption.
    + rewrite (svSetValue_present char_signed s k None A ln B)
        by assumption.
      cbv zeta. cbn [lineList].
      rewrite _svGetValue_last_split; [reflexivity | | assumption].
      unfold line_has_key in *. cbn [key]. exact Hln.
Qed.

Lemma svGetValueBoolean_fallback_witness :
  svGetValueBoolean
    {| fileName := bytes "ifcfg-eth0"; fd := -1;
       lineList := parse_arena (bytes "ONBOOT=yes" ++ [10]);
       modified := false |}
    (bytes "DEFROUTE") 1 = 1.
Proof.
  apply (svGetValueBoolean_fallback true). reflexivity.
Defined.

(** ** The encoder: sizes and bytes *)

Lemma _escape_ansic_char_length (char_signed : bool) (p : Z) :
  (List.length (_escape_ansic_char char_signed p) <= 4)%nat.
Proof.
  unfold _escape_ansic_char.
  repeat match goal with
         | |- context [if ?b then _ else _] => destruct b
         end; cbn; lia.
Qed.

Lemma flat_map_length_le {A B} (f : A -> list B) (n : nat) (l : list A) :
  (forall x, List.length (f x) <= n)%nat ->
  (List.length (flat_map f l) <= n * List.length l)%nat.
Proof.
  intros H. induction l as [|x l IH]; cbn [flat_map List.length]; [lia|].
  rewrite length_app. specialize (H x). lia.
Qed.

Lemma svEscape_char_length (s : list Z) :
  List.length (flat_map svEscape_char s)
  = (List.length s + List.length (filter _char_req_escape s))%nat.
Proof.
  induction s as [|c s IH]; [reflexivity|].
  cbn [flat_map filter]. rewrite length_app, IH. unfold svEscape_char.
  destruct (_char_req_escape c); cbn [List.length]; lia.
Qed.

(** X13.  The two buffers of the encoder are large enough, as its
    assertions say: with the terminator the ANSI-C form takes at most four
    bytes per byte of the value and four more, and the double-quoted form
    takes the length of the value, one byte per escaped byte and three
    more. *)
Theorem svEscape_buffer_sizes (char_signed : bool) (s : list Z) :
  (List.length (_escape_ansic char_signed s) + 1
   <= List.length s * 4 + 1 + 3)%nat
  /\ (List.length ([34] ++ flat_map svEscape_char s ++ [34])%Z + 1
      = List.length s + List.length (filter _char_req_escape s) + 3)%nat
  /\ (List.length (svEscape char_signed s) + 1
      <= List.length s * 4 + 1 + 3)%nat.
Proof.
  assert (H1 : (List.length (_escape_ansic char_signed s) + 1
                <= List.length s * 4 + 1 + 3)%nat).
  { unfold _escape_ansic. rewrite !length_app. cbn [List.length].
    pose proof (flat_map_length_le (_escape_ansic_char char_signed) 4 s
                  (_escape_ansic_char_length char_signed)). lia. }
  assert (H2 : (List.length ([34] ++ flat_map svEscape_char s ++ [34])%Z + 1
                = List.length s + List.length (filter _char_req_escape s)
                  + 3)%nat).
  { rewrite !length_app, svEscape_char_length. cbn [List.length]. lia. }
  split; [exact H1|]. split; [exact H2|].
  rewrite svEscape_spec.
  destruct (existsb (forces_ansic char_signed) s); [exact H1|].
  destruct (negb (existsb _char_req_escape s)
            && negb (existsb _char_req_quotes s)); [lia|].
  pose proof (filter_length_le _char_req_escape s). lia.
Qed.

Lemma _escape_ansic_char_printable_all (char_signed : bool) :
  forallb (fun n => forallb (fun c => (32 <=? c) && (c <? 127))
                      (_escape_ansic_char char_signed (Z.of_nat n)))
    (seq 1 255) = true.
Proof. destruct char_signed; vm_compute; reflexivity. Qed.

Lemma _escape_ansic_printable (char_signed : bool) (s : list Z) :
  is_cstr s ->
  Forall (fun c => 32 <= c < 127) (_escape_ansic char_signed s).
Proof.
  intros Hs. unfold _escape_ansic.
  apply Forall_app. split; [repeat (apply Forall_cons; [lia|]); apply Forall_nil|].
  apply Forall_app. split; [|repeat (apply Forall_cons; [lia|]); apply Forall_nil].
  apply Forall_flat_map. unfold is_cstr in Hs.
  rewrite Forall_forall in *. intros p Hp. specialize (Hs p Hp).
  pose proof (_escape_ansic_char_printable_all char_signed) as H.
  rewrite forallb_forall in H. specialize (H (Z.to_nat p)).
  rewrite Z2Nat.id in H by lia.
  assert (Hin : In (Z.to_nat p) (seq 1 255)) by (apply in_seq; lia).
  specialize (H Hin). rewrite forallb_forall in H.
  rewrite Forall_forall. intros c Hc. specialize (H c Hc).
  apply andb_true_iff in H. lia.
Qed.

Lemma svEscape_bytes (char_signed : bool) (v : list Z) :
  is_cstr v ->
  Forall (fun c => 0 < c < 256 /\ (32 <= c \/ c = 9))
    (svEscape char_signed v)
  /\ (ansic_form (svEscape char_signed v) ->
      Forall (fun c => 32 <= c < 127) (svEscape char_signed v)).
Proof.
  intros Hv.
  rewrite svEscape_spec.
    destruct (existsb (forces_ansic char_signed) v) eqn:Hf.
    - pose proof (_escape_ansic_printable char_signed v Hv) as Hp.
      split; [|intros _; exact Hp].
      eapply Forall_impl; [|exact Hp]. cbv beta. intros; lia.
    - assert (Hv' : Forall (fun c => 0 < c < 256 /\ (32 <= c \/ c = 9)) v).
      { unfold is_cstr in Hv. rewrite Forall_forall in *.
        intros c Hc. split; [now apply Hv|].
        assert (Hfc : forces_ansic char_signed c = false).
        { destruct (forces_ansic char_signed c) eqn:E; [|reflexivity].
          assert (existsb (forces_ansic char_signed) v = true)
            by (apply existsb_exists; eauto).
          congruence. }
        specialize (Hv c Hc).
        unfold forces_ansic, char_val in Hfc.
        destruct (_char_req_escape c) eqn:He.
        { apply NM_IN_SET_true in He. cbn in He. lia. }
        destruct (_char_req_quotes c) eqn:Hq.
        { apply NM_IN_SET_true in Hq. cbn in Hq. lia. }
        cbn [negb andb] in Hfc. destruct (Z.leb_spec 128 c); [lia|].
        rewrite andb_false_r in Hfc. apply Z.ltb_ge in Hfc. lia. }
      destruct (negb (existsb _char_req_escape v)
                && negb (existsb _char_req_quotes v)) eqn:Hp.
      + split; [exact Hv'|]. intros [body Hbody]. subst v.
        apply andb_true_iff in Hp. destruct Hp as [Hp _].
        cbn in Hp. discriminate.
      + split; [|intros [body Hbody]; discriminate].
        apply Forall_app. split; [repeat (apply Forall_cons; [lia|]); apply Forall_nil|].
        apply Forall_app. split; [|repeat (apply Forall_cons; [lia|]); apply Forall_nil].
        apply Forall_flat_map. eapply Forall_impl; [|exact Hv'].
        cbv beta. intros c Hc. unfold svEscape_char.
        destruct (_char_req_escape c); repeat (apply Forall_cons; [lia|]); apply Forall_nil.
Qed.

(** X14.  The encoding of a C string is a C string that fits on one line:
    it holds no newline and no other control byte than the tab, and in the
    ANSI-C form it is made of printable ASCII bytes only. *)
Theorem svEscape_one_line (char_signed : bool) (v : list Z) :
  is_cstr v ->
  is_cstr (svEscape char_signed v)
  /\ Forall (fun c => 32 <= c \/ c = 9) (svEscape char_signed v)
  /\ ~ In 10 (svEscape char_signed v)
  /\ (ansic_form (svEscape char_signed v) ->
      Forall (fun c => 32 <= c < 127) (svEscape char_signed v)).
Proof.
  intros Hv.
  destruct (svEscape_bytes char_signed v Hv) as [Hb Ha].
  split; [eapply Forall_impl; [|exact Hb]; cbv beta; intros; lia|].
  split; [eapply Forall_impl; [|exact Hb]; cbv beta; intros; lia|].
  split; [|exact Ha].
  intros Hin. rewrite Forall_forall in Hb. specialize (Hb 10 Hin). lia.
Qed.

Lemma svEscape_one_line_witness :
  ~ In 10 (svEscape true (bytes "two" ++ [10] ++ bytes "lines")).
Proof.
  apply (svEscape_one_line true (bytes "two" ++ [10] ++ bytes "lines")).
  apply is_cstrb_spec. reflexivity.
Defined.

(** ** The decoder: what may follow a value, and what is rejected *)

Lemma svUnescape_loop_unquoted_rest (char_signed : bool) (value l rest : list Z) :
  is_cstr l ->
  existsb (forces_ansic char_signed) l = false ->
  existsb _char_req_escape l = false ->
  existsb _char_req_quotes l = false ->
  forall i,
    svUnescape_loop value (l ++ rest) i None
    = svUnescape_loop value rest (i + List.length l) None.
Proof.
  induction 1 as [|c l Hc _ IH]; intros Hf He Hq i.
  - cbn [app List.length]. now rewrite Nat.add_0_r.
  - cbn [existsb] in Hf, He, Hq.
    apply orb_false_iff in Hf, He, Hq.
    destruct Hf as [Hf Hf'], He as [He He'], Hq as [Hq Hq'].
    assert (Hlow : 32 <= c).
    { unfold forces_ansic in Hf. rewrite He, Hq in Hf. cbn [negb andb] in Hf.
      unfold char_val in Hf.
      destruct (Z.leb_spec 128 c); [lia|].
      rewrite andb_false_r in Hf. apply Z.ltb_ge in Hf. exact Hf. }
    apply NM_IN_SET_false in He, Hq. simpl in He, Hq.
    cbn [app]. rewrite svUnescape_loop_regular.
    + cbn [option_map]. rewrite IH by assumption. cbn [List.length].
      f_equal. lia.
    + apply NM_IN_SET_false. simpl. lia.
    + apply NM_IN_SET_false. simpl. lia.
Qed.

Lemma svUnescape_loop_stop (value : list Z) c tail i str :
  g_ascii_isspace c || (c =? 59) = true ->
  svUnescape_loop value (c :: tail) i str
  = if NM_IN_SET (svUnescape_trailing (c =? 59) tail) [0; 35]
    then out_value value i str (c :: tail)
    else None.
Proof. intros H. cbn [svUnescape_loop]. now rewrite H. Qed.

Lemma svUnescape_trailing_blanks b ws rest :
  Forall is_blank ws ->
  svUnescape_trailing b (ws ++ rest) = svUnescape_trailing b rest.
Proof.
  induction 1 as [|c ws Hc _ IH]; [reflexivity|].
  cbn [app svUnescape_trailing]. now rewrite Hc.
Qed.

(** The encoding of a value followed by a blank or a semicolon: the value
    is returned if what follows is accepted, and nothing otherwise. *)
Lemma svUnescape_svEscape_then (char_signed : bool) (v : list Z) c tail :
  is_cstr v ->
  g_ascii_isspace c || (c =? 59) = true ->
  svUnescape (svEscape char_signed v ++ c :: tail)
  = if NM_IN_SET (svUnescape_trailing (c =? 59) tail) [0; 35]
    then Some v else None.
Proof.
  intros Hv Hc. rewrite svEscape_spec.
  destruct (existsb (forces_ansic char_signed) v) eqn:Hf.
  - unfold svUnescape, _escape_ansic. cbn [app]. rewrite <- app_assoc.
    rewrite svUnescape_loop_ansic. cbn [_gstr_init firstn app].
    match goal with
    | |- loop_ansic ?val _ ?i ?str = _ =>
        destruct (loop_ansic_escaped char_signed val v Hv (c :: tail) i str)
          as [n Hn]
    end.
    rewrite Hn, svUnescape_loop_stop by assumption.
    now rewrite out_value_str by assumption.
  - destruct (negb (existsb _char_req_escape v)
              && negb (existsb _char_req_quotes v)) eqn:Hplain.
    + apply andb_true_iff in Hplain. destruct Hplain as [He Hq].
      apply negb_true_iff in He, Hq.
      unfold svUnescape.
      rewrite (svUnescape_loop_unquoted_rest char_signed) by assumption.
      rewrite svUnescape_loop_stop by assumption. cbn [Nat.add].
      destruct (NM_IN_SET _ _); [|reflexivity].
      unfold out_value. destruct v as [|x v]; [reflexivity|].
      cbn [List.length Nat.eqb].
      change (S (List.length v)) with (List.length (x :: v)).
      now rewrite firstn_length_app.
    + unfold svUnescape. cbn [app]. rewrite <- app_assoc.
      rewrite svUnescape_loop_dquote. cbn [_gstr_init firstn app].
      match goal with
      | |- loop_dquote ?val _ ?i ?str = _ =>
          destruct (loop_dquote_escaped_all val v (c :: tail) i str)
            as [n Hn]
      end.
      rewrite Hn, svUnescape_loop_stop by assumption.
      now rewrite out_value_str by assumption.
Qed.

(** X15.  After an encoded value the decoder accepts a blank or one
    semicolon, then blanks, then the end of the line or a comment that
    starts with a hash sign, and returns the value: a trailing comment is
    not part of the value. *)
Theorem svUnescape_trailing_comment
    (char_signed : bool) (v ws rest : list Z) (sep : Z) :
  is_cstr v ->
  is_blank sep \/ sep = 59 ->
  Forall is_blank ws ->
  rest = [] \/ (exists comment, rest = 35 :: comment) ->
  svUnescape (svEscape char_signed v ++ sep :: ws ++ rest) = Some v.
Proof.
  intros Hv Hsep Hws Hrest.
  rewrite svUnescape_svEscape_then; [|assumption|].
  - rewrite svUnescape_trailing_blanks by assumption.
    destruct Hrest as [-> | [comment ->]]; [reflexivity|].
    cbn [svUnescape_trailing]. cbn.
    now destruct (negb (sep =? 59)).
  - destruct Hsep as [H | ->]; [|reflexivity].
    unfold is_blank in H. now rewrite H.
Qed.

Lemma svUnescape_trailing_comment_witness :
  svUnescape ([34] ++ bytes "a b" ++ [34] ++ bytes ";  # the name")
  = Some (bytes "a b").
Proof.
  apply (svUnescape_trailing_comment true (bytes "a b") [32; 32]
           (bytes "# the name") 59).
  - apply is_cstrb_spec. reflexivity.
  - right. reflexivity.
  - repeat constructor.
  - right. exists (bytes " the name"). reflexivity.
Defined.

(** X16.  After an encoded value and blanks, anything else than the end of
    the line, a comment or one semicolon makes the whole text malformed:
    a value followed by a command is rejected. *)
Theorem svUnescape_trailing_garbage
    (char_signed : bool) (v ws rest : list Z) (sep d : Z) :
  is_cstr v ->
  is_blank sep ->
  Forall is_blank ws ->
  g_ascii_isspace d = false -> d <> 59 -> d <> 35 -> d <> 0 ->
  svUnescape (svEscape char_signed v ++ sep :: ws ++ d :: rest) = None.
Proof.
  intros Hv Hsep Hws Hd H59 H35 H0.
  unfold is_blank in Hsep.
  rewrite svUnescape_svEscape_then by (try assumption; now rewrite Hsep).
  rewrite svUnescape_trailing_blanks by assumption.
  cbn [svUnescape_trailing]. rewrite Hd.
  destruct (Z.eqb_spec d 59) as [|_]; [contradiction|].
  rewrite andb_false_r.
  assert (E : NM_IN_SET d [0; 35] = false)
    by (apply NM_IN_SET_false; cbn; lia).
  now rewrite E.
Qed.

Lemma svUnescape_trailing_garbage_witness :
  svUnescape (bytes "C ls -1") = None.
Proof.
  apply (svUnescape_trailing_garbage true (bytes "C") [] (bytes "s -1") 32
           108).
  - apply is_cstrb_spec. reflexivity.
  - reflexivity.
  - constructor.
  - reflexivity.
  - discriminate.
  - discriminate.
  - discriminate.
Defined.

Lemma loop_squote_run (value v : list Z) : ~ In 39 v -> forall rest i str,
  exists n,
    loop_squote value (v ++ 39 :: rest) i str
    = svUnescape_loop value rest (S n) (Some (str ++ v)).
Proof.
  induction v as [|c v IH]; intros Hn rest i str.
  - exists i. cbn [app loop_squote]. cbn. now rewrite app_nil_r.
  - cbn [app loop_squote].
    destruct (Z.eqb_spec c 39) as [->|_]; [exfalso; apply Hn; now left|].
    destruct (IH (fun H => Hn (or_intror H)) rest (S i) (str ++ [c]))
      as [n Hn'].
    exists n. rewrite Hn'. now rewrite <- app_assoc.
Qed.

(** X17.  Between single quotes every byte stands for itself: a text
    without single quote, put between single quotes, decodes to that text,
    backslashes, dollars and double quotes included. *)
Theorem svUnescape_single_quoted (v : list Z) :
  is_cstr v -> ~ In 39 v ->
  svUnescape ([39] ++ v ++ [39]) = Some v.
Proof.
  intros Hv Hn. unfold svUnescape. cbn [app svUnescape_loop].
  cbn [g_ascii_isspace NM_IN_SET existsb Z.eqb Pos.eqb orb _gstr_init firstn].
  destruct (loop_squote_run ([39] ++ v ++ [39]) v Hn [] 1%nat []) as [n H].
  cbn [app] in H. rewrite H, svUnescape_loop_nil.
  now apply out_value_str.
Qed.

Lemma svUnescape_single_quoted_witness :
  svUnescape ([39] ++ (bytes "a\$b " ++ [34] ++ bytes "c `d`") ++ [39])
  = Some (bytes "a\$b " ++ [34] ++ bytes "c `d`").
Proof.
  apply (svUnescape_single_quoted (bytes "a\$b " ++ [34] ++ bytes "c `d`")).
  - apply is_cstrb_spec. reflexivity.
  - apply NM_IN_SET_false. reflexivity.
Defined.

Lemma loop_dquote_unterminated (value : list Z) (n : nat) : forall v i str,
  (List.length v <= n)%nat -> ~ In 34 v ->
  loop_dquote value v i str = None.
Proof.
  induction n as [|n IH]; intros v i str Hlen Hn.
  - destruct v; [reflexivity | cbn in Hlen; lia].
  - destruct v as [|c l1]; [reflexivity|]. cbn [loop_dquote].
    destruct (Z.eqb_spec c 34) as [->|_]; [exfalso; apply Hn; now left|].
    destruct (NM_IN_SET c [96; 36]); [reflexivity|].
    cbn [List.length] in Hlen.
    destruct (c =? 92).
    + destruct l1 as [|d l2]; [reflexivity|].
      apply IH; [cbn [List.length] in Hlen; lia|].
      intros H. apply Hn. right. now right.
    + apply IH; [lia|]. intros H. apply Hn. now right.
Qed.

Lemma loop_squote_unterminated (value v : list Z) : forall i str,
  ~ In 39 v -> loop_squote value v i str = None.
Proof.
  induction v as [|c v IH]; intros i str Hn; [reflexivity|].
  cbn [loop_squote].
  destruct (Z.eqb_spec c 39) as [->|_]; [exfalso; apply Hn; now left|].
  apply IH. intros H. apply Hn. now right.
Qed.

(** X18.  A quote that is not closed on the line makes the text malformed:
    a text that opens a single or a double quote and holds no second one
    is rejected, whatever follows the quote. *)
Theorem svUnescape_unterminated_quote (v : list Z) :
  (~ In 39 v -> svUnescape (39 :: v) = None)
  /\ (~ In 34 v -> svUnescape (34 :: v) = None).
Proof.
  split; intros Hn; unfold svUnescape.
  - change (svUnescape_loop (39 :: v) (39 :: v) 0 None)
      with (loop_squote (39 :: v) v 1 (_gstr_init (39 :: v) None 0)).
    now apply loop_squote_unterminated.
  - rewrite svUnescape_loop_dquote.
    now apply (loop_dquote_unterminated _ (List.length v)).
Qed.

Lemma svUnescape_unterminated_quote_witness :
  svUnescape ([34] ++ bytes "bad") = None.
Proof.
  apply (svUnescape_unterminated_quote (bytes "bad")).
  apply NM_IN_SET_false. reflexivity.
Defined.

Lemma _looks_like_old_svescaped_loop_old (v : list Z) :
  _looks_like_old_svescaped_loop
    (flat_map (fun c => if _char_req_escape_old c then [92; c] else [c]) v
     ++ [34]) = true.
Proof.
  induction v as [|c v IH]; [reflexivity|].
  cbn [flat_map]. rewrite <- app_assoc.
  destruct (_char_req_escape_old c) eqn:E; cbn [app].
  - cbn [_looks_like_old_svescaped_loop].
    change (_char_req_escape_old 92) with true. cbn [negb].
    change (92 =? 34) with false. change (92 =? 92) with true. cbv iota.
    now rewrite E.
  - cbn [_looks_like_old_svescaped_loop]. rewrite E. cbn [negb]. exact IH.
Qed.

Lemma loop_dquote_old_escaped (value : list Z) c tail i str :
  _looks_like_old_svescaped value = true ->
  _char_req_escape_old c = true ->
  loop_dquote value (92 :: c :: tail) i str
  = loop_dquote value tail (S (S i)) (str ++ [c]).
Proof.
  intros Hold E. cbn [loop_dquote]. change (92 =? 34) with false.
  change (NM_IN_SET 92 [96; 36]) with false.
  change (92 =? 92) with true. cbv iota. rewrite Hold.
  apply NM_IN_SET_true in E. cbn in E.
  destruct (NM_IN_SET c [36; 96; 34; 92]) eqn:E1; [reflexivity|].
  destruct (NM_IN_SET c [39; 126]) eqn:E2; [reflexivity|].
  apply NM_IN_SET_false in E1, E2. cbn in E1, E2. lia.
Qed.

Lemma loop_dquote_old (value v : list Z) :
  _looks_like_old_svescaped value = true -> forall rest i str,
  exists n,
    loop_dquote value
      (flat_map (fun c => if _char_req_escape_old c then [92; c] else [c]) v
       ++ 34 :: rest) i str
    = svUnescape_loop value rest (S n) (Some (str ++ v)).
Proof.
  intros Hold. induction v as [|c v IH]; intros rest i str.
  - exists i. cbn [flat_map app]. rewrite loop_dquote_close.
    now rewrite app_nil_r.
  - cbn [flat_map]. rewrite <- app_assoc.
    destruct (_char_req_escape_old c) eqn:E; cbn [app].
    + rewrite loop_dquote_old_escaped by assumption.
      destruct (IH rest (S (S i)) (str ++ [c])) as [n Hn].
      exists n. rewrite Hn. now rewrite <- app_assoc.
    + rewrite loop_dquote_plain.
      * destruct (IH rest (S i) (str ++ [c])) as [n Hn].
        exists n. rewrite Hn. now rewrite <- app_assoc.
      * apply NM_IN_SET_false in E. apply NM_IN_SET_false.
        cbn in *. intuition.
Qed.

(** X19.  Texts written by the former encoder are still read as it meant
    them: a value between double quotes in which every double quote,
    backslash, single quote, dollar, backtick and tilde stands behind a
    backslash is recognised by [_looks_like_old_svescaped] and decodes to
    the value, the backslash before a single quote or a tilde being
    dropped too. *)
Theorem svUnescape_old_svescaped (v : list Z) :
  is_cstr v ->
  let text :=
    [34]
    ++ flat_map (fun c => if _char_req_escape_old c then [92; c] else [c]) v
    ++ [34] in
  _looks_like_old_svescaped text = true /\ svUnescape text = Some v.
Proof.
  intros Hv. cbv zeta.
  assert (Hold : _looks_like_old_svescaped
                   ([34] ++ flat_map (fun c => if _char_req_escape_old c
                                               then [92; c] else [c]) v
                    ++ [34]) = true).
  { cbn [app _looks_like_old_svescaped]. change (34 =? 34) with true.
    cbv iota. apply _looks_like_old_svescaped_loop_old. }
  split; [exact Hold|].
  unfold svUnescape. cbn [app] in *. rewrite svUnescape_loop_dquote.
  cbn [_gstr_init firstn].
  destruct (loop_dquote_old _ v Hold [] 1%nat []) as [n Hn].
  rewrite Hn, svUnescape_loop_nil. now apply out_value_str.
Qed.

Lemma svUnescape_old_svescaped_witness :
  svUnescape ([34] ++ bytes "it\'s \~ \$5" ++ [34]) = Some (bytes "it's ~ $5").
Proof.
  apply (svUnescape_old_svescaped (bytes "it's ~ $5")).
  apply is_cstrb_spec. reflexivity.
Defined.

(** Outside the former encoder's pattern the backslash stays, as the shell
    has it. *)
Example svUnescape_not_old_svescaped :
  svUnescape ([34] ++ bytes "it\'s" ++ [34] ++ bytes "x") = Some (bytes "it\'sx").
Proof. reflexivity. Qed.

(** ** Reading a file and writing it back *)

Lemma cstr_of_no_nul (s : list Z) : ~ In 0 s -> cstr_of s = s.
Proof.
  induction s as [|b s IH]; intros H; [reflexivity|]. cbn [cstr_of].
  destruct (Z.eqb_spec b 0) as [->|_]; [exfalso; apply H; now left|].
  rewrite IH; [reflexivity|]. intros Hin. apply H. now right.
Qed.

Lemma split_lines_segment seg : ~ In 10 seg -> forall rest cur,
  split_lines (seg ++ 10 :: rest) cur = (cur ++ seg) :: split_lines rest [].
Proof.
  induction seg as [|c seg IH]; intros Hn rest cur.
  - cbn. now rewrite app_nil_r.
  - cbn [app split_lines].
    destruct (Z.eqb_spec c 10) as [->|_]; [exfalso; apply Hn; now left|].
    rewrite IH by (intros H; apply Hn; now right).
    now rewrite <- app_assoc.
Qed.

Lemma split_lines_join segs :
  Forall is_line segs ->
  split_lines (flat_map with_newline segs) [] = segs.
Proof.
  induction 1 as [|seg segs [Hn _] _ IH]; [reflexivity|].
  cbn [flat_map]. unfold with_newline at 1. rewrite <- app_assoc.
  cbn [app]. rewrite split_lines_segment by assumption.
  cbn [app]. now rewrite IH.
Qed.

Lemma flat_map_no_nul segs :
  Forall is_line segs -> ~ In 0 (flat_map with_newline segs).
Proof.
  induction 1 as [|seg segs [_ H0] _ IH]; [intros []|].
  cbn [flat_map]. unfold with_newline at 1. intros H.
  apply in_app_or in H. destruct H as [H | H]; [|contradiction].
  apply in_app_or in H. destruct H as [H | [H | []]];
    [contradiction | discriminate].
Qed.

Lemma parse_arena_join segs :
  Forall is_line segs ->
  parse_arena (flat_map with_newline segs) = map line_new_parse segs.
Proof.
  intros H. unfold parse_arena.
  rewrite cstr_of_no_nul by now apply flat_map_no_nul.
  now rewrite split_lines_join.
Qed.

Lemma cstr_of_no_nul_in (buf : list Z) : ~ In 0 (cstr_of buf).
Proof.
  induction buf as [|b buf IH]; [intros []|]. cbn [cstr_of].
  destruct (Z.eqb_spec b 0) as [|Hb]; [intros []|].
  intros [H | H]; [congruence | contradiction].
Qed.

Lemma split_lines_are_lines arena : forall cur,
  ~ In 0 arena -> is_line cur ->
  Forall is_line (split_lines arena cur).
Proof.
  induction arena as [|c arena IH]; intros cur H0 Hcur.
  - cbn. destruct cur; constructor; [assumption | constructor].
  - cbn [split_lines].
    assert (H0' : ~ In 0 arena) by (intros H; apply H0; now right).
    destruct (Z.eqb_spec c 10) as [->|Hc].
    + constructor; [assumption|]. apply IH; [assumption|].
      split; intros [].
    + apply IH; [assumption|]. destruct Hcur as [H1 H2].
      split; intros H; apply in_app_or in H; destruct H as [H | [H | []]];
        try contradiction; subst.
      apply H0. now left.
Qed.

Lemma svWriteFile_line_marked seg :
  svWriteFile_line (line_new_parse (NM_marker ++ seg))
  = with_newline (NM_marker ++ seg).
Proof. reflexivity. Qed.

Lemma svWriteFile_line_raw_if seg :
  svWriteFile_line (line_raw seg)
  = if NM_IN_SET (nth 0 (nm_str_skip_leading_spaces seg) 0) [0; 35]
    then seg ++ [10] else NM_marker ++ seg ++ [10].
Proof. reflexivity. Qed.

Lemma svWriteFile_line_assign_if k kp v :
  svWriteFile_line {| line := Some v; key := Some k;
                      key_with_prefix := Some kp |}
  = match svUnescape v with
    | Some _ => kp ++ [61] ++ v ++ [10]
    | None => (k ++ [61; 10]) ++ NM_marker ++ kp ++ [61] ++ v ++ [10]
    end.
Proof. reflexivity. Qed.

(** What the write-back prints for a parsed line: lines, each of which is
    printed again as it is once parsed again. *)
Lemma svWriteFile_line_stable seg :
  is_line seg ->
  exists outs,
    svWriteFile_line (line_new_parse seg) = flat_map with_newline outs
    /\ Forall is_line outs
    /\ Forall (fun o => svWriteFile_line (line_new_parse o) = with_newline o)
         outs.
Proof.
  intros Hseg.
  assert (Hmark : is_line (NM_marker ++ seg)).
  { destruct Hseg as [H1 H2].
    split; intros H; apply in_app_or in H; destruct H as [H | H];
      try contradiction; cbn in H; lia. }
  destruct (line_new_parse_from_spec seg [] (Forall_nil _))
    as [[H _] | (ws & k & v & Heq & Hws & Hk & H)];
    cbv zeta in *; cbn [app List.length] in *;
    fold (line_new_parse seg) in H.
  - rewrite H, svWriteFile_line_raw_if.
    destruct (NM_IN_SET (nth 0 (nm_str_skip_leading_spaces seg) 0) [0; 35])
      eqn:E.
    + exists [seg].
      split; [cbn [flat_map]; unfold with_newline; now rewrite app_nil_r|].
      split; [now constructor|]. constructor; [|constructor].
      rewrite H, svWriteFile_line_raw_if. now rewrite E.
    + exists [NM_marker ++ seg].
      split; [cbn [flat_map]; unfold with_newline;
              now rewrite app_nil_r, <- app_assoc|].
      split; [now constructor|]. constructor; [|constructor].
      apply svWriteFile_line_marked.
  - assert (Hkline : is_line (k ++ [61])).
    { destruct Hseg as [H1 H2]. rewrite Heq in H1, H2.
      split; intros X; apply in_app_or in X; destruct X as [X | [X | []]];
        try discriminate.
      - apply H1. apply in_or_app. right. apply in_or_app. now left.
      - apply H2. apply in_or_app. right. apply in_or_app. now left. }
    rewrite H, svWriteFile_line_assign_if.
    destruct (svUnescape v) eqn:E.
    + exists [seg]. split.
      * cbn [flat_map]. unfold with_newline. rewrite app_nil_r, Heq.
        now rewrite <- !app_assoc.
      * split; [now constructor|]. constructor; [|constructor].
        rewrite H, svWriteFile_line_assign_if, E.
        unfold with_newline. rewrite Heq. now rewrite <- !app_assoc.
    + exists [k ++ [61]; NM_marker ++ seg]. split.
      * cbn [flat_map]. unfold with_newline. rewrite app_nil_r, Heq.
        now rewrite <- !app_assoc.
      * split; [constructor; [assumption|];
                constructor; [assumption | constructor]|].
        constructor; [|constructor; [apply svWriteFile_line_marked
                                    |constructor]].
        change (k ++ [61]) with ([] ++ k ++ 61 :: []).
        rewrite line_new_parse_blanks_name by (try constructor; assumption).
        rewrite svWriteFile_line_assign_if.
        change (svUnescape []) with (Some (@nil Z)). cbv iota.
        unfold with_newline. cbn [app]. now rewrite <- app_assoc.
Qed.

Lemma svWriteFile_lines_stable segs :
  Forall is_line segs ->
  exists outs,
    svWriteFile_lines (map line_new_parse segs) = flat_map with_newline outs
    /\ Forall is_line outs
    /\ Forall (fun o => svWriteFile_line (line_new_parse o) = with_newline o)
         outs.
Proof.
  induction 1 as [|seg segs Hseg _ (outs & E & Hl & Hf)].
  - exists []. repeat split; constructor.
  - destruct (svWriteFile_line_stable seg Hseg) as (o1 & E1 & Hl1 & Hf1).
    exists (o1 ++ outs). split; [|split].
    + cbn [map]. unfold svWriteFile_lines in *. cbn [flat_map].
      now rewrite E, E1, flat_map_app.
    + now apply Forall_app.
    + now apply Forall_app.
Qed.

Lemma svWriteFile_lines_fixed outs :
  Forall (fun o => svWriteFile_line (line_new_parse o) = with_newline o) outs ->
  svWriteFile_lines (map line_new_parse outs) = flat_map with_newline outs.
Proof.
  induction 1 as [|o outs Ho _ IH]; [reflexivity|].
  cbn [map flat_map]. unfold svWriteFile_lines in *. cbn [flat_map].
  now rewrite Ho, IH.
Qed.

(** X20.  What the write-back prints is stable: reading the bytes it
    printed for a file and printing them again gives the same bytes, for
    any file.  The lines commented out behind the marker are plain
    comments from then on. *)
Theorem svWriteFile_lines_stable_output (arena : list Z) :
  let out := svWriteFile_lines (parse_arena arena) in
  svWriteFile_lines (parse_arena out) = out.
Proof.
  cbv zeta.
  assert (Hsegs : Forall is_line (split_lines (cstr_of arena) [])).
  { apply split_lines_are_lines; [apply cstr_of_no_nul_in|].
    split; intros []. }
  destruct (svWriteFile_lines_stable _ Hsegs) as (outs & E & Hl & Hf).
  change (svWriteFile_lines (parse_arena arena)
          = flat_map with_newline outs) in E.
  rewrite E, parse_arena_join by assumption.
  now apply svWriteFile_lines_fixed.
Qed.

(** X21.  A file that the code understands is written back byte for byte:
    if every line, newline-ended, is blank, a comment, or an assignment
    whose value decodes, the write-back prints the bytes that were read. *)
Theorem svWriteFile_lines_clean_file (segs : list (list Z)) :
  Forall is_line segs ->
  Forall (fun seg =>
            blank_or_comment seg
            \/ exists ws k v,
                 seg = ws ++ k ++ 61 :: v /\ Forall is_blank ws
                 /\ _shell_is_name k = true /\ svUnescape v <> None) segs ->
  svWriteFile_lines (parse_arena (flat_map with_newline segs))
  = flat_map with_newline segs.
Proof.
  intros Hl Hc. rewrite parse_arena_join by assumption.
  apply svWriteFile_lines_fixed.
  rewrite Forall_forall in *. intros seg Hin.
  specialize (Hl seg Hin).
  destruct (Hc seg Hin) as [Hb | (ws & k & v & -> & Hws & Hk & Hv)].
  - destruct (line_new_parse_from_spec seg [] (Forall_nil _))
      as [[H _] | (ws & k & v & Heq & Hws & Hk & H)];
      cbv zeta in *; cbn [app List.length] in *;
      fold (line_new_parse seg) in H.
    + rewrite H, svWriteFile_line_raw_if. unfold with_newline.
      destruct Hb as [Hb | (ws & rest & -> & Hws)].
      * now rewrite nm_str_skip_leading_spaces_blank.
      * now rewrite nm_str_skip_leading_spaces_app.
    + exfalso.
      assert (Hskip : nm_str_skip_leading_spaces seg = k ++ 61 :: v).
      { rewrite Heq, nm_str_skip_leading_spaces_blanks by assumption.
        destruct k as [|c name]; [discriminate|].
        rewrite _shell_is_name_head in Hk. apply andb_true_iff in Hk.
        destruct Hk as [Ha _]. cbn [app nm_str_skip_leading_spaces].
        now rewrite (alpha_not_blank c Ha). }
      destruct k as [|c name]; [discriminate|].
      rewrite _shell_is_name_head in Hk. apply andb_true_iff in Hk.
      destruct Hk as [Ha _].
      destruct Hb as [Hb | (ws' & rest & E & Hws')].
      * rewrite nm_str_skip_leading_spaces_blank in Hskip by assumption.
        discriminate.
      * rewrite E, nm_str_skip_leading_spaces_app in Hskip
          by (try assumption; reflexivity).
        injection Hskip as <- _. cbn in Ha. discriminate.
  - rewrite line_new_parse_blanks_name by assumption.
    rewrite svWriteFile_line_assign_if. unfold with_newline.
    destruct (svUnescape v); [|congruence].
    now rewrite <- !app_assoc.
Qed.

Lemma is_line_check (seg : list Z) :
  NM_IN_SET 10 seg = false -> NM_IN_SET 0 seg = false -> is_line seg.
Proof. intros H1 H2. split; now apply NM_IN_SET_false. Qed.

Lemma svWriteFile_lines_clean_file_witness :
  let arena := bytes "# eth0" ++ [10] ++ [] ++ [10]
               ++ bytes "  DEVICE=eth0" ++ [10]
               ++ bytes "NAME='my lan' # name" ++ [10] in
  svWriteFile_lines (parse_arena arena) = arena.
Proof.
  cbv zeta.
  apply (svWriteFile_lines_clean_file
           [bytes "# eth0"; []; bytes "  DEVICE=eth0";
            bytes "NAME='my lan' # name"]).
  - repeat (apply Forall_cons; [apply is_line_check; reflexivity|]).
    apply Forall_nil.
  - constructor; [left; right; exists [], (bytes " eth0"); split;
                  [reflexivity | constructor]|].
    constructor; [left; left; constructor|].
    constructor.
    { right. exists [32; 32], (bytes "DEVICE"), (bytes "eth0").
      split; [reflexivity|]. split; [repeat constructor|].
      split; [reflexivity | discriminate]. }
    constructor; [|constructor].
    right. exists [], (bytes "NAME"), (bytes "'my lan' # name").
    split; [reflexivity|]. split; [constructor|].
    split; [reflexivity | discriminate].
Defined.



(** A stream that fails: with room for two bytes only, the file holds the
    first two bytes of the line and the call returns [TRUE]; and with
    [fdopen] failing the call has no result. *)
Example svWriteFile_short_write :
  let w := {| w_access := ReadWrite; w_disk := bytes "A=1" ++ [10];
              w_read_ok := true; w_create_ok := true;
              w_ftruncate_ok := true; w_dup_ok := true; w_fdopen_ok := true;
              w_write_limit := Some 2%nat; w_trace := [] |} in
  let w0 := {| w_access := ReadWrite; w_disk := bytes "A=1" ++ [10];
               w_read_ok := true; w_create_ok := true;
               w_ftruncate_ok := true; w_dup_ok := true;
               w_fdopen_ok := false;
               w_write_limit := None; w_trace := [] |} in
  let s := {| fileName := bytes "ifcfg-eth0"; fd := 3;
              lineList := parse_arena (w_disk w); modified := true |} in
  ok_of (svWriteFile s 420 w) = Some true
  /\ disk_of (svWriteFile s 420 w) = Some (bytes "A=")
  /\ svWriteFile s 420 w0 = None.
Proof. cbn. repeat split. Qed.



(** X24.  [svCreateFile] gives an empty document, without descriptor and
    not modified, when the file does not exist; it fails only when the file
    exists and cannot be read; and it keeps a descriptor exactly when the
    file could be opened for writing.  [svOpenFile] fails when the file
    does not exist or cannot be read, and never keeps a descriptor. *)
Theorem svCreateFile_svOpenFile_results (name : list Z) (w : world) :
  (w_access w = NoFile -> svCreateFile name w = Some (svFile_new name))
  /\ (svCreateFile name w = None
      <-> w_access w <> NoFile /\ w_read_ok w = false)
  /\ (forall s, svCreateFile name w = Some s ->
      modified s = false /\ fileName s = name
      /\ (fd s <> -1 <-> w_access w = ReadWrite))
  /\ (svOpenFile name w = None
      <-> w_access w = NoFile \/ w_read_ok w = false)
  /\ (forall s, svOpenFile name w = Some s ->
      fd s = -1 /\ modified s = false /\ fileName s = name
      /\ lineList s = parse_arena (w_disk w)).
Proof.
  unfold svCreateFile, svOpenFile, svOpenFileInternal, svFile_new.
  destruct (w_access w), (w_read_ok w); cbn;
    repeat split; try (intros; discriminate); try tauto;
    try (intros s H; injection H as <-; cbn; repeat split;
         try (intros; discriminate); try tauto; try congruence);
    try (intros [H | H]; discriminate);
    try (intros [H _]; congruence);
    try (intros H; exfalso; apply H; reflexivity).
  all: try (intros [_ X]; discriminate X).
  all: injection H as <-; cbn; try reflexivity.
  all: try (intros X; exfalso; apply X; reflexivity).
  all: intros _ X; discriminate X.
Qed.

Lemma svCreateFile_svOpenFile_results_witness :
  let w := {| w_access := NoFile; w_disk := []; w_read_ok := true;
              w_create_ok := true; w_ftruncate_ok := true;
              w_dup_ok := true; w_fdopen_ok := true; w_write_limit := None;
              w_trace := [] |} in
  svCreateFile (bytes "ifcfg-new") w = Some (svFile_new (bytes "ifcfg-new"))
  /\ svOpenFile (bytes "ifcfg-new") w = None.
Proof.
  cbv zeta. split.
  - apply svCreateFile_svOpenFile_results. reflexivity.
  - apply svCreateFile_svOpenFile_results. left. reflexivity.
Defined.

Lemma plain_bytes_existsb (v : list Z) :
  Forall (fun b => 32 <= b) v -> ~ Exists special_byte v ->
  existsb (forces_ansic false) v = false
  /\ existsb _char_req_escape v = false
  /\ existsb _char_req_quotes v = false.
Proof.
  intros Hlow Hs.
  assert (He : forall c, In c v ->
            _char_req_escape c = false /\ _char_req_quotes c = false).
  { intros c Hc.
    destruct (_char_req_escape c) eqn:E1;
      [exfalso; apply Hs, Exists_exists; exists c; split;
       [assumption | now left]|].
    destruct (_char_req_quotes c) eqn:E2;
      [exfalso; apply Hs, Exists_exists; exists c; split;
       [assumption | now right]|].
    auto. }
  rewrite Forall_forall in Hlow.
  repeat split.
  - destruct (existsb (forces_ansic false) v) eqn:E; [|reflexivity].
    apply existsb_exists in E. destruct E as (c & Hc & E).
    unfold forces_ansic, char_val in E. cbn [andb] in E.
    apply andb_true_iff in E. destruct E as [_ E].
    apply Z.ltb_lt in E. specialize (Hlow c Hc). lia.
  - destruct (existsb _char_req_escape v) eqn:E; [|reflexivity].
    apply existsb_exists in E. destruct E as (c & Hc & E).
    destruct (He c Hc). congruence.
  - destruct (existsb _char_req_quotes v) eqn:E; [|reflexivity].
    apply existsb_exists in E. destruct E as (c & Hc & E).
    destruct (He c Hc). congruence.
Qed.

Lemma loop_dquote_plain_run (value v : list Z) :
  existsb _char_req_escape v = false -> forall tail i str,
  exists n,
    loop_dquote value (v ++ tail) i str
    = loop_dquote value tail n (str ++ v).
Proof.
  induction v as [|c v IH]; intros He tail i str.
  - exists i. cbn [app]. now rewrite app_nil_r.
  - cbn [existsb] in He. apply orb_false_iff in He. destruct He as [Hc He].
    cbn [app]. rewrite loop_dquote_plain.
    + destruct (IH He tail (S i) (str ++ [c])) as [n Hn].
      exists n. rewrite Hn. now rewrite <- app_assoc.
    + apply NM_IN_SET_false in Hc. apply NM_IN_SET_false.
      cbn in *. intuition.
Qed.

(** X25.  Three shell constructs that the decoder rejects.  After plain
    bytes (no blank, no quote, no backslash, no dollar, no metacharacter),
    a bare pipe, ampersand, parenthesis or angle bracket makes the text
    malformed, and so does a backslash that ends the line; between double
    quotes a bare dollar or backtick does.  Nothing is said here of a
    dollar or a backtick outside quotes: the decoder takes these as plain
    bytes, as [svUnescape_unquoted_expansion] below shows. *)
Theorem svUnescape_rejects_shell (v rest : list Z) (c : Z) :
  is_cstr v -> Forall (fun b => 32 <= b) v -> ~ Exists special_byte v ->
  (In c [124; 38; 40; 41; 60; 62] -> svUnescape (v ++ c :: rest) = None)
  /\ svUnescape (v ++ [92]) = None
  /\ (In c [36; 96] -> svUnescape ([34] ++ v ++ c :: rest) = None).
Proof.
  intros Hv Hlow Hs.
  destruct (plain_bytes_existsb v Hlow Hs) as (Hf & He & Hq).
  split; [|split].
  - intros Hc. unfold svUnescape.
    rewrite (svUnescape_loop_unquoted_rest false) by assumption.
    cbn in Hc.
    destruct Hc as [<- | [<- | [<- | [<- | [<- | [<- | []]]]]]]; reflexivity.
  - unfold svUnescape.
    rewrite (svUnescape_loop_unquoted_rest false) by assumption.
    reflexivity.
  - intros Hc. unfold svUnescape. cbn [app].
    rewrite svUnescape_loop_dquote.
    match goal with
    | |- loop_dquote ?val _ ?i ?str = _ =>
        destruct (loop_dquote_plain_run val v He (c :: rest) i str) as [n Hn]
    end.
    rewrite Hn. cbn in Hc. destruct Hc as [<- | [<- | []]]; reflexivity.
Qed.

Lemma Forall_from_space (v : list Z) :
  forallb (fun b => 32 <=? b) v = true -> Forall (fun b => 32 <= b) v.
Proof.
  intros H. rewrite forallb_forall in H. apply Forall_forall.
  intros x Hx. apply Z.leb_le. now apply H.
Qed.

Lemma svUnescape_rejects_shell_witness :
  svUnescape (bytes "eth0|cat") = None
  /\ svUnescape ([34] ++ bytes "eth$IF" ++ [34]) = None.
Proof.
  assert (Hs : ~ Exists special_byte (bytes "eth")).
  { intros H. apply Exists_exists in H. destruct H as (x & Hx & H).
    unfold special_byte, _char_req_escape, _char_req_quotes in H.
    rewrite !NM_IN_SET_true in H. cbn in Hx, H. lia. }
  assert (Hs0 : ~ Exists special_byte (bytes "eth0")).
  { intros H. apply Exists_exists in H. destruct H as (x & Hx & H).
    unfold special_byte, _char_req_escape, _char_req_quotes in H.
    rewrite !NM_IN_SET_true in H. cbn in Hx, H. lia. }
  split.
  - refine (proj1 (svUnescape_rejects_shell (bytes "eth0") (bytes "cat") 124
                     _ _ Hs0) (or_introl eq_refl)).
    + apply is_cstrb_spec. reflexivity.
    + apply Forall_from_space. reflexivity.
  - refine (proj2 (proj2 (svUnescape_rejects_shell (bytes "eth")
                            (bytes "IF" ++ [34]) 36 _ _ Hs))
              (or_introl eq_refl)).
    + apply is_cstrb_spec. reflexivity.
    + apply Forall_from_space. reflexivity.
Defined.

(** Outside quotes the decoder does not look for expansions: a dollar
    that starts no [$'] string and a backtick are kept as they are, where
    the shell would expand the variable and run the command. *)
Example svUnescape_unquoted_expansion :
  svUnescape (bytes "$HOME") = Some (bytes "$HOME")
  /\ svUnescape (bytes "`reboot`") = Some (bytes "`reboot`")
  /\ svUnescape (bytes "eth$IF") = Some (bytes "eth$IF").
Proof. repeat split. Qed.

(** ** What is set is what is read after the file was written *)

Lemma _shell_is_name_line (k : list Z) :
  _shell_is_name k = true -> is_line k.
Proof.
  intros H.
  assert (Hb : Forall (fun c => 48 <= c) k).
  { destruct k as [|c name]; [constructor|].
    rewrite _shell_is_name_head in H. apply andb_true_iff in H.
    destruct H as [Hc Hn]. constructor.
    - unfold g_ascii_isalpha in Hc. revert Hc.
      byte_tests; cbn; intros; try discriminate; lia.
    - rewrite forallb_forall in Hn. apply Forall_forall. intros x Hx.
      specialize (Hn x Hx).
      unfold is_name_byte, g_ascii_isalnum, g_ascii_isalpha, g_ascii_isdigit
        in Hn.
      revert Hn. byte_tests; cbn; intros; try discriminate; lia. }
  rewrite Forall_forall in Hb.
  split; intros Hin; specialize (Hb _ Hin); lia.
Qed.

Lemma svEscape_line (char_signed : bool) (v : list Z) :
  is_cstr v -> is_line (svEscape char_signed v).
Proof.
  intros Hv. destruct (svEscape_bytes char_signed v Hv) as [Hb _].
  rewrite Forall_forall in Hb.
  split; intros Hin; specialize (Hb _ Hin); lia.
Qed.

Lemma is_line_app a b : is_line a -> is_line b -> is_line (a ++ b).
Proof.
  intros [A1 A2] [B1 B2].
  split; intros H; apply in_app_or in H; tauto.
Qed.

(** The lines printed for a parsed line are lines, and parse to records of
    no other key than the line's. *)
Lemma svWriteFile_line_keys seg :
  is_line seg ->
  exists outs,
    svWriteFile_line (line_new_parse seg) = flat_map with_newline outs
    /\ Forall is_line outs
    /\ forall k, line_has_key (line_new_parse seg) k = false ->
         existsb (fun x => line_has_key x k) (map line_new_parse outs) = false.
Proof.
  intros Hseg.
  assert (Hmark : is_line (NM_marker ++ seg)).
  { apply is_line_app; [apply is_line_check; reflexivity | assumption]. }
  destruct (line_new_parse_from_spec seg [] (Forall_nil _))
    as [[H _] | (ws & k' & v & Heq & Hws & Hk & H)];
    cbv zeta in *; cbn [app List.length] in *;
    fold (line_new_parse seg) in H.
  - rewrite (f_equal svWriteFile_line H), svWriteFile_line_raw_if.
    destruct (NM_IN_SET (nth 0 (nm_str_skip_leading_spaces seg) 0) [0; 35]).
    + exists [seg].
      split; [cbn [flat_map]; unfold with_newline; now rewrite app_nil_r|].
      split; [now constructor|].
      intros k Hkk. cbn [map existsb]. now rewrite Hkk.
    + exists [NM_marker ++ seg].
      split; [cbn [flat_map]; unfold with_newline;
              now rewrite app_nil_r, <- app_assoc|].
      split; [now constructor|]. intros k _. reflexivity.
  - assert (Hkline : is_line (k' ++ [61])).
    { apply is_line_app; [now apply _shell_is_name_line|].
      apply is_line_check; reflexivity. }
    rewrite (f_equal svWriteFile_line H), svWriteFile_line_assign_if.
    destruct (svUnescape v).
    + exists [seg]. split.
      * cbn [flat_map]. unfold with_newline. rewrite app_nil_r, Heq.
        now rewrite <- !app_assoc.
      * split; [now constructor|].
        intros k Hkk. cbn [map existsb]. now rewrite Hkk.
    + exists [k' ++ [61]; NM_marker ++ seg]. split.
      * cbn [flat_map]. unfold with_newline. rewrite app_nil_r, Heq.
        now rewrite <- !app_assoc.
      * split; [constructor; [assumption|];
                constructor; [assumption | constructor]|].
        intros k Hkk. rewrite H in Hkk.
        change (k' ++ [61]) with ([] ++ k' ++ 61 :: []).
        cbn [map]. rewrite line_new_parse_blanks_name
          by (try constructor; assumption).
        cbn [existsb]. unfold line_has_key in *. cbn [key] in *.
        rewrite Hkk. reflexivity.
Qed.

Lemma svWriteFile_lines_keys segs :
  Forall is_line segs ->
  exists outs,
    svWriteFile_lines (map line_new_parse segs) = flat_map with_newline outs
    /\ Forall is_line outs
    /\ forall k,
         existsb (fun x => line_has_key x k) (map line_new_parse segs) = false ->
         existsb (fun x => line_has_key x k) (map line_new_parse outs) = false.
Proof.
  induction 1 as [|seg segs Hseg _ (outs & E & Hl & Hk)].
  - exists []. split; [reflexivity|]. split; [constructor | auto].
  - destruct (svWriteFile_line_keys seg Hseg) as (o1 & E1 & Hl1 & Hk1).
    exists (o1 ++ outs). split; [|split].
    + cbn [map]. unfold svWriteFile_lines in *. cbn [flat_map].
      now rewrite E, E1, flat_map_app.
    + now apply Forall_app.
    + intros k Hno. cbn [map existsb] in Hno.
      apply orb_false_iff in Hno. destruct Hno as [H1 H2].
      rewrite map_app, existsb_app, Hk1, Hk by assumption. reflexivity.
Qed.

Lemma filter_map_parse (f : shvarLine -> bool) segs :
  filter f (map line_new_parse segs)
  = map line_new_parse (filter (fun seg => f (line_new_parse seg)) segs).
Proof.
  induction segs as [|seg segs IH]; [reflexivity|]. cbn [map filter].
  destruct (f (line_new_parse seg)); cbn [map]; now rewrite IH.
Qed.

Lemma Forall_filter_line (f : list Z -> bool) segs :
  Forall is_line segs -> Forall is_line (filter f segs).
Proof.
  intros H. rewrite Forall_forall in *. intros x Hx.
  apply filter_In in Hx. now apply H.
Qed.

(** X26.  What is set reaches the file and comes back: after a key was set
    in a document read from any file, the bytes that the write-back prints,
    read again, give the value for the key. *)
Theorem svGetValueString_after_write
    (char_signed : bool) (s s2 : shvarFile) (arena k v : list Z) :
  lineList s = parse_arena arena ->
  _shell_is_name k = true -> is_cstr v -> v <> [] ->
  lineList s2
  = parse_arena
      (svWriteFile_lines (lineList (svSetValue char_signed s k (Some v)))) ->
  svGetValueString s2 k = Some v.
Proof.
  intros Hs Hk Hv Hne Hs2.
  set (enc := svEscape char_signed v).
  set (rec := {| line := Some enc; key := Some k; key_with_prefix := Some k |}).
  assert (Hrecline : is_line (k ++ 61 :: enc)).
  { apply is_line_app; [now apply _shell_is_name_line|].
    change (61 :: enc) with ([61] ++ enc).
    apply is_line_app; [apply is_line_check; reflexivity|].
    now apply svEscape_line. }
  assert (Hrecparse : line_new_parse (k ++ 61 :: enc) = rec).
  { change (k ++ 61 :: enc) with ([] ++ k ++ 61 :: enc).
    now rewrite line_new_parse_blanks_name by (try constructor; assumption). }
  assert (Hreckey : line_has_key rec k = true).
  { unfold line_has_key, rec. cbn [key]. apply nm_streq_refl. }
  assert (Hrecout : svWriteFile_lines [rec]
                    = flat_map with_newline [k ++ 61 :: enc]).
  { unfold svWriteFile_lines. cbn [flat_map]. unfold rec.
    rewrite svWriteFile_line_assign_if. unfold enc.
    rewrite svUnescape_svEscape by assumption.
    unfold with_newline. now rewrite <- !app_assoc. }
  assert (Hsegs : Forall is_line (split_lines (cstr_of arena) [])).
  { apply split_lines_are_lines; [apply cstr_of_no_nul_in|].
    split; intros []. }
  unfold parse_arena in Hs. remember (split_lines (cstr_of arena) []) as segs.
  clear Heqsegs.
  assert (Hgoal : exists R1 R2,
            lineList s2 = R1 ++ rec :: R2
            /\ existsb (fun x => line_has_key x k) R2 = false).
  { destruct (last_key_split k (lineList s))
      as [Hno | (A & ln & B & Hl & Hln & HB)].
    - rewrite svSetValue_absent in Hs2 by assumption. cbn [lineList] in Hs2.
      rewrite Hs in Hs2.
      destruct (svWriteFile_lines_keys segs Hsegs) as (outs & E & Hl & _).
      rewrite svWriteFile_lines_app, E in Hs2.
      change [line_new_build char_signed k v] with [rec] in Hs2.
      rewrite Hrecout in Hs2.
      rewrite <- flat_map_app, parse_arena_join, map_app in Hs2
        by (apply Forall_app; split; [assumption | now constructor]).
      cbn [map] in Hs2. rewrite Hrecparse in Hs2.
      exists (map line_new_parse outs), []. auto.
    - rewrite (svSetValue_present char_signed s k (Some v) A ln B) in Hs2
        by assumption.
      cbv zeta in Hs2. cbn [lineList] in Hs2.
      rewrite (line_has_key_key k ln Hln) in Hs2. fold enc rec in Hs2.
      rewrite Hs in Hl. apply map_eq_app in Hl.
      destruct Hl as (sA & sB' & -> & HA & HB').
      destruct sB' as [|sl sB]; [discriminate|].
      cbn [map] in HB'. injection HB' as _ HB'. subst A B.
      apply Forall_app in Hsegs. destruct Hsegs as [HsA HsB].
      inversion HsB as [|? ? _ HsB']; subst.
      rewrite filter_map_parse in Hs2.
      destruct (svWriteFile_lines_keys _
                  (Forall_filter_line
                     (fun seg => negb (line_has_key (line_new_parse seg) k))
                     sA HsA)) as (oA & EA & HlA & _).
      destruct (svWriteFile_lines_keys sB HsB') as (oB & EB & HlB & HkB).
      change (?x :: map line_new_parse sB)
        with ([x] ++ map line_new_parse sB) in Hs2.
      rewrite !svWriteFile_lines_app, EA, EB, Hrecout in Hs2.
      rewrite <- !flat_map_app, parse_arena_join, !map_app in Hs2
        by (apply Forall_app; split; [assumption|];
            apply Forall_app; split; [now constructor | assumption]).
      cbn [map app] in Hs2. rewrite Hrecparse in Hs2.
      exists (map line_new_parse oA), (map line_new_parse oB).
      split; [exact Hs2|]. now apply HkB. }
  destruct Hgoal as (R1 & R2 & HR & HR2).
  unfold svGetValueString, _svGetValue. rewrite HR.
  rewrite _svGetValue_last_split by assumption.
  unfold rec at 1. cbn [line]. unfold enc.
  rewrite svUnescape_svEscape by assumption.
  destruct v; [congruence | reflexivity].
Qed.

Lemma svGetValueString_after_write_witness :
  let s := {| fileName := bytes "ifcfg-eth0"; fd := 3;
              lineList := parse_arena (bytes "NAME=a" ++ [10]
                                       ++ bytes "export X" ++ [10]
                                       ++ bytes "NAME='b" ++ [10]
                                       ++ bytes "MTU=1500" ++ [10]);
              modified := false |} in
  let out := svWriteFile_lines
               (lineList (svSetValue true s (bytes "NAME")
                            (Some (bytes "my lan")))) in
  svGetValueString {| fileName := bytes "ifcfg-eth0"; fd := -1;
                      lineList := parse_arena out; modified := false |}
    (bytes "NAME")
  = Some (bytes "my lan").
Proof.
  cbv zeta.
  apply (svGetValueString_after_write true
           {| fileName := bytes "ifcfg-eth0"; fd := 3;
              lineList := parse_arena (bytes "NAME=a" ++ [10]
                                       ++ bytes "export X" ++ [10]
                                       ++ bytes "NAME='b" ++ [10]
                                       ++ bytes "MTU=1500" ++ [10]);
              modified := false |}
           _
           (bytes "NAME=a" ++ [10] ++ bytes "export X" ++ [10]
            ++ bytes "NAME='b" ++ [10] ++ bytes "MTU=1500" ++ [10])
           (bytes "NAME") (bytes "my lan")).
  - reflexivity.
  - reflexivity.
  - apply is_cstrb_spec. reflexivity.
  - discriminate.
  - reflexivity.
Defined.

(** X27.  [svSetValue] keeps an empty value where [svSetValueString]
    removes the key: after [svSetValue] with any value, the empty one
    included, [svGetValue] returns that value; for the empty value
    [svGetValueString] returns nothing; and after [svSetValueString] with
    the empty value [svGetValue] returns nothing either. *)
Theorem svGetValue_svSetValue_empty
    (char_signed : bool) (s : shvarFile) (k : list Z) :
  (forall v, is_cstr v ->
     svGetValue (svSetValue char_signed s k (Some v)) k = Some v)
  /\ svGetValueString (svSetValue char_signed s k (Some [])) k = None
  /\ svGetValue (svSetValueString char_signed s k (Some [])) k = None.
Proof.
  split; [intros v Hv; now apply _svGetValue_svSetValue|].
  split.
  - unfold svGetValueString.
    now rewrite _svGetValue_svSetValue by constructor.
  - unfold svGetValue, svSetValueString, _svGetValue.
    destruct (last_key_split k (lineList s))
      as [Hno | (A & ln & B & Hl & Hln & HB)].
    + rewrite svSetValue_absent by assumption. cbn [lineList].
      now rewrite _svGetValue_last_none by assumption.
    + rewrite (svSetValue_present char_signed s k None A ln B)
        by assumption.
      cbv zeta. cbn [lineList].
      rewrite _svGetValue_last_split; [reflexivity | | assumption].
      unfold line_has_key in *. cbn [key]. exact Hln.
Qed.

Lemma svGetValue_svSetValue_empty_witness :
  svGetValue (svSetValue true (svFile_new (bytes "ifcfg-eth0")) (bytes "A")
                (Some (bytes "x y"))) (bytes "A")
  = Some (bytes "x y").
Proof.
  apply (svGetValue_svSetValue_empty true).
  apply is_cstrb_spec. reflexivity.
Defined.
